(** * Authenticator backend: OTP issuance and secret custody

    A shallow embedding of the JavaScript sources of the authenticator
    backend, and the properties its specification states about them.

    The repository carries two generations of the service:

    - [Mongo]: [src/server.js] with [src/models/Account.js], the
      MongoDB-backed service (the same routes, plus [parseOTPAuth], appear in
      the second half of [src/server-backup.js]; the second half of
      [src/server.js] is an earlier in-memory service with the same cipher
      and time-based codes only);
    - [Fixed]: the first half of [src/server-backup.js], the in-memory
      service that derives its key with SHA-256 and issues HOTP codes
      through [generateOTP].

    Platform code that the sources call is modelled here from its published
    definition: AES-256 (FIPS 197) in CBC mode with PKCS#7 padding for
    [crypto.createCipheriv('aes-256-cbc', ...)], SHA-256 (FIPS 180-4) for
    [crypto.createHash('sha256')], and Node's lenient hex codec for
    [Buffer.from(s, 'hex')].  The speakeasy library is a parameter of the
    model ([Speakeasy]): its calls either return a code or throw.

    Conventions.  A string is represented by its UTF-8 bytes ([string]); a
    number of a JSON body is an integer ([Z]); an instant is its count of
    milliseconds, also where the source prints it as ISO text; the clock and
    the entropy source are arguments.  A route is a function from the state
    before the request to the response and the state after it, and requests
    are served one at a time. *)

From Stdlib Require Import ZArith NArith List String Ascii Bool Lia.
From Stdlib Require Import Strings.Byte.
From AAC_tactics Require Import AAC.
From stdpp Require Import gmap strings list.

Import ListNotations.
Local Open Scope list_scope.

(* ===================================================================== *)
(** * Bytes *)
(* ===================================================================== *)

Abbreviation bits8 := (bool * (bool * (bool * (bool * (bool * (bool * (bool * bool)))))))%type.

Definition xor8 (a b : bits8) : bits8 :=
  let '(a0, (a1, (a2, (a3, (a4, (a5, (a6, a7))))))) := a in
  let '(b0, (b1, (b2, (b3, (b4, (b5, (b6, b7))))))) := b in
  (xorb a0 b0, (xorb a1 b1, (xorb a2 b2, (xorb a3 b3,
  (xorb a4 b4, (xorb a5 b5, (xorb a6 b6, xorb a7 b7))))))).

(** [a ^ b] on two octets. *)
Definition bxor (a b : byte) : byte :=
  Byte.of_bits (xor8 (Byte.to_bits a) (Byte.to_bits b)).

(** Every octet, in increasing order. *)
Definition all_bytes : list byte :=
  Eval vm_compute in
    flat_map (fun n => match Byte.of_nat n with Some b => [b] | None => [] end)
             (seq 0 256).

Definition byte_of_N (n : N) : byte :=
  match Byte.of_N (n mod 256) with Some b => b | None => x00 end.

Definition byte_of_nat (n : nat) : byte := byte_of_N (N.of_nat n).

(* ===================================================================== *)
(** * AES-256 (FIPS 197), the block cipher behind ['aes-256-cbc'] *)
(* ===================================================================== *)

Module AES.

Definition sbox_table : list byte :=
  [
   x63; x7c; x77; x7b; xf2; x6b; x6f; xc5; x30; x01; x67; x2b; xfe; xd7; xab; x76;
   xca; x82; xc9; x7d; xfa; x59; x47; xf0; xad; xd4; xa2; xaf; x9c; xa4; x72; xc0;
   xb7; xfd; x93; x26; x36; x3f; xf7; xcc; x34; xa5; xe5; xf1; x71; xd8; x31; x15;
   x04; xc7; x23; xc3; x18; x96; x05; x9a; x07; x12; x80; xe2; xeb; x27; xb2; x75;
   x09; x83; x2c; x1a; x1b; x6e; x5a; xa0; x52; x3b; xd6; xb3; x29; xe3; x2f; x84;
   x53; xd1; x00; xed; x20; xfc; xb1; x5b; x6a; xcb; xbe; x39; x4a; x4c; x58; xcf;
   xd0; xef; xaa; xfb; x43; x4d; x33; x85; x45; xf9; x02; x7f; x50; x3c; x9f; xa8;
   x51; xa3; x40; x8f; x92; x9d; x38; xf5; xbc; xb6; xda; x21; x10; xff; xf3; xd2;
   xcd; x0c; x13; xec; x5f; x97; x44; x17; xc4; xa7; x7e; x3d; x64; x5d; x19; x73;
   x60; x81; x4f; xdc; x22; x2a; x90; x88; x46; xee; xb8; x14; xde; x5e; x0b; xdb;
   xe0; x32; x3a; x0a; x49; x06; x24; x5c; xc2; xd3; xac; x62; x91; x95; xe4; x79;
   xe7; xc8; x37; x6d; x8d; xd5; x4e; xa9; x6c; x56; xf4; xea; x65; x7a; xae; x08;
   xba; x78; x25; x2e; x1c; xa6; xb4; xc6; xe8; xdd; x74; x1f; x4b; xbd; x8b; x8a;
   x70; x3e; xb5; x66; x48; x03; xf6; x0e; x61; x35; x57; xb9; x86; xc1; x1d; x9e;
   xe1; xf8; x98; x11; x69; xd9; x8e; x94; x9b; x1e; x87; xe9; xce; x55; x28; xdf;
   x8c; xa1; x89; x0d; xbf; xe6; x42; x68; x41; x99; x2d; x0f; xb0; x54; xbb; x16 ].

Definition inv_sbox_table : list byte :=
  [
   x52; x09; x6a; xd5; x30; x36; xa5; x38; xbf; x40; xa3; x9e; x81; xf3; xd7; xfb;
   x7c; xe3; x39; x82; x9b; x2f; xff; x87; x34; x8e; x43; x44; xc4; xde; xe9; xcb;
   x54; x7b; x94; x32; xa6; xc2; x23; x3d; xee; x4c; x95; x0b; x42; xfa; xc3; x4e;
   x08; x2e; xa1; x66; x28; xd9; x24; xb2; x76; x5b; xa2; x49; x6d; x8b; xd1; x25;
   x72; xf8; xf6; x64; x86; x68; x98; x16; xd4; xa4; x5c; xcc; x5d; x65; xb6; x92;
   x6c; x70; x48; x50; xfd; xed; xb9; xda; x5e; x15; x46; x57; xa7; x8d; x9d; x84;
   x90; xd8; xab; x00; x8c; xbc; xd3; x0a; xf7; xe4; x58; x05; xb8; xb3; x45; x06;
   xd0; x2c; x1e; x8f; xca; x3f; x0f; x02; xc1; xaf; xbd; x03; x01; x13; x8a; x6b;
   x3a; x91; x11; x41; x4f; x67; xdc; xea; x97; xf2; xcf; xce; xf0; xb4; xe6; x73;
   x96; xac; x74; x22; xe7; xad; x35; x85; xe2; xf9; x37; xe8; x1c; x75; xdf; x6e;
   x47; xf1; x1a; x71; x1d; x29; xc5; x89; x6f; xb7; x62; x0e; xaa; x18; xbe; x1b;
   xfc; x56; x3e; x4b; xc6; xd2; x79; x20; x9a; xdb; xc0; xfe; x78; xcd; x5a; xf4;
   x1f; xdd; xa8; x33; x88; x07; xc7; x31; xb1; x12; x10; x59; x27; x80; xec; x5f;
   x60; x51; x7f; xa9; x19; xb5; x4a; x0d; x2d; xe5; x7a; x9f; x93; xc9; x9c; xef;
   xa0; xe0; x3b; x4d; xae; x2a; xf5; xb0; xc8; xeb; xbb; x3c; x83; x53; x99; x61;
   x17; x2b; x04; x7e; xba; x77; xd6; x26; xe1; x69; x14; x63; x55; x21; x0c; x7d ].

Definition SubByte (b : byte) : byte := nth (Byte.to_nat b) sbox_table x00.
Definition InvSubByte (b : byte) : byte := nth (Byte.to_nat b) inv_sbox_table x00.

(** Multiplication by [x] in GF(2^8) modulo [x^8 + x^4 + x^3 + x + 1]. *)
Definition xtime (a : byte) : byte :=
  let '(a0, (a1, (a2, (a3, (a4, (a5, (a6, a7))))))) := Byte.to_bits a in
  Byte.of_bits (a7, (xorb a0 a7, (a1, (xorb a2 a7, (xorb a3 a7, (a4, (a5, a6))))))).

Definition mul2 (a : byte) : byte := xtime a.
Definition mul3 (a : byte) : byte := bxor (xtime a) a.
Definition mul4 (a : byte) : byte := xtime (xtime a).
Definition mul8 (a : byte) : byte := xtime (mul4 a).
Definition mul9 (a : byte) : byte := bxor (mul8 a) a.
Definition mul11 (a : byte) : byte := bxor (bxor (mul8 a) (mul2 a)) a.
Definition mul13 (a : byte) : byte := bxor (bxor (mul8 a) (mul4 a)) a.
Definition mul14 (a : byte) : byte := bxor (bxor (mul8 a) (mul4 a)) (mul2 a).

(** A word is one column of the state; a block is the four columns. *)
Definition word : Type := byte * byte * byte * byte.
Definition block : Type := word * word * word * word.

Definition map_word (f : byte -> byte) (w : word) : word :=
  let '(a, b, c, d) := w in (f a, f b, f c, f d).

Definition xor_word (v w : word) : word :=
  let '(a, b, c, d) := v in
  let '(a', b', c', d') := w in
  (bxor a a', bxor b b', bxor c c', bxor d d').

Definition map_block (f : word -> word) (s : block) : block :=
  let '(c0, c1, c2, c3) := s in (f c0, f c1, f c2, f c3).

Definition SubWord (w : word) : word := map_word SubByte w.
Definition RotWord (w : word) : word := let '(a, b, c, d) := w in (b, c, d, a).

Definition AddRoundKey (k s : block) : block :=
  let '(k0, k1, k2, k3) := k in
  let '(c0, c1, c2, c3) := s in
  (xor_word c0 k0, xor_word c1 k1, xor_word c2 k2, xor_word c3 k3).

Definition SubBytes (s : block) : block := map_block (map_word SubByte) s.
Definition InvSubBytes (s : block) : block := map_block (map_word InvSubByte) s.

(** Row [r] of the state is rotated left by [r] columns. *)
Definition ShiftRows (s : block) : block :=
  let '((a0, a1, a2, a3), (b0, b1, b2, b3), (c0, c1, c2, c3), (d0, d1, d2, d3)) := s in
  ((a0, b1, c2, d3), (b0, c1, d2, a3), (c0, d1, a2, b3), (d0, a1, b2, c3)).

Definition InvShiftRows (s : block) : block :=
  let '((a0, a1, a2, a3), (b0, b1, b2, b3), (c0, c1, c2, c3), (d0, d1, d2, d3)) := s in
  ((a0, d1, c2, b3), (b0, a1, d2, c3), (c0, b1, a2, d3), (d0, c1, b2, a3)).

Definition MixColumn (w : word) : word :=
  let '(a0, a1, a2, a3) := w in
  (bxor (bxor (bxor (mul2 a0) (mul3 a1)) a2) a3,
   bxor (bxor (bxor a0 (mul2 a1)) (mul3 a2)) a3,
   bxor (bxor (bxor a0 a1) (mul2 a2)) (mul3 a3),
   bxor (bxor (bxor (mul3 a0) a1) a2) (mul2 a3)).

Definition InvMixColumn (w : word) : word :=
  let '(a0, a1, a2, a3) := w in
  (bxor (bxor (bxor (mul14 a0) (mul11 a1)) (mul13 a2)) (mul9 a3),
   bxor (bxor (bxor (mul9 a0) (mul14 a1)) (mul11 a2)) (mul13 a3),
   bxor (bxor (bxor (mul13 a0) (mul9 a1)) (mul14 a2)) (mul11 a3),
   bxor (bxor (bxor (mul11 a0) (mul13 a1)) (mul9 a2)) (mul14 a3)).

Definition MixColumns (s : block) : block := map_block MixColumn s.
Definition InvMixColumns (s : block) : block := map_block InvMixColumn s.

(** ** Key expansion for a 256-bit key ([Nk = 8], [Nr = 14]) *)

Definition zero_word : word := (x00, x00, x00, x00).

Fixpoint Rcon_byte (i : nat) : byte :=
  match i with
  | O => x8d
  | S j => xtime (Rcon_byte j)
  end.

Definition Rcon (i : nat) : word := (Rcon_byte i, x00, x00, x00).

(** [expand fuel i ws] appends words [w[i]], [w[i+1]], ... to the reversed
    schedule [ws], whose head is [w[i-1]]. *)
Fixpoint expand (fuel i : nat) (ws : list word) : list word :=
  match fuel with
  | O => ws
  | S fuel' =>
      let temp := nth 0 ws zero_word in
      let temp' :=
        if Nat.eqb (i mod 8) 0 then xor_word (SubWord (RotWord temp)) (Rcon (i / 8))
        else if Nat.eqb (i mod 8) 4 then SubWord temp
        else temp in
      expand fuel' (S i) (xor_word (nth 7 ws zero_word) temp' :: ws)
  end.

Fixpoint words_of_bytes (l : list byte) : list word :=
  match l with
  | a :: b :: c :: d :: l' => (a, b, c, d) :: words_of_bytes l'
  | _ => []
  end.

Fixpoint blocks_of_words (l : list word) : list block :=
  match l with
  | a :: b :: c :: d :: l' => (a, b, c, d) :: blocks_of_words l'
  | _ => []
  end.

(** The fifteen round keys of a 32-byte cipher key. *)
Definition KeyExpansion (key : list byte) : list block :=
  blocks_of_words (rev (expand 52 8 (rev (words_of_bytes key)))).

(** ** Cipher and inverse cipher *)

Fixpoint rounds (ks : list block) (s : block) : block :=
  match ks with
  | [] => s
  | [k] => AddRoundKey k (ShiftRows (SubBytes s))
  | k :: ks' => rounds ks' (AddRoundKey k (MixColumns (ShiftRows (SubBytes s))))
  end.

Definition Cipher (ks : list block) (s : block) : block :=
  match ks with
  | [] => s
  | k0 :: ks' => rounds ks' (AddRoundKey k0 s)
  end.

(** The inverse rounds, consuming the round keys last to first: [ks] is the
    schedule without its first key, reversed. *)
Fixpoint inv_rounds (first : bool) (ks : list block) (s : block) : block :=
  match ks with
  | [] => s
  | k :: ks' =>
      let s' := AddRoundKey k s in
      let s'' := if first then s' else InvMixColumns s' in
      inv_rounds false ks' (InvSubBytes (InvShiftRows s''))
  end.

Definition InvCipher (ks : list block) (s : block) : block :=
  match ks with
  | [] => s
  | k0 :: ks' => AddRoundKey k0 (inv_rounds true (rev ks') s)
  end.

End AES.

(* ===================================================================== *)
(** * Exceptions *)
(* ===================================================================== *)

(** What a call can throw.  The names are those of Node, OpenSSL, Mongoose
    and the sources' own [Error] messages. *)
Inductive exn : Type :=
  | ERR_INVALID_ARG_TYPE        (* Buffer.from(undefined, 'hex') *)
  | TypeError                   (* a property read on undefined *)
  | ERR_CRYPTO_INVALID_KEYLEN   (* createCipheriv: key is not 32 bytes *)
  | ERR_CRYPTO_INVALID_IV       (* createCipheriv: iv is not 16 bytes *)
  | ERR_OSSL_WRONG_FINAL_BLOCK_LENGTH
  | ERR_OSSL_BAD_DECRYPT
  | URIError                    (* decodeURIComponent *)
  | ERR_INVALID_URL             (* new URL *)
  | Invalid_OTP_Auth_URL        (* parseOTPAuth *)
  | Secret_not_found            (* parseOTPAuth *)
  | SpeakeasyError              (* anything speakeasy throws *)
  | ValidationError             (* Mongoose schema validation *)
  | E11000.                     (* MongoDB duplicate key on a unique index *)

Inductive result (A : Type) : Type :=
  | Ok (a : A)
  | Throw (e : exn).
Arguments Ok {A} a.
Arguments Throw {A} e.

Definition bind {A B : Type} (r : result A) (k : A -> result B) : result B :=
  match r with
  | Ok a => k a
  | Throw e => Throw e
  end.

Notation "'let*' x := r 'in' k" := (bind r (fun x => k))
  (at level 10, x pattern, r at level 100, k at level 200).

Definition is_Ok {A : Type} (r : result A) : bool :=
  match r with Ok _ => true | Throw _ => false end.

(* ===================================================================== *)
(** * JavaScript strings and values *)
(* ===================================================================== *)

Module JS.

Local Open Scope string_scope.

(** A string is truthy when it is not empty, a number when it is not zero. *)
Definition truthy (s : string) : bool := negb (String.eqb s "").

(** [o || d] where [o] is a string or [undefined]. *)
Definition or_str (o : option string) (d : string) : string :=
  match o with
  | Some s => if truthy s then s else d
  | None => d
  end.

(** [o || d] where [o] is a number or [undefined]. *)
Definition or_num (o : option Z) (d : Z) : Z :=
  match o with
  | Some z => if Z.eqb z 0 then d else z
  | None => d
  end.

(** [o || d] where [o] is a boolean or [undefined]. *)
Definition or_bool (o : option bool) (d : bool) : bool :=
  match o with
  | Some true => true
  | _ => d
  end.

(** A destructuring default [{ x = d }]: taken only when [x] is [undefined]. *)
Definition default {A : Type} (o : option A) (d : A) : A :=
  match o with
  | Some a => a
  | None => d
  end.

(** [!o] for a string or [undefined]. *)
Definition falsy_str (o : option string) : bool :=
  match o with
  | Some s => negb (truthy s)
  | None => true
  end.

Definition map_string (f : ascii -> ascii) : string -> string :=
  fix go (s : string) : string :=
    match s with
    | EmptyString => EmptyString
    | String c s' => String (f c) (go s')
    end.

(** On the ASCII range, which is where the sources use them. *)
Definition lower (c : ascii) : ascii :=
  let n := nat_of_ascii c in
  if (Nat.leb 65 n && Nat.leb n 90)%bool then ascii_of_nat (n + 32) else c.

Definition upper (c : ascii) : ascii :=
  let n := nat_of_ascii c in
  if (Nat.leb 97 n && Nat.leb n 122)%bool then ascii_of_nat (n - 32) else c.

Definition toLowerCase : string -> string := map_string lower.
Definition toUpperCase : string -> string := map_string upper.

(** [\s] on the ASCII range: tab, line feed, vertical tab, form feed,
    carriage return and space. *)
Definition is_space (c : ascii) : bool :=
  let n := nat_of_ascii c in
  ((Nat.leb 9 n && Nat.leb n 13) || Nat.eqb n 32)%bool.

(** [s.replace(/\s+/g, '')]. *)
Fixpoint remove_spaces (s : string) : string :=
  match s with
  | EmptyString => EmptyString
  | String c s' => if is_space c then remove_spaces s' else String c (remove_spaces s')
  end.

Fixpoint trimStart (s : string) : string :=
  match s with
  | EmptyString => EmptyString
  | String c s' => if is_space c then trimStart s' else s
  end.

Fixpoint trimEnd (s : string) : string :=
  match s with
  | EmptyString => EmptyString
  | String c s' =>
      match trimEnd s' with
      | EmptyString => if is_space c then EmptyString else String c EmptyString
      | t => String c t
      end
  end.

Definition trim (s : string) : string := trimEnd (trimStart s).

(** [s.split(sep)] for a one-character separator: never an empty array. *)
Fixpoint split (sep : ascii) (s : string) : list string :=
  match s with
  | EmptyString => [EmptyString]
  | String c s' =>
      if Ascii.eqb c sep then EmptyString :: split sep s'
      else match split sep s' with
           | [] => [String c EmptyString]
           | p :: ps => String c p :: ps
           end
  end.

(** [parts.join(sep)]. *)
Fixpoint join (sep : string) (l : list string) : string :=
  match l with
  | [] => EmptyString
  | [p] => p
  | p :: l' => p ++ sep ++ join sep l'
  end.

(** [s.includes(c)] for a one-character needle. *)
Fixpoint includes (c : ascii) (s : string) : bool :=
  match s with
  | EmptyString => false
  | String c' s' => (Ascii.eqb c' c || includes c s')%bool
  end.

Definition startsWith (p s : string) : bool := String.prefix p s.

(** [s.substring(1)]. *)
Definition substring1 (s : string) : string :=
  match s with
  | EmptyString => EmptyString
  | String _ s' => s'
  end.

(** [s.slice(0, n)]. *)
Definition slice0 (n : nat) (s : string) : string := String.substring 0 n s.

(** JavaScript's [%] truncates towards zero.  ([Z.rem x 0] is [x], where
    JavaScript has [NaN]; the schema keeps periods away from zero.) *)
Definition rem (x y : Z) : Z := Z.rem x y.

(** [Math.floor(ms / 1000)] and [Math.round(ms / 1000.0)] on an integer. *)
Definition floor_div_1000 (ms : Z) : Z := ms / 1000.
Definition round_div_1000 (ms : Z) : Z := (ms + 500) / 1000.

#[local] Unset Elimination Schemes.
Inductive json : Type :=
  | JNull
  | JBool (b : bool)
  | JNum (z : Z)
  | JStr (s : string)
  | JArr (l : list json)
  | JObj (fields : list (string * json)).
#[local] Set Elimination Schemes.

End JS.

(** [crypto.randomBytes]: the entropy source is an unbounded sequence of
    octets; a draw of [n] bytes consumes its first [n] elements. *)
Definition entropy : Type := nat -> byte.

Definition randomBytes (n : nat) (g : entropy) : list byte * entropy :=
  (map g (seq 0 n), fun i => g (n + i)%nat).

(* ===================================================================== *)
(** * Buffers and the hex codec *)
(* ===================================================================== *)

Module Buffer.

Definition hex_digit (n : N) : ascii :=
  nth (N.to_nat n)
      ["0"; "1"; "2"; "3"; "4"; "5"; "6"; "7"; "8"; "9";
       "a"; "b"; "c"; "d"; "e"; "f"]%char "0"%char.

(** The value of a hexadecimal digit, either case. *)
Definition unhex (c : ascii) : option N :=
  let n := N_of_ascii c in
  if ((48 <=? n) && (n <=? 57))%N then Some (n - 48)%N
  else if ((97 <=? n) && (n <=? 102))%N then Some (n - 87)%N
  else if ((65 <=? n) && (n <=? 70))%N then Some (n - 55)%N
  else None.

(** [buf.toString('hex')]. *)
Fixpoint toString_hex (l : list byte) : string :=
  match l with
  | [] => EmptyString
  | b :: l' =>
      String (hex_digit (Byte.to_N b / 16))
             (String (hex_digit (Byte.to_N b mod 16)) (toString_hex l'))
  end.

(** [Buffer.from(s, 'hex')]: pairs of digits are decoded from the left, and
    decoding stops, without an error, at the first pair that is not two
    hexadecimal digits; a trailing single character is dropped. *)
Fixpoint from_hex (s : string) : list byte :=
  match s with
  | String a (String b s') =>
      match unhex a, unhex b with
      | Some h, Some k => byte_of_N (16 * h + k) :: from_hex s'
      | _, _ => []
      end
  | _ => []
  end.

(** [Buffer.from(s, 'utf8')] and [buf.toString('utf8')]. *)
Definition from_utf8 (s : string) : list byte := list_byte_of_string s.
Definition toString_utf8 (l : list byte) : string := string_of_list_byte l.

End Buffer.

(* ===================================================================== *)
(** * ['aes-256-cbc'] with OpenSSL's default PKCS#7 padding *)
(* ===================================================================== *)

Module Crypto.

Import AES.

Definition bytes_of_word (w : word) : list byte :=
  let '(a, b, c, d) := w in [a; b; c; d].

Definition bytes_of_block (s : block) : list byte :=
  let '(c0, c1, c2, c3) := s in
  bytes_of_word c0 ++ bytes_of_word c1 ++ bytes_of_word c2 ++ bytes_of_word c3.

Definition bytes_of_blocks (l : list block) : list byte := flat_map bytes_of_block l.

(** Whole 16-byte blocks of a buffer. *)
Definition blocks_of_bytes (l : list byte) : list block :=
  blocks_of_words (words_of_bytes l).

Definition block_of_iv (iv : list byte) : block :=
  match blocks_of_bytes iv with
  | b :: _ => b
  | [] => (zero_word, zero_word, zero_word, zero_word)
  end.

Definition pad_length (n : nat) : nat := 16 - n mod 16.

Definition pkcs7_pad (l : list byte) : list byte :=
  l ++ repeat (byte_of_nat (pad_length (length l))) (pad_length (length l)).

(** OpenSSL's check of the final block: the last byte [n] must be in
    [1..16] and the last [n] bytes must all equal [n]. *)
Definition pkcs7_unpad (l : list byte) : result (list byte) :=
  let n := Byte.to_nat (List.last l x00) in
  if (Nat.eqb n 0 || Nat.ltb 16 n)%bool then Throw ERR_OSSL_BAD_DECRYPT
  else if forallb (Byte.eqb (List.last l x00)) (skipn (length l - n) l)
       then Ok (firstn (length l - n) l)
       else Throw ERR_OSSL_BAD_DECRYPT.

Fixpoint cbc_encrypt (ks : list block) (prev : block) (bs : list block) : list block :=
  match bs with
  | [] => []
  | b :: bs' =>
      let c := Cipher ks (AddRoundKey prev b) in
      c :: cbc_encrypt ks c bs'
  end.

Fixpoint cbc_decrypt (ks : list block) (prev : block) (cs : list block) : list block :=
  match cs with
  | [] => []
  | c :: cs' => AddRoundKey prev (InvCipher ks c) :: cbc_decrypt ks c cs'
  end.

(** [createCipheriv('aes-256-cbc', key, iv)] checks the two lengths, the
    length of the nonce first. *)
Definition check_key_iv (key iv : list byte) : result unit :=
  if negb (Nat.eqb (length iv) 16) then Throw ERR_CRYPTO_INVALID_IV
  else if negb (Nat.eqb (length key) 32) then Throw ERR_CRYPTO_INVALID_KEYLEN
  else Ok tt.

(** [c = createCipheriv('aes-256-cbc', key, iv);
     Buffer.concat([c.update(data), c.final()])]. *)
Definition cipher_aes_256_cbc (key iv data : list byte) : result (list byte) :=
  let* _ := check_key_iv key iv in
  Ok (bytes_of_blocks
        (cbc_encrypt (KeyExpansion key) (block_of_iv iv)
                     (blocks_of_bytes (pkcs7_pad data)))).

(** [d = createDecipheriv('aes-256-cbc', key, iv);
     Buffer.concat([d.update(data), d.final()])]. *)
Definition decipher_aes_256_cbc (key iv data : list byte) : result (list byte) :=
  let* _ := check_key_iv key iv in
  if (Nat.eqb (length data) 0 || negb (Nat.eqb (length data mod 16) 0))%bool
  then Throw ERR_OSSL_WRONG_FINAL_BLOCK_LENGTH
  else pkcs7_unpad
         (bytes_of_blocks
            (cbc_decrypt (KeyExpansion key) (block_of_iv iv) (blocks_of_bytes data))).

End Crypto.

(* ===================================================================== *)
(** * SHA-256 (FIPS 180-4), behind [crypto.createHash('sha256')] *)
(* ===================================================================== *)

Module SHA256.

Local Open Scope N_scope.

Definition wrap (x : N) : N := x mod 2 ^ 32.
Definition add32 (x y : N) : N := wrap (x + y).
Definition rotr (n x : N) : N := N.lor (N.shiftr x n) (wrap (N.shiftl x (32 - n))).
Definition not32 (x : N) : N := N.lxor x (2 ^ 32 - 1).

Definition Ch (x y z : N) : N := N.lxor (N.land x y) (N.land (not32 x) z).
Definition Maj (x y z : N) : N :=
  N.lxor (N.lxor (N.land x y) (N.land x z)) (N.land y z).
Definition Sigma0 (x : N) : N := N.lxor (N.lxor (rotr 2 x) (rotr 13 x)) (rotr 22 x).
Definition Sigma1 (x : N) : N := N.lxor (N.lxor (rotr 6 x) (rotr 11 x)) (rotr 25 x).
Definition sigma0 (x : N) : N := N.lxor (N.lxor (rotr 7 x) (rotr 18 x)) (N.shiftr x 3).
Definition sigma1 (x : N) : N := N.lxor (N.lxor (rotr 17 x) (rotr 19 x)) (N.shiftr x 10).

(** The first sixty-four primes. *)
Definition is_prime (n : nat) : bool :=
  forallb (fun d => negb (Nat.eqb (n mod d) 0)) (seq 2 (n - 2)).

Definition primes : list nat :=
  Eval vm_compute in firstn 64 (filter is_prime (seq 2 400)).

(** The integer part of the [k]-th root of [n], found bit by bit from bit
    [bits - 1] down. *)
Fixpoint iroot (k : N) (bits : nat) (n r : N) : N :=
  match bits with
  | O => r
  | S bits' =>
      let r' := r + 2 ^ N.of_nat bits' in
      iroot k bits' n (if (r' ^ k <=? n) then r' else r)
  end.

(** The first thirty-two bits of the fractional part of the [k]-th root of
    a prime. *)
Definition root_fraction (k : N) (p : nat) : N :=
  wrap (iroot k 40 (N.of_nat p * 2 ^ (32 * k)) 0).

(** The round constants come from the cube roots of the primes, the
    initial hash value from the square roots of the first eight. *)
Definition K : list N := Eval vm_compute in map (root_fraction 3) primes.

(** The eight working variables, and the hash value, as one tuple. *)
Definition state : Type := N * N * N * N * N * N * N * N.

Definition H0 : state :=
  Eval vm_compute in
    match map (root_fraction 2) (firstn 8 primes) with
    | [a; b; c; d; e; f; g; h] => (a, b, c, d, e, f, g, h)
    | _ => (0, 0, 0, 0, 0, 0, 0, 0)
    end.

(** Big-endian bytes of a number, [n] of them. *)
Fixpoint be_bytes (n : nat) (x : N) : list byte :=
  match n with
  | O => []
  | S n' => be_bytes n' (x / 256) ++ [byte_of_N x]
  end.

Definition be_word (l : list byte) : N :=
  fold_left (fun acc b => 256 * acc + Byte.to_N b) l 0.

(** The message followed by [0x80], zero bytes up to 56 modulo 64, and the
    bit length on eight bytes. *)
Definition pad (msg : list byte) : list byte :=
  let n := length msg in
  msg ++ [x80] ++ repeat x00 ((119 - n mod 64) mod 64)%nat
      ++ be_bytes 8 (8 * N.of_nat n).

Fixpoint chunk_words (n : nat) (l : list byte) : list N :=
  match n with
  | O => []
  | S n' => be_word (firstn 4 l) :: chunk_words n' (skipn 4 l)
  end.

(** Extends the reversed schedule [ws] (head [W[t-1]]) by [fuel] words. *)
Fixpoint schedule (fuel : nat) (ws : list N) : list N :=
  match fuel with
  | O => ws
  | S fuel' =>
      let w := add32 (add32 (sigma1 (nth 1 ws 0)) (nth 6 ws 0))
                     (add32 (sigma0 (nth 14 ws 0)) (nth 15 ws 0)) in
      schedule fuel' (w :: ws)
  end.

Definition step (s : state) (kw : N * N) : state :=
  let '(a, b, c, d, e, f, g, h) := s in
  let T1 := add32 (add32 (add32 h (Sigma1 e)) (add32 (Ch e f g) (fst kw))) (snd kw) in
  let T2 := add32 (Sigma0 a) (Maj a b c) in
  (add32 T1 T2, a, b, c, add32 d T1, e, f, g).

Definition add_state (s t : state) : state :=
  let '(a, b, c, d, e, f, g, h) := s in
  let '(a', b', c', d', e', f', g', h') := t in
  (add32 a a', add32 b b', add32 c c', add32 d d',
   add32 e e', add32 f f', add32 g g', add32 h h').

Definition compress (s : state) (chunk : list byte) : state :=
  let W := rev (schedule 48 (rev (chunk_words 16 chunk))) in
  add_state s (fold_left step (combine K W) s).

Fixpoint process (fuel : nat) (s : state) (l : list byte) : state :=
  match fuel with
  | O => s
  | S fuel' =>
      match l with
      | [] => s
      | _ => process fuel' (compress s (firstn 64 l)) (skipn 64 l)
      end
  end.

Definition bytes_of_state (s : state) : list byte :=
  let '(a, b, c, d, e, f, g, h) := s in
  be_bytes 4 a ++ be_bytes 4 b ++ be_bytes 4 c ++ be_bytes 4 d ++
  be_bytes 4 e ++ be_bytes 4 f ++ be_bytes 4 g ++ be_bytes 4 h.

(** [createHash('sha256').update(msg).digest()]. *)
Definition digest (msg : list byte) : list byte :=
  let p := pad msg in
  bytes_of_state (process (length p) H0 p).

End SHA256.

(* ===================================================================== *)
(** * The speakeasy library and the HTTP layer *)
(* ===================================================================== *)

(** The options the sources pass to [speakeasy.totp] and [speakeasy.hotp];
    [encoding] is ['base32'] at every call and is left out.  A field the
    call site omits is [None]. *)
Record totp_options : Type := {
  o_secret : string;
  o_algorithm : option string;
  o_digits : option Z;
  o_step : option Z;
  o_window : option Z
}.

Record hotp_options : Type := {
  h_secret : string;
  h_counter : Z;
  h_digits : Z
}.

(** The library itself is not part of the repository: a call returns a
    token or throws.  [totp] also reads the clock (milliseconds). *)
Record Speakeasy : Type := {
  totp : totp_options -> Z -> result string;
  hotp : hotp_options -> result string
}.

Record response : Type := {
  status : Z;
  body : JS.json
}.

Definition json (st : Z) (b : JS.json) : response := {| status := st; body := b |}.

(** What Express answers when a handler throws outside any [try]. *)
Definition express_error : response := json 500 JS.JNull.

Definition exn_message (e : exn) : string :=
  match e with
  | ERR_INVALID_ARG_TYPE => "ERR_INVALID_ARG_TYPE"
  | TypeError => "TypeError"
  | ERR_CRYPTO_INVALID_KEYLEN => "Invalid key length"
  | ERR_CRYPTO_INVALID_IV => "Invalid initialization vector"
  | ERR_OSSL_WRONG_FINAL_BLOCK_LENGTH => "wrong final block length"
  | ERR_OSSL_BAD_DECRYPT => "bad decrypt"
  | URIError => "URI malformed"
  | ERR_INVALID_URL => "Invalid URL"
  | Invalid_OTP_Auth_URL => "Invalid OTP Auth URL"
  | Secret_not_found => "Secret not found"
  | SpeakeasyError => "speakeasy"
  | ValidationError => "Account validation failed"
  | E11000 => "E11000 duplicate key error"
  end.

(** The time left in the current step: [period - (epoch % period)]. *)
Definition time_remaining (period epoch : Z) : Z := period - JS.rem epoch period.

(* ===================================================================== *)
(** * [Fixed]: the in-memory service of [src/server-backup.js] *)
(* ===================================================================== *)

Module Fixed.

Local Open Scope Z_scope.
Local Open Scope string_scope.

(** [createHash('sha256').update(process.env.ENCRYPTION_KEY || 'dev-secret')
     .digest()], evaluated once when the module is loaded. *)
Definition ENCRYPTION_KEY (env : option string) : list byte :=
  SHA256.digest (Buffer.from_utf8 (JS.or_str env "dev-secret")).

Definition normalizeBase32 (secret : string) : string :=
  JS.toUpperCase (JS.remove_spaces secret).

(** [Buffer.from(ENCRYPTION_KEY, 'hex')] copies its argument, which is a
    buffer already: the encoding is not consulted. *)
Definition encrypt (KEY : list byte) (text : string) (g : entropy)
  : result string * entropy :=
  let '(iv, g') := randomBytes 16 g in
  (let* encrypted := Crypto.cipher_aes_256_cbc KEY iv (Buffer.from_utf8 text) in
   Ok (Buffer.toString_hex iv ++ ":" ++ Buffer.toString_hex encrypted),
   g').

(** [const [ivHex, encryptedHex] = text.split(':')]: segments after the
    second are dropped, and [encryptedHex] is [undefined] when the text has
    no colon. *)
Definition decrypt (KEY : list byte) (text : string) : result string :=
  let parts := JS.split ":" text in
  let ivHex := nth 0 parts "" in
  let* _ := Crypto.check_key_iv KEY (Buffer.from_hex ivHex) in
  match nth_error parts 1 with
  | None => Throw ERR_INVALID_ARG_TYPE
  | Some encryptedHex =>
      let* plain := Crypto.decipher_aes_256_cbc KEY (Buffer.from_hex ivHex)
                                                (Buffer.from_hex encryptedHex) in
      Ok (Buffer.toString_utf8 plain)
  end.

(** An entry of the [accounts] object.  [counter] is absent until the first
    HOTP issuance writes it. *)
Record Account : Type := {
  name : string;
  secret : string;
  encrypted : bool;
  digits : Z;
  period : Z;
  type : string;
  algorithm : string;
  addedAt : Z;
  counter : option Z
}.

Definition set_counter (account : Account) (c : Z) : Account :=
  {| name := name account; secret := secret account;
     encrypted := encrypted account; digits := digits account;
     period := period account; type := type account;
     algorithm := algorithm account; addedAt := addedAt account;
     counter := Some c |}.

(** What [generateOTP] returns. *)
Record otp : Type := {
  code : string;
  otp_type : string;
  timeRemaining : option Z
}.

Definition otp_fields (r : otp) : list (string * JS.json) :=
  ([("code", JS.JStr (code r)); ("type", JS.JStr (otp_type r))]
   ++ match timeRemaining r with
      | Some t => [("timeRemaining", JS.JNum t)]
      | None => []
      end)%list.

Section Service.

Variable speakeasy : Speakeasy.
Variable env : option string.

Let KEY : list byte := ENCRYPTION_KEY env.

(** [generateOTP(account)] at clock [now].  The account object is shared
    with the store, so the account it returns is what the store holds
    afterwards; when it throws, nothing has been assigned yet. *)
Definition generateOTP (now : Z) (account : Account) : result (otp * Account) :=
  let* secret :=
    (if encrypted account then decrypt KEY (secret account)
     else Ok (secret account)) in
  let secret := normalizeBase32 secret in
  if String.eqb (type account) "hotp" then
    let* token :=
      hotp speakeasy {| h_secret := secret;
                        h_counter := JS.or_num (counter account) 0;
                        h_digits := digits account |} in
    Ok ({| code := token; otp_type := "hotp"; timeRemaining := None |},
        set_counter account (JS.or_num (counter account) 0 + 1))
  else
    let* token :=
      totp speakeasy {| o_secret := secret;
                        o_algorithm := Some (JS.or_str (Some (algorithm account)) "sha256");
                        o_digits := Some (digits account);
                        o_step := Some (period account);
                        o_window := Some 1 |} now in
    let epoch := JS.floor_div_1000 now in
    let remaining := time_remaining (period account) epoch in
    Ok ({| code := token; otp_type := "totp"; timeRemaining := Some remaining |},
        account).

(** The counter as the issuance reads it: [account.counter || 0]. *)
Definition counter_value (account : Account) : Z := JS.or_num (counter account) 0.

(** [n] issuances for one account, one after the other; the run throws as
    soon as one of them does. *)
Fixpoint issue_times (n : nat) (now : Z) (account : Account) : result Account :=
  match n with
  | O => Ok account
  | S n' =>
      let* r := generateOTP now account in
      issue_times n' now (snd r)
  end.

(** ** The store *)

(** [accounts] is a plain object: a lookup that finds no own property
    falls through to [Object.prototype]. *)
Definition Object_prototype : list string :=
  ["constructor"; "__proto__"; "hasOwnProperty"; "isPrototypeOf";
   "propertyIsEnumerable"; "toLocaleString"; "toString"; "valueOf";
   "__defineGetter__"; "__defineSetter__"; "__lookupGetter__";
   "__lookupSetter__"].

Inductive property : Type :=
  | Own (account : Account)
  | Inherited
  | Undefined.

Definition get (accounts : gmap string Account) (key : string) : property :=
  match accounts !! key with
  | Some account => Own account
  | None => if existsb (String.eqb key) Object_prototype then Inherited else Undefined
  end.

Record state : Type := {
  accounts : gmap string Account;
  random : entropy
}.

Definition with_accounts (s : state) (m : gmap string Account) : state :=
  {| accounts := m; random := random s |}.

Definition keys_json (m : gmap string Account) : JS.json :=
  JS.JArr (map (fun kv => JS.JStr (fst kv)) (map_to_list m)).

(** ** Routes *)

(** [GET /api/code/:key] *)
Definition GET_api_code (now : Z) (key : string) (s : state) : response * state :=
  match get (accounts s) key with
  | Undefined =>
      (json 404 (JS.JObj [("error", JS.JStr "Account not found");
                          ("available", keys_json (accounts s))]), s)
  | Inherited =>
      (* [normalizeBase32(undefined)] throws inside the [try] *)
      (json 500 (JS.JObj [("error", JS.JStr "OTP generation failed")]), s)
  | Own account =>
      match generateOTP now account with
      | Ok (result, account') =>
          (json 200 (JS.JObj (("account", JS.JStr (name account)) :: otp_fields result)),
           with_accounts s (<[key := account']> (accounts s)))
      | Throw _ =>
          (json 500 (JS.JObj [("error", JS.JStr "OTP generation failed")]), s)
      end
  end.

(** One element of the [codes] array, and the account afterwards. *)
Definition code_entry (now : Z) (key : string) (acc : Account) : JS.json * Account :=
  match generateOTP now acc with
  | Ok (result, acc') =>
      (JS.JObj (("key", JS.JStr key) :: ("name", JS.JStr (name acc)) :: otp_fields result),
       acc')
  | Throw _ =>
      (JS.JObj [("key", JS.JStr key); ("name", JS.JStr (name acc));
                ("error", JS.JStr "FAILED")], acc)
  end.

(** [GET /api/codes].  Accounts are independent of one another, so the map
    is taken in its key order. *)
Definition GET_api_codes (now : Z) (s : state) : response * state :=
  (json 200 (JS.JObj [("codes",
      JS.JArr (map (fun kv => fst (code_entry now (fst kv) (snd kv)))
                   (map_to_list (accounts s))))]),
   with_accounts s (map_imap (fun k acc => Some (snd (code_entry now k acc))) (accounts s))).

(** The body of [POST /api/accounts]. *)
Record new_account : Type := {
  r_key : option string;
  r_name : option string;
  r_secret : option string;
  r_digits : option Z;
  r_period : option Z;
  r_type : option string;
  r_algorithm : option string;
  r_encrypt : option bool
}.

(** [POST /api/accounts].  The validating [speakeasy.totp] call is outside
    any [try]: when it throws, Express answers 500. *)
Definition POST_api_accounts (now : Z) (req : new_account) (s : state)
  : response * state :=
  let digits := JS.default (r_digits req) 6 in
  let period := JS.default (r_period req) 30 in
  let type := JS.default (r_type req) "totp" in
  let algorithm := JS.default (r_algorithm req) "sha256" in
  let shouldEncrypt := JS.default (r_encrypt req) true in
  if (JS.falsy_str (r_key req) || JS.falsy_str (r_secret req))%bool then
    (json 400 (JS.JObj [("error", JS.JStr "key and secret required")]), s)
  else
    let key := JS.default (r_key req) "" in
    let secret := JS.default (r_secret req) "" in
    match get (accounts s) key with
    | Own _ | Inherited =>
        (json 409 (JS.JObj [("error", JS.JStr "Account exists")]), s)
    | Undefined =>
        let cleanSecret := normalizeBase32 secret in
        match totp speakeasy {| o_secret := cleanSecret; o_algorithm := None;
                                o_digits := None; o_step := None;
                                o_window := None |} now with
        | Throw _ => (express_error, s)
        | Ok _ =>
            let '(stored, g) :=
              if shouldEncrypt then encrypt KEY cleanSecret (random s)
              else (Ok cleanSecret, random s) in
            match stored with
            | Throw _ => (express_error, {| accounts := accounts s; random := g |})
            | Ok stored =>
                (json 201 (JS.JObj [("message", JS.JStr "Account added");
                                    ("key", JS.JStr key)]),
                 {| accounts :=
                      <[key := {| name := JS.or_str (r_name req) key;
                                  secret := stored;
                                  encrypted := shouldEncrypt;
                                  digits := digits;
                                  period := period;
                                  type := type;
                                  algorithm := JS.toLowerCase algorithm;
                                  addedAt := now;
                                  counter := None |}]> (accounts s);
                    random := g |})
            end
        end
    end.

(** The validating call of [POST /api/accounts], on its own. *)
Definition validation (now : Z) (req : new_account) : result string :=
  totp speakeasy
       {| o_secret := normalizeBase32 (JS.default (r_secret req) "");
          o_algorithm := None; o_digits := None; o_step := None; o_window := None |}
       now.

(** A run of creation requests, each with its clock. *)
Definition POST_all (reqs : list (Z * new_account)) (s : state) : state :=
  fold_left (fun s r => snd (POST_api_accounts (fst r) (snd r) s)) reqs s.

(** [GET /api/debug/:key].  Nothing here is inside a [try]. *)
Definition GET_api_debug (now : Z) (key : string) (s : state) : response * state :=
  match get (accounts s) key with
  | Undefined => (json 404 (JS.JObj [("error", JS.JStr "Not found")]), s)
  | Inherited => (express_error, s)
  | Own acc =>
      match (if encrypted acc then decrypt KEY (secret acc) else Ok (secret acc)) with
      | Throw _ => (express_error, s)
      | Ok secret =>
          match generateOTP now acc with
          | Throw _ => (express_error, s)
          | Ok (result, acc') =>
              (json 200 (JS.JObj [("normalizedSecret", JS.JStr (normalizeBase32 secret));
                                  ("serverTime", JS.JNum now);
                                  ("otp", JS.JObj (otp_fields result))]),
               with_accounts s (<[key := acc']> (accounts s)))
          end
      end
  end.

(** [DELETE /api/accounts/:key] *)
Definition DELETE_api_accounts (key : string) (s : state) : response * state :=
  (json 200 (JS.JObj [("deleted", JS.JStr key)]),
   with_accounts s (delete key (accounts s))).

End Service.

End Fixed.

(* ===================================================================== *)
(** * [Mongo]: the MongoDB-backed service of [src/server.js] *)
(* ===================================================================== *)

Module Mongo.

Local Open Scope Z_scope.
Local Open Scope string_scope.

(** ** [src/models/Account.js] *)

(** A document of the [accounts] collection (the [createdAt] / [updatedAt]
    stamps that [timestamps: true] maintains are not represented). *)
Record Account : Type := {
  key : string;
  name : string;
  secret : string;
  encrypted : bool;
  digits : Z;
  period : Z;
  algorithm : string;
  type : string;
  counter : Z
}.

(** [new Account({...})]: the schema's setters run on assignment, [trim] on
    [key] and [name], [lowercase] on [algorithm] and [type]. *)
Definition new_Account (key name secret : string) (encrypted : bool)
    (digits period : Z) (algorithm type : string) (counter : Z) : Account :=
  {| key := JS.trim key; name := JS.trim name; secret := secret;
     encrypted := encrypted; digits := digits; period := period;
     algorithm := JS.toLowerCase algorithm; type := JS.toLowerCase type;
     counter := counter |}.

(** The validators of the schema, path by path. *)
Definition required (s : string) : bool := JS.truthy s.
Definition valid_digits (d : Z) : bool := (6 <=? d)%Z && (d <=? 8)%Z.
Definition valid_period (p : Z) : bool := (15 <=? p)%Z && (p <=? 60)%Z.
Definition valid_algorithm (a : string) : bool :=
  existsb (String.eqb a) ["sha1"; "sha256"; "sha512"].
Definition valid_type (t : string) : bool :=
  existsb (String.eqb t) ["totp"; "hotp"].

Definition validate (doc : Account) : bool :=
  required (key doc) && required (name doc) && required (secret doc)
  && valid_digits (digits doc) && valid_period (period doc)
  && valid_algorithm (algorithm doc) && valid_type (type doc).

(** The collection, indexed by its unique [key]. *)
Abbreviation collection := (gmap string Account).

(** [Account.findByKey(key)]: Mongoose casts the filter with the schema,
    so the [trim] setter applies to the key that is looked up. *)
Definition findByKey (db : collection) (k : string) : option Account :=
  db !! JS.trim k.

(** [save()] of a new document: validation, then the insert, which the
    unique index on [key] refuses for a key already there. *)
Definition save_new (db : collection) (doc : Account) : result collection :=
  if negb (validate doc) then Throw ValidationError
  else match db !! key doc with
       | Some _ => Throw E11000
       | None => Ok (<[key doc := doc]> db)
       end.

(** [save()] of a document loaded from the collection: the validators run
    on every path that was loaded, changed or not, and the document is
    written back under the key it was found by. *)
Definition save_modified (db : collection) (old doc : Account) : result collection :=
  if validate doc then Ok (<[key old := doc]> db)
  else Throw ValidationError.

(** Every document of the collection passes the validators. *)
Definition valid_store (db : collection) : Prop :=
  forall (k : string) (doc : Account), db !! k = Some doc -> validate doc = true.

(** ** [src/server.js] *)

(** [process.env.ENCRYPTION_KEY || crypto.randomBytes(32).toString('hex')],
    evaluated once when the module is loaded. *)
Definition ENCRYPTION_KEY (env : option string) (g : entropy) : string * entropy :=
  if JS.falsy_str env then
    let '(bytes, g') := randomBytes 32 g in (Buffer.toString_hex bytes, g')
  else (JS.default env "", g).

(** [Buffer.from(ENCRYPTION_KEY.slice(0, 64), 'hex')] *)
Definition key_bytes (KEY : string) : list byte :=
  Buffer.from_hex (JS.slice0 64 KEY).

Definition encrypt (KEY : string) (text : string) (g : entropy)
  : result string * entropy :=
  let '(iv, g') := randomBytes 16 g in
  (let* encrypted := Crypto.cipher_aes_256_cbc (key_bytes KEY) iv (Buffer.from_utf8 text) in
   Ok (Buffer.toString_hex iv ++ ":" ++ Buffer.toString_hex encrypted),
   g').

(** [parts.shift()] is the text before the first colon; the rest is joined
    back with colons before it is hex-decoded. *)
Definition decrypt (KEY : string) (text : string) : result string :=
  let parts := JS.split ":" text in
  let iv := Buffer.from_hex (nth 0 parts "") in
  let encryptedText := Buffer.from_hex (JS.join ":" (tl parts)) in
  let* decrypted := Crypto.decipher_aes_256_cbc (key_bytes KEY) iv encryptedText in
  Ok (Buffer.toString_utf8 decrypted).

Record state : Type := {
  db : collection;
  random : entropy
}.

(** The body of [POST /api/accounts] and of [PUT /api/accounts/:key]. *)
Record account_fields : Type := {
  r_key : option string;
  r_name : option string;
  r_secret : option string;
  r_digits : option Z;
  r_period : option Z;
  r_algorithm : option string;
  r_type : option string;
  r_counter : option Z;
  r_encrypt : option bool
}.

(** Values of a request that the schema does not admit.  A zero or an
    empty string is not among them: [||] takes it for an absent field. *)
Definition digits_out_of_range (req : account_fields) : Prop :=
  exists d, r_digits req = Some d /\ d <> 0 /\ ~ (6 <= d <= 8).

Definition period_out_of_range (req : account_fields) : Prop :=
  exists p, r_period req = Some p /\ p <> 0 /\ ~ (15 <= p <= 60).

Definition algorithm_unknown (req : account_fields) : Prop :=
  exists a, r_algorithm req = Some a /\ a <> ""
            /\ ~ In (JS.toLowerCase a) ["sha1"; "sha256"; "sha512"].

Definition type_unknown (req : account_fields) : Prop :=
  exists t, r_type req = Some t /\ t <> ""
            /\ ~ In (JS.toLowerCase t) ["totp"; "hotp"].

Section Service.

Variable speakeasy : Speakeasy.
Variable KEY : string.

Definition server_error (msg : string) (e : exn) : response :=
  json 500 (JS.JObj [("error", JS.JStr msg); ("details", JS.JStr (exn_message e))]).

(** The token and the remaining time of one account, as both code routes
    compute them. *)
Definition issue (now epoch : Z) (account : Account) : result (string * Z) :=
  let* secret :=
    (if encrypted account then decrypt KEY (secret account)
     else Ok (secret account)) in
  let* token :=
    totp speakeasy {| o_secret := secret;
                      o_algorithm := Some (algorithm account);
                      o_digits := Some (digits account);
                      o_step := Some (period account);
                      o_window := Some 0 |} now in
  Ok (token, time_remaining (period account) epoch).

(** [accountSchema.methods.generateCode] of [src/models/Account.js] goes
    through the same steps on [this], and returns the code, the remaining
    time and the expiry. *)
Definition generateCode (now : Z) (this : Account) : result (string * Z * Z) :=
  let* r := issue now (JS.round_div_1000 now) this in
  Ok (fst r, snd r, now + snd r * 1000).

(** [GET /api/code/:accountKey] *)
Definition GET_api_code (now : Z) (accountKey : string) (s : state) : response * state :=
  match findByKey (db s) accountKey with
  | None =>
      (json 404 (JS.JObj [("error", JS.JStr "Account not found");
                          ("availableAccounts",
                           JS.JArr (map (fun kv => JS.JStr (key (snd kv)))
                                        (map_to_list (db s))))]), s)
  | Some account =>
      match issue now (JS.round_div_1000 now) account with
      | Ok (token, timeRemaining) =>
          (json 200 (JS.JObj [("account", JS.JStr (JS.or_str (Some (name account)) accountKey));
                              ("code", JS.JStr token);
                              ("algorithm", JS.JStr (algorithm account));
                              ("timeRemaining", JS.JNum timeRemaining);
                              ("expiresAt", JS.JNum (now + timeRemaining * 1000))]), s)
      | Throw e => (server_error "Failed to generate code" e, s)
      end
  end.

(** [GET /api/codes] *)
Definition GET_api_codes (now : Z) (s : state) : response * state :=
  let epoch := JS.round_div_1000 now in
  (json 200 (JS.JObj [("codes",
     JS.JArr (map (fun kv =>
                let account := snd kv in
                match issue now epoch account with
                | Ok (token, timeRemaining) =>
                    JS.JObj [("key", JS.JStr (key account));
                             ("name", JS.JStr (name account));
                             ("code", JS.JStr token);
                             ("algorithm", JS.JStr (algorithm account));
                             ("timeRemaining", JS.JNum timeRemaining)]
                | Throw _ =>
                    JS.JObj [("key", JS.JStr (key account));
                             ("name", JS.JStr (name account));
                             ("error", JS.JStr "Failed to generate code")]
                end) (map_to_list (db s))))]), s).

(** [shouldEncrypt ? encrypt(secret) : secret] *)
Definition stored_secret (shouldEncrypt : bool) (secret : string) (g : entropy)
  : result string * entropy :=
  if shouldEncrypt then encrypt KEY secret g else (Ok secret, g).

(** [POST /api/accounts] *)
Definition POST_api_accounts (now : Z) (req : account_fields) (s : state)
  : response * state :=
  if (JS.falsy_str (r_key req) || JS.falsy_str (r_secret req))%bool then
    (json 400 (JS.JObj [("error", JS.JStr "key and secret are required")]), s)
  else
    let key := JS.default (r_key req) "" in
    let secret := JS.default (r_secret req) "" in
    match findByKey (db s) key with
    | Some _ => (json 409 (JS.JObj [("error", JS.JStr "Account already exists")]), s)
    | None =>
        let normalizedAlgorithm := JS.toLowerCase (JS.or_str (r_algorithm req) "sha1") in
        match totp speakeasy {| o_secret := secret;
                                o_algorithm := Some normalizedAlgorithm;
                                o_digits := None; o_step := None;
                                o_window := None |} now with
        | Throw _ => (json 400 (JS.JObj [("error", JS.JStr "Invalid secret key")]), s)
        | Ok _ =>
            let shouldEncrypt := JS.or_bool (r_encrypt req) false in
            let '(stored, g) := stored_secret shouldEncrypt secret (random s) in
            let s' := {| db := db s; random := g |} in
            match (let* stored := stored in
                   let newAccount :=
                     new_Account key (JS.or_str (r_name req) key) stored shouldEncrypt
                                 (JS.or_num (r_digits req) 6)
                                 (JS.or_num (r_period req) 30)
                                 normalizedAlgorithm
                                 (JS.or_str (r_type req) "totp")
                                 (JS.or_num (r_counter req) 0) in
                   let* db' := save_new (db s) newAccount in
                   Ok (newAccount, db')) with
            | Ok (newAccount, db') =>
                (json 201 (JS.JObj [("message", JS.JStr "Account added successfully");
                                    ("key", JS.JStr (Mongo.key newAccount));
                                    ("name", JS.JStr (name newAccount));
                                    ("algorithm", JS.JStr (algorithm newAccount))]),
                 {| db := db'; random := g |})
            | Throw e => (server_error "Server error" e, s')
            end
        end
    end.

(** The validating call of [POST /api/accounts], on its own. *)
Definition validation (now : Z) (req : account_fields) : result string :=
  totp speakeasy
       {| o_secret := JS.default (r_secret req) "";
          o_algorithm := Some (JS.toLowerCase (JS.or_str (r_algorithm req) "sha1"));
          o_digits := None; o_step := None; o_window := None |}
       now.

(** A run of creation requests, each with its clock. *)
Definition POST_all (reqs : list (Z * account_fields)) (s : state) : state :=
  fold_left (fun s r => snd (POST_api_accounts (fst r) (snd r) s)) reqs s.

(** The assignments of [PUT /api/accounts/:key], in source order.  The
    setters of the schema run on them: [name] is trimmed, and [algorithm],
    which the route lowercases, is lowercased once more. *)
Definition assign (req : account_fields) (account : Account) (g : entropy)
  : result Account * entropy :=
  let name' := if JS.falsy_str (r_name req) then name account
               else JS.trim (JS.default (r_name req) "") in
  let digits' := JS.or_num (r_digits req) (digits account) in
  let period' := JS.or_num (r_period req) (period account) in
  let algorithm' :=
    if JS.falsy_str (r_algorithm req) then algorithm account
    else JS.toLowerCase (JS.toLowerCase (JS.default (r_algorithm req) "")) in
  if JS.falsy_str (r_secret req) then
    (Ok {| key := key account; name := name'; secret := secret account;
           encrypted := encrypted account; digits := digits'; period := period';
           algorithm := algorithm'; type := type account;
           counter := counter account |}, g)
  else
    let shouldEncrypt := JS.or_bool (r_encrypt req) false in
    let '(stored, g') :=
      stored_secret shouldEncrypt (JS.default (r_secret req) "") g in
    (let* stored := stored in
     Ok {| key := key account; name := name'; secret := stored;
           encrypted := shouldEncrypt; digits := digits'; period := period';
           algorithm := algorithm'; type := type account;
           counter := counter account |}, g').

(** [PUT /api/accounts/:key] *)
Definition PUT_api_accounts (k : string) (req : account_fields) (s : state)
  : response * state :=
  match findByKey (db s) k with
  | None => (json 404 (JS.JObj [("error", JS.JStr "Account not found")]), s)
  | Some account =>
      let '(assigned, g) := assign req account (random s) in
      match (let* account' := assigned in
             let* db' := save_modified (db s) account account' in
             Ok (account', db')) with
      | Ok (account', db') =>
          (json 200 (JS.JObj [("message", JS.JStr "Account updated successfully");
                              ("key", JS.JStr (key account'));
                              ("name", JS.JStr (name account'))]),
           {| db := db'; random := g |})
      | Throw e => (server_error "Server error" e, {| db := db s; random := g |})
      end
  end.

(** [DELETE /api/accounts/:key] *)
Definition DELETE_api_accounts (k : string) (s : state) : response * state :=
  match findByKey (db s) k with
  | None => (json 404 (JS.JObj [("error", JS.JStr "Account not found")]), s)
  | Some _ =>
      (json 200 (JS.JObj [("message", JS.JStr "Account deleted successfully");
                          ("key", JS.JStr k)]),
       {| db := delete (JS.trim k) (db s); random := random s |})
  end.

End Service.

End Mongo.

(* ===================================================================== *)
(** * [parseOTPAuth], from the second half of [src/server-backup.js] *)
(* ===================================================================== *)

Module URL.

Local Open Scope string_scope.

(** The three components [parseOTPAuth] reads. *)
Record t : Type := {
  host : string;
  pathname : string;
  search : string
}.

(** [cut stop s]: [s] up to its first character satisfying [stop], and the
    rest of [s] from that character on. *)
Fixpoint cut (stop : ascii -> bool) (s : string) : string * string :=
  match s with
  | EmptyString => (EmptyString, EmptyString)
  | String c s' =>
      if stop c then (EmptyString, s)
      else let '(a, b) := cut stop s' in (String c a, b)
  end.

Definition is_one_of (l : list ascii) (c : ascii) : bool := existsb (Ascii.eqb c) l.

(** The text after the last ["@"], the whole text when there is none. *)
Fixpoint after_userinfo (s : string) : string :=
  match s with
  | EmptyString => EmptyString
  | String c s' =>
      if JS.includes "@" s then after_userinfo s' else s
  end.

Fixpoint drop (n : nat) (s : string) : string :=
  match n, s with
  | S n', String _ s' => drop n' s'
  | _, _ => s
  end.

(** [new URL(url)] for a URL of the [otpauth] scheme, which is not one of
    the special schemes: the authority runs to the first ["/"], ["?"] or
    ["#"], the path to the first ["?"] or ["#"], the query to the first
    ["#"].  The parser's rewriting of the text (removal of tabs and line
    breaks, percent-encoding of characters it does not allow, dot segments)
    and its validation of the host are not represented. *)
Definition parse (url : string) : result t :=
  if negb (JS.startsWith "otpauth://" url) then Throw ERR_INVALID_URL
  else
    let rest := drop 10 url in
    let '(authority, r1) := cut (is_one_of ["/"; "?"; "#"]%char) rest in
    let '(path, r2) := cut (is_one_of ["?"; "#"]%char) r1 in
    let '(query, _) := cut (is_one_of ["#"]%char) r2 in
    Ok {| host := after_userinfo authority;
          pathname := path;
          search := if String.eqb query "?" then "" else query |}.

Definition byte_char (n : N) : ascii := ascii_of_N n.

(** [decodeURIComponent]: every escape is decoded; an escape above [7F]
    must open a well-formed UTF-8 sequence whose other bytes are escapes
    too.  [need] counts the continuation bytes still due, and [lo], [hi]
    bound the next one. *)
Fixpoint decode (need : nat) (lo hi : N) (s : string) : result string :=
  match s with
  | EmptyString => match need with O => Ok EmptyString | S _ => Throw URIError end
  | String c s' =>
      if Ascii.eqb c "%" then
        match s' with
        | String a (String b s'') =>
            match Buffer.unhex a, Buffer.unhex b with
            | Some h, Some k =>
                let v := (16 * h + k)%N in
                match need with
                | S need' =>
                    if ((lo <=? v) && (v <=? hi))%N then
                      let* r := decode need' 128 191 s'' in Ok (String (byte_char v) r)
                    else Throw URIError
                | O =>
                    let continue (n : nat) (lo' hi' : N) :=
                      let* r := decode n lo' hi' s'' in Ok (String (byte_char v) r) in
                    if (v <? 128)%N then continue 0%nat 128%N 191%N
                    else if ((194 <=? v) && (v <=? 223))%N then continue 1%nat 128%N 191%N
                    else if (v =? 224)%N then continue 2%nat 160%N 191%N
                    else if (v =? 237)%N then continue 2%nat 128%N 159%N
                    else if ((225 <=? v) && (v <=? 239))%N then continue 2%nat 128%N 191%N
                    else if (v =? 240)%N then continue 3%nat 144%N 191%N
                    else if ((241 <=? v) && (v <=? 243))%N then continue 3%nat 128%N 191%N
                    else if (v =? 244)%N then continue 3%nat 128%N 143%N
                    else Throw URIError
                end
            | _, _ => Throw URIError
            end
        | _ => Throw URIError
        end
      else
        match need with
        | O => let* r := decode 0 128 191 s' in Ok (String c r)
        | S _ => Throw URIError
        end
  end.

Definition decodeURIComponent (s : string) : result string := decode 0 128 191 s.

(** The decoding of one name or value of a query: ["+"] is a space, and an
    escape that is not two hexadecimal digits is kept as it is. *)
Fixpoint form_decode (s : string) : string :=
  match s with
  | EmptyString => EmptyString
  | String c s' =>
      if Ascii.eqb c "+" then String " " (form_decode s')
      else if Ascii.eqb c "%" then
        match s' with
        | String a (String b s'') =>
            match Buffer.unhex a, Buffer.unhex b with
            | Some h, Some k => String (byte_char (16 * h + k)) (form_decode s'')
            | _, _ => String c (form_decode s')
            end
        | _ => String c (form_decode s')
        end
      else String c (form_decode s')
  end.

(** [new URLSearchParams(search)]: the pairs of the query, in order. *)
Definition URLSearchParams (search : string) : list (string * string) :=
  let query := if JS.startsWith "?" search then JS.substring1 search else search in
  flat_map (fun pair =>
              if JS.truthy pair then
                let '(n, v) := cut (is_one_of ["="]%char) pair in
                [(form_decode n, form_decode (JS.substring1 v))]
              else [])
           (JS.split "&" query).

(** [params.get(name)]: the first value under [name], or [null]. *)
Fixpoint get (params : list (string * string)) (name : string) : option string :=
  match params with
  | [] => None
  | (n, v) :: params' => if String.eqb n name then Some v else get params' name
  end.

End URL.

Module OTPAuth.

Local Open Scope Z_scope.
Local Open Scope string_scope.

(** The argument of [Number(...)] here: a string of the query or a literal. *)
Inductive primitive : Type :=
  | PStr (s : string)
  | PNum (z : Z).

Section Parse.

(** JavaScript numbers and the [Number] conversion are left abstract. *)
Context {number : Type} (Number : primitive -> number).

Record parsed : Type := {
  secret : string;
  issuer : string;
  accountName : string;
  type : string;
  algorithm : string;
  digits : number;
  period : number;
  counter : option string;
  otpAuthUrl : string
}.

(** [params.get(name) || d] *)
Definition get_or (params : list (string * string)) (name : string) (d : primitive)
  : primitive :=
  match URL.get params name with
  | Some v => if JS.truthy v then PStr v else d
  | None => d
  end.

Definition parseOTPAuth (url : string) : result parsed :=
  if negb (JS.startsWith "otpauth://" url) then Throw Invalid_OTP_Auth_URL
  else
    let* urlObj := URL.parse url in
    let type := JS.toLowerCase (URL.host urlObj) in
    let* label := URL.decodeURIComponent (JS.substring1 (URL.pathname urlObj)) in
    let params := URL.URLSearchParams (URL.search urlObj) in
    let secret := URL.get params "secret" in
    if JS.falsy_str secret then Throw Secret_not_found
    else
      let issuer := JS.or_str (URL.get params "issuer") (nth 0 (JS.split ":" label) "") in
      let accountName :=
        if JS.includes ":" label then nth 1 (JS.split ":" label) "" else label in
      Ok {| secret := JS.default secret "";
            issuer := issuer;
            accountName := accountName;
            type := type;
            algorithm := JS.toLowerCase (JS.or_str (URL.get params "algorithm") "SHA1");
            digits := Number (get_or params "digits" (PNum 6));
            period := Number (get_or params "period" (PNum 30));
            counter := match URL.get params "counter" with
                       | Some c => if JS.truthy c then Some c else None
                       | None => None
                       end;
            otpAuthUrl := url |}.

End Parse.

End OTPAuth.

(* ===================================================================== *)
(** * The services as handlers of requests *)
(* ===================================================================== *)

(** The member [name] of a JSON object, if it has one. *)
Definition field (name : string) (j : JS.json) : option JS.json :=
  match j with
  | JS.JObj members =>
      option_map snd (List.find (fun m => String.eqb (fst m) name) members)
  | _ => None
  end.

(** A string that is empty or starts outside the hexadecimal digits: the
    hex codec of [Buffer.from] reads nothing from it. *)
Definition stops_hex (s : string) : Prop :=
  match s with
  | EmptyString => True
  | String c _ => Buffer.unhex c = None
  end.

(** A string of characters below 128.  On these the white space of [\s]
    and the letters [toUpperCase] changes are the ones of [JS.is_space] and
    [JS.upper]; above, JavaScript knows more of both (the no-break space,
    the accented letters). *)
Fixpoint ascii_only (s : string) : bool :=
  match s with
  | EmptyString => true
  | String c s' => (Nat.ltb (nat_of_ascii c) 128 && ascii_only s')%bool
  end.

(** A string that does not start with white space. *)
Definition starts_clean (s : string) : Prop :=
  match s with
  | EmptyString => True
  | String c _ => JS.is_space c = false
  end.

(** ** [src/server-backup.js], first half: the remaining routes *)

Module FixedAPI.

Import Fixed.

Local Open Scope Z_scope.
Local Open Scope string_scope.

Section Service.

Variable speakeasy : Speakeasy.
Variable env : option string.

(** The first statements of [generateOTP]: the stored secret, decrypted
    when the account is flagged, then normalised. *)
Definition plaintext (account : Account) : result string :=
  let* secret :=
    (if encrypted account then decrypt (ENCRYPTION_KEY env) (secret account)
     else Ok (secret account)) in
  Ok (normalizeBase32 secret).

(** The rest of [generateOTP], from the recovered secret on. *)
Definition issue_with (secret : string) (now : Z) (account : Account)
  : result (otp * Account) :=
  if String.eqb (type account) "hotp" then
    let* token :=
      hotp speakeasy {| h_secret := secret;
                        h_counter := JS.or_num (counter account) 0;
                        h_digits := digits account |} in
    Ok ({| code := token; otp_type := "hotp"; timeRemaining := None |},
        set_counter account (JS.or_num (counter account) 0 + 1))
  else
    let* token :=
      totp speakeasy {| o_secret := secret;
                        o_algorithm := Some (JS.or_str (Some (algorithm account)) "sha256");
                        o_digits := Some (digits account);
                        o_step := Some (period account);
                        o_window := Some 1 |} now in
    Ok ({| code := token; otp_type := "totp";
           timeRemaining := Some (time_remaining (period account) (JS.floor_div_1000 now)) |},
        account).

(** One entry of the listing. *)
Definition listed (k : string) (v : Account) : JS.json :=
  JS.JObj [("key", JS.JStr k); ("name", JS.JStr (name v)); ("type", JS.JStr (type v));
           ("digits", JS.JNum (digits v)); ("period", JS.JNum (period v))].

(** [GET /api/accounts] *)
Definition GET_api_accounts (s : state) : response * state :=
  (json 200 (JS.JObj [("total", JS.JNum (Z.of_nat (length (map_to_list (accounts s)))));
                      ("accounts",
                       JS.JArr (map (fun kv => listed (fst kv) (snd kv))
                                    (map_to_list (accounts s))))]), s).

(** [GET /health] *)
Definition GET_health (now : Z) (s : state) : response * state :=
  (json 200 (JS.JObj [("status", JS.JStr "ok"); ("time", JS.JNum now)]), s).

(** The requests the service answers, each with the clock it reads. *)
Inductive request : Type :=
  | GetCode (now : Z) (key : string)
  | GetCodes (now : Z)
  | PostAccount (now : Z) (body : new_account)
  | GetDebug (now : Z) (key : string)
  | GetAccounts
  | DeleteAccount (key : string)
  | GetHealth (now : Z).

Definition handle (r : request) (s : state) : response * state :=
  match r with
  | GetCode now key => GET_api_code speakeasy env now key s
  | GetCodes now => GET_api_codes speakeasy env now s
  | PostAccount now body => POST_api_accounts speakeasy env now body s
  | GetDebug now key => GET_api_debug speakeasy env now key s
  | GetAccounts => GET_api_accounts s
  | DeleteAccount key => DELETE_api_accounts key s
  | GetHealth now => GET_health now s
  end.

(** The store after a run of requests, served one after the other. *)
Definition serve (rs : list request) (s : state) : state :=
  fold_left (fun s r => snd (handle r s)) rs s.

(** [const accounts = {}] *)
Definition started (g : entropy) : state := {| accounts := ∅; random := g |}.

(** The stored secret of every account can be recovered, and is normalised
    already. *)
Definition recoverable (s : state) : Prop :=
  forall (k : string) (account : Account),
    accounts s !! k = Some account ->
    exists clean : string,
      (if encrypted account then decrypt (ENCRYPTION_KEY env) (secret account)
       else Ok (secret account)) = Ok clean
      /\ normalizeBase32 clean = clean.

End Service.

(** Two accounts that differ in their counter at most. *)
Definition same_settings (a b : Account) : Prop :=
  forall c : Z, set_counter a c = set_counter b c.

End FixedAPI.

(** ** [src/server.js], first half, and [src/models/Account.js] *)

Module MongoAPI.

Import Mongo.

Local Open Scope Z_scope.
Local Open Scope string_scope.

Section Service.

Variable speakeasy : Speakeasy.
Variable ENCRYPTION_KEY : string.

(** [accountSchema.methods.generateCode], statement by statement: the
    method decrypts in place instead of calling the [decrypt] it is given. *)
Definition generateCode_method (now : Z) (this : Account) : result (string * Z * Z) :=
  let* secret :=
    (if encrypted this then
       let parts := JS.split ":" (secret this) in
       let iv := Buffer.from_hex (nth 0 parts "") in
       let encryptedText := Buffer.from_hex (JS.join ":" (tl parts)) in
       let* decrypted :=
         Crypto.decipher_aes_256_cbc
           (Buffer.from_hex (JS.slice0 64 ENCRYPTION_KEY)) iv encryptedText in
       Ok (Buffer.toString_utf8 decrypted)
     else Ok (secret this)) in
  let* token :=
    totp speakeasy {| o_secret := secret;
                      o_algorithm := Some (algorithm this);
                      o_digits := Some (digits this);
                      o_step := Some (period this);
                      o_window := Some 0 |} now in
  let epoch := JS.round_div_1000 now in
  let timeRemaining := period this - JS.rem epoch (period this) in
  Ok (token, timeRemaining, now + timeRemaining * 1000).

(** One entry of the listing: the projection ['-secret'] has removed the
    secret before the entry is built.  The two stamps of the document are
    not represented. *)
Definition listed (account : Account) : JS.json :=
  JS.JObj [("key", JS.JStr (key account)); ("name", JS.JStr (name account));
           ("digits", JS.JNum (digits account)); ("period", JS.JNum (period account));
           ("algorithm", JS.JStr (algorithm account)); ("type", JS.JStr (type account));
           ("encrypted", JS.JBool (encrypted account))].

(** [GET /api/accounts] *)
Definition GET_api_accounts (s : state) : response * state :=
  let accountList := map (fun kv => listed (snd kv)) (map_to_list (db s)) in
  (json 200 (JS.JObj [("accounts", JS.JArr accountList);
                      ("total", JS.JNum (Z.of_nat (length accountList)))]), s).

Inductive request : Type :=
  | GetCode (now : Z) (accountKey : string)
  | GetCodes (now : Z)
  | PostAccount (now : Z) (body : account_fields)
  | GetAccounts
  | PutAccount (key : string) (body : account_fields)
  | DeleteAccount (key : string).

Definition handle (r : request) (s : state) : response * state :=
  match r with
  | GetCode now accountKey => GET_api_code speakeasy ENCRYPTION_KEY now accountKey s
  | GetCodes now => GET_api_codes speakeasy ENCRYPTION_KEY now s
  | PostAccount now body => POST_api_accounts speakeasy ENCRYPTION_KEY now body s
  | GetAccounts => GET_api_accounts s
  | PutAccount key body => PUT_api_accounts ENCRYPTION_KEY key body s
  | DeleteAccount key => DELETE_api_accounts key s
  end.

Definition serve (rs : list request) (s : state) : state :=
  fold_left (fun s r => snd (handle r s)) rs s.

(** Every encrypted secret of the collection decrypts under the key of the
    process. *)
Definition recoverable (db : collection) : Prop :=
  forall (k : string) (doc : Account),
    db !! k = Some doc -> encrypted doc = true ->
    exists plain : string, decrypt ENCRYPTION_KEY (secret doc) = Ok plain.

End Service.

(** Every document passes the validators and sits under its own key, which
    is trimmed. *)
Definition consistent (db : collection) : Prop :=
  forall (k : string) (doc : Account),
    db !! k = Some doc -> validate doc = true /\ key doc = k /\ JS.trim k = k.

(** A request body with no field at all. *)
Definition no_fields : account_fields :=
  {| r_key := None; r_name := None; r_secret := None; r_digits := None;
     r_period := None; r_algorithm := None; r_type := None; r_counter := None;
     r_encrypt := None |}.

End MongoAPI.

(** ** [POST /api/extract-secret], second half of [src/server-backup.js] *)

Module Extract.

Local Open Scope Z_scope.
Local Open Scope string_scope.

Section Route.

Context {number : Type} (Number : OTPAuth.primitive -> number).

(** [loadImage], the canvas and [jsQR] together: from the data URL to the
    text of the QR code, [None] when the image shows none.  They are not
    part of the repository. *)
Variable scan : string -> result (option string).

(** What the route answers: the parsed fields with [success: true], or a
    status with [success: false] and a message. *)
Inductive answer : Type :=
  | Extracted (fields : @OTPAuth.parsed number)
  | Refused (status : Z) (error : string).

Definition POST_api_extract_secret (image : option string) : answer :=
  if (JS.falsy_str image || negb (JS.startsWith "data:image" (JS.default image "")))%bool then
    Refused 400 "Invalid or missing base64 image"
  else
    match (let* qr := scan (JS.default image "") in
           match qr with
           | None => Ok (Refused 422 "No QR code found")
           | Some data =>
               let* fields := OTPAuth.parseOTPAuth Number data in
               Ok (Extracted fields)
           end) with
    | Ok a => a
    | Throw e => Refused 500 (exn_message e)
    end.

End Route.

End Extract.

(** ** [src/server.js], second half: the service that keeps its accounts
       in memory *)

Module Legacy.

Local Open Scope Z_scope.
Local Open Scope string_scope.

(** An entry of the [accounts] object. *)
Record Account : Type := {
  name : string;
  secret : string;
  encrypted : bool;
  digits : Z;
  period : Z;
  addedAt : Z
}.

(** [accounts[key]]: an own property, a member of [Object.prototype], or
    nothing. *)
Inductive property : Type :=
  | Own (account : Account)
  | Inherited
  | Undefined.

Definition get (accounts : gmap string Account) (key : string) : property :=
  match accounts !! key with
  | Some account => Own account
  | None => if existsb (String.eqb key) Fixed.Object_prototype then Inherited else Undefined
  end.

(** [account.name || accountKey] on a member of [Object.prototype]: its
    functions carry their own name, [constructor] is [Object], and
    [__proto__] has none. *)
Definition inherited_name (key : string) : string :=
  if String.eqb key "constructor" then "Object" else key.

Record state : Type := {
  accounts : gmap string Account;
  random : entropy
}.

(** The body of [POST /api/accounts]. *)
Record new_account : Type := {
  r_key : option string;
  r_name : option string;
  r_secret : option string;
  r_digits : option Z;
  r_period : option Z;
  r_encrypt : option bool
}.

Section Service.

Variable speakeasy : Speakeasy.

(** [speakeasy.totp] on options whose [secret] is [undefined]. *)
Variable totp_without_secret : result string.

(** The key of the process; [encrypt] and [decrypt] read as in the first
    half of the file. *)
Variable ENCRYPTION_KEY : string.

Definition encrypt : string -> entropy -> result string * entropy :=
  Mongo.encrypt ENCRYPTION_KEY.

Definition decrypt : string -> result string := Mongo.decrypt ENCRYPTION_KEY.

(** The token of one account, as both code routes compute it. *)
Definition token_of (now : Z) (account : Account) : result string :=
  let* secret :=
    (if encrypted account then decrypt (secret account) else Ok (secret account)) in
  totp speakeasy {| o_secret := secret;
                    o_algorithm := Some "sha1";
                    o_digits := Some (JS.or_num (Some (digits account)) 6);
                    o_step := Some (JS.or_num (Some (period account)) 30);
                    o_window := Some 0 |} now.

Definition code_body (name token : string) (period now : Z) : JS.json :=
  let epoch := JS.round_div_1000 now in
  let timeRemaining := period - JS.rem epoch period in
  JS.JObj [("account", JS.JStr name); ("code", JS.JStr token);
           ("timeRemaining", JS.JNum timeRemaining);
           ("expiresAt", JS.JNum (now + timeRemaining * 1000))].

Definition failed : response :=
  json 500 (JS.JObj [("error", JS.JStr "Failed to generate code")]).

(** [GET /api/code/:accountKey] *)
Definition GET_api_code (now : Z) (accountKey : string) (s : state) : response * state :=
  match get (accounts s) accountKey with
  | Undefined =>
      (json 404 (JS.JObj [("error", JS.JStr "Account not found");
                          ("availableAccounts",
                           JS.JArr (map (fun kv => JS.JStr (fst kv))
                                        (map_to_list (accounts s))))]), s)
  | Inherited =>
      match totp_without_secret with
      | Ok token => (json 200 (code_body (inherited_name accountKey) token 30 now), s)
      | Throw _ => (failed, s)
      end
  | Own account =>
      match token_of now account with
      | Ok token =>
          (json 200 (code_body (JS.or_str (Some (name account)) accountKey) token
                               (JS.or_num (Some (period account)) 30) now), s)
      | Throw _ => (failed, s)
      end
  end.

(** One element of the [codes] array. *)
Definition code_entry (now : Z) (key : string) (account : Account) : JS.json :=
  match token_of now account with
  | Ok token =>
      let period := JS.or_num (Some (period account)) 30 in
      JS.JObj [("key", JS.JStr key);
               ("name", JS.JStr (JS.or_str (Some (name account)) key));
               ("code", JS.JStr token);
               ("timeRemaining",
                JS.JNum (period - JS.rem (JS.round_div_1000 now) period))]
  | Throw _ =>
      JS.JObj [("key", JS.JStr key);
               ("name", JS.JStr (JS.or_str (Some (name account)) key));
               ("error", JS.JStr "Failed to generate code")]
  end.

(** [GET /api/codes] *)
Definition GET_api_codes (now : Z) (s : state) : response * state :=
  (json 200 (JS.JObj [("codes",
      JS.JArr (map (fun kv => code_entry now (fst kv) (snd kv))
                   (map_to_list (accounts s))))]), s).

(** [POST /api/accounts] *)
Definition POST_api_accounts (now : Z) (req : new_account) (s : state)
  : response * state :=
  if (JS.falsy_str (r_key req) || JS.falsy_str (r_secret req))%bool then
    (json 400 (JS.JObj [("error", JS.JStr "key and secret are required")]), s)
  else
    let key := JS.default (r_key req) "" in
    let secret := JS.default (r_secret req) "" in
    match get (accounts s) key with
    | Own _ | Inherited =>
        (json 409 (JS.JObj [("error", JS.JStr "Account already exists")]), s)
    | Undefined =>
        match totp speakeasy {| o_secret := secret; o_algorithm := Some "sha1";
                                o_digits := None; o_step := None;
                                o_window := None |} now with
        | Throw _ => (json 400 (JS.JObj [("error", JS.JStr "Invalid secret key")]), s)
        | Ok _ =>
            let shouldEncrypt := JS.or_bool (r_encrypt req) false in
            let '(stored, g) :=
              if shouldEncrypt then encrypt secret (random s)
              else (Ok secret, random s) in
            match stored with
            | Throw _ =>
                (json 500 (JS.JObj [("error", JS.JStr "Server error")]),
                 {| accounts := accounts s; random := g |})
            | Ok stored =>
                let name := JS.or_str (r_name req) key in
                (json 201 (JS.JObj [("message", JS.JStr "Account added successfully");
                                    ("key", JS.JStr key);
                                    ("name", JS.JStr name)]),
                 {| accounts :=
                      <[key := {| name := name;
                                  secret := stored;
                                  encrypted := shouldEncrypt;
                                  digits := JS.or_num (r_digits req) 6;
                                  period := JS.or_num (r_period req) 30;
                                  addedAt := now |}]> (accounts s);
                    random := g |})
            end
        end
    end.

(** One entry of the listing.  [addedAt] is the text of an instant, which is
    never empty: its default ['N/A'] does not arise. *)
Definition listed (key : string) (account : Account) : JS.json :=
  JS.JObj [("key", JS.JStr key);
           ("name", JS.JStr (JS.or_str (Some (name account)) key));
           ("digits", JS.JNum (JS.or_num (Some (digits account)) 6));
           ("period", JS.JNum (JS.or_num (Some (period account)) 30));
           ("encrypted", JS.JBool (encrypted account));
           ("addedAt", JS.JNum (addedAt account))].

(** [GET /api/accounts] *)
Definition GET_api_accounts (s : state) : response * state :=
  let accountList := map (fun kv => listed (fst kv) (snd kv)) (map_to_list (accounts s)) in
  (json 200 (JS.JObj [("accounts", JS.JArr accountList);
                      ("total", JS.JNum (Z.of_nat (length accountList)))]), s).

(** [DELETE /api/accounts/:key].  [delete] removes own properties only. *)
Definition DELETE_api_accounts (key : string) (s : state) : response * state :=
  match get (accounts s) key with
  | Undefined => (json 404 (JS.JObj [("error", JS.JStr "Account not found")]), s)
  | Own _ | Inherited =>
      (json 200 (JS.JObj [("message", JS.JStr "Account deleted successfully");
                          ("key", JS.JStr key)]),
       {| accounts := delete key (accounts s); random := random s |})
  end.

(** [GET /health] *)
Definition GET_health (now : Z) (s : state) : response * state :=
  (json 200 (JS.JObj [("status", JS.JStr "ok");
                      ("accounts", JS.JNum (Z.of_nat (length (map_to_list (accounts s)))));
                      ("timestamp", JS.JNum now)]), s).

Inductive request : Type :=
  | GetCode (now : Z) (accountKey : string)
  | GetCodes (now : Z)
  | PostAccount (now : Z) (body : new_account)
  | GetAccounts
  | DeleteAccount (key : string)
  | GetHealth (now : Z).

Definition handle (r : request) (s : state) : response * state :=
  match r with
  | GetCode now accountKey => GET_api_code now accountKey s
  | GetCodes now => GET_api_codes now s
  | PostAccount now body => POST_api_accounts now body s
  | GetAccounts => GET_api_accounts s
  | DeleteAccount key => DELETE_api_accounts key s
  | GetHealth now => GET_health now s
  end.

Definition serve (rs : list request) (s : state) : state :=
  fold_left (fun s r => snd (handle r s)) rs s.

(** An account none of the [||] defaults of the routes applies to, with a
    secret the code routes can read. *)
Definition well_formed (account : Account) : Prop :=
  digits account <> 0 /\ period account <> 0 /\ name account <> ""
  /\ exists plain : string,
       (if encrypted account then decrypt (secret account) else Ok (secret account))
       = Ok plain.

End Service.

(** [const accounts = {}] *)
Definition started (g : entropy) : state := {| accounts := ∅; random := g |}.

End Legacy.

(* ===================================================================== *)
(** * Stand-ins for running the model on examples *)
(* ===================================================================== *)

Module Sample.

Local Open Scope string_scope.

(** The RFC 4648 base32 alphabet, either case. *)
Definition is_base32_char (c : ascii) : bool :=
  let n := nat_of_ascii (JS.upper c) in
  ((Nat.leb 65 n && Nat.leb n 90) || (Nat.leb 50 n && Nat.leb n 55))%bool.

Fixpoint is_base32 (s : string) : bool :=
  match s with
  | EmptyString => true
  | String c s' => (is_base32_char c && is_base32 s')%bool
  end.

(** A stand-in for the library.  It decodes a secret as the library does,
    leniently: a character outside the base32 alphabet does not make it
    throw, and a token comes back for every secret. *)
Definition speakeasy : Speakeasy :=
  {| totp := fun _ _ => Ok "000000";
     hotp := fun _ => Ok "000000" |}.

(** Two entropy sources. *)
Definition zeros : entropy := fun _ => x00.
Definition counting : entropy := fun i => byte_of_nat i.

Definition hotp_account : Fixed.Account :=
  {| Fixed.name := "vpn"; Fixed.secret := "JBSWY3DPEHPK3PXP";
     Fixed.encrypted := false; Fixed.digits := 6; Fixed.period := 30;
     Fixed.type := "hotp"; Fixed.algorithm := "sha1"; Fixed.addedAt := 0;
     Fixed.counter := None |}.

Definition totp_account : Fixed.Account :=
  {| Fixed.name := "mail"; Fixed.secret := "JBSWY3DPEHPK3PXP";
     Fixed.encrypted := false; Fixed.digits := 6; Fixed.period := 30;
     Fixed.type := "totp"; Fixed.algorithm := "sha1"; Fixed.addedAt := 0;
     Fixed.counter := None |}.

Definition mongo_hotp_account : Mongo.Account :=
  {| Mongo.key := "vpn"; Mongo.name := "vpn"; Mongo.secret := "JBSWY3DPEHPK3PXP";
     Mongo.encrypted := false; Mongo.digits := 6; Mongo.period := 30;
     Mongo.algorithm := "sha1"; Mongo.type := "hotp"; Mongo.counter := 0 |}.

(** A state of the in-memory service with one account of each type. *)
Definition memory : Fixed.state :=
  {| Fixed.accounts := {[ "vpn" := hotp_account; "mail" := totp_account ]};
     Fixed.random := counting |}.

(** What the stand-in issues for [hotp_account]. *)
Definition issued : Fixed.otp :=
  {| Fixed.code := "000000"; Fixed.otp_type := "hotp"; Fixed.timeRemaining := None |}.

(** Creation requests: one for a key of [memory], one with a secret outside
    the alphabet, one with nine digits. *)
Definition again : Fixed.new_account :=
  {| Fixed.r_key := Some "mail"; Fixed.r_name := None;
     Fixed.r_secret := Some "GEZDGNBVGY3TQOJQ"; Fixed.r_digits := None;
     Fixed.r_period := None; Fixed.r_type := None; Fixed.r_algorithm := None;
     Fixed.r_encrypt := None |}.

Definition malformed : Fixed.new_account :=
  {| Fixed.r_key := Some "bank"; Fixed.r_name := None;
     Fixed.r_secret := Some "not base32!"; Fixed.r_digits := None;
     Fixed.r_period := None; Fixed.r_type := None; Fixed.r_algorithm := None;
     Fixed.r_encrypt := None |}.

Definition nine_digits : Mongo.account_fields :=
  {| Mongo.r_key := Some "mail"; Mongo.r_name := None;
     Mongo.r_secret := Some "JBSWY3DPEHPK3PXP"; Mongo.r_digits := Some 9%Z;
     Mongo.r_period := None; Mongo.r_algorithm := None; Mongo.r_type := None;
     Mongo.r_counter := None; Mongo.r_encrypt := None |}.

Definition empty_collection : Mongo.state :=
  {| Mongo.db := ∅; Mongo.random := zeros |}.

(** What the stand-in issues for [totp_account] at second 59. *)
Definition totp_issued : Fixed.otp :=
  {| Fixed.code := "000000"; Fixed.otp_type := "totp";
     Fixed.timeRemaining := Some 1%Z |}.

(** A collection with one valid document, and requests on it. *)
Definition mongo_totp_account : Mongo.Account :=
  {| Mongo.key := "mail"; Mongo.name := "mail"; Mongo.secret := "JBSWY3DPEHPK3PXP";
     Mongo.encrypted := false; Mongo.digits := 6; Mongo.period := 30;
     Mongo.algorithm := "sha1"; Mongo.type := "totp"; Mongo.counter := 0 |}.

Definition collection : Mongo.state :=
  {| Mongo.db := {[ "mail" := mongo_totp_account ]}; Mongo.random := counting |}.

Definition mongo_again : Mongo.account_fields :=
  {| Mongo.r_key := Some "mail"; Mongo.r_name := None;
     Mongo.r_secret := Some "GEZDGNBVGY3TQOJQ"; Mongo.r_digits := None;
     Mongo.r_period := None; Mongo.r_algorithm := None; Mongo.r_type := None;
     Mongo.r_counter := None; Mongo.r_encrypt := None |}.

Definition mongo_malformed : Mongo.account_fields :=
  {| Mongo.r_key := Some "bank"; Mongo.r_name := None;
     Mongo.r_secret := Some "not base32!"; Mongo.r_digits := None;
     Mongo.r_period := None; Mongo.r_algorithm := None; Mongo.r_type := None;
     Mongo.r_counter := None; Mongo.r_encrypt := None |}.

Definition md5_update : Mongo.account_fields :=
  {| Mongo.r_key := None; Mongo.r_name := Some "Mail";
     Mongo.r_secret := None; Mongo.r_digits := None;
     Mongo.r_period := None; Mongo.r_algorithm := Some "MD5"; Mongo.r_type := None;
     Mongo.r_counter := None; Mongo.r_encrypt := None |}.

(** The provisioning URI of the specification, and what it parses to when
    [Number] is left as it is. *)
Definition uri : string :=
  "otpauth://totp/Issuer:alice@example.com?secret=JBSWY3DPEHPK3PXP&issuer=Issuer&digits=6&period=30".

Definition uri_parsed : OTPAuth.parsed :=
  {| OTPAuth.secret := "JBSWY3DPEHPK3PXP"; OTPAuth.issuer := "Issuer";
     OTPAuth.accountName := "alice@example.com"; OTPAuth.type := "totp";
     OTPAuth.algorithm := "sha1"; OTPAuth.digits := OTPAuth.PStr "6";
     OTPAuth.period := OTPAuth.PStr "30"; OTPAuth.counter := None;
     OTPAuth.otpAuthUrl := uri |}.

(** An envelope and the key it was made with, written as the 64 hexadecimal
    digits [src/server.js] expects in its environment. *)
Definition envelope : string :=
  "000102030405060708090a0b0c0d0e0f:d078539390b133c5a0c86160b46846fd7156e08945666abcfd1954bded6a3b48".

Definition hex_key : string :=
  "298754db2dbab6ec62605ceb0379eb7ee376580359449efe0caa3aa06cd56736".

End Sample.

(* ===================================================================== *)
(** * Requests and runs for the examples *)
(* ===================================================================== *)

Module Cases.

Local Open Scope Z_scope.
Local Open Scope string_scope.

(** A creation request for a counter-based account, its secret typed in
    lower case and in groups of four. *)
Definition enrol : Fixed.new_account :=
  {| Fixed.r_key := Some "vpn"; Fixed.r_name := None;
     Fixed.r_secret := Some "jbsw y3dp ehpk 3pxp"; Fixed.r_digits := None;
     Fixed.r_period := None; Fixed.r_type := Some "hotp"; Fixed.r_algorithm := None;
     Fixed.r_encrypt := None |}.

(** What the in-memory service stores for it when it draws its nonce from
    [Sample.counting]. *)
Definition enrolled : Fixed.Account :=
  {| Fixed.name := "vpn"; Fixed.secret := Sample.envelope;
     Fixed.encrypted := true; Fixed.digits := 6; Fixed.period := 30;
     Fixed.type := "hotp"; Fixed.algorithm := "sha256"; Fixed.addedAt := 0;
     Fixed.counter := None |}.

(** The same request with parameters no authenticator has. *)
Definition careless : Fixed.new_account :=
  {| Fixed.r_key := Some "vpn"; Fixed.r_name := Some "VPN";
     Fixed.r_secret := Some "jbsw y3dp ehpk 3pxp"; Fixed.r_digits := Some 0;
     Fixed.r_period := Some (-5); Fixed.r_type := Some "sms";
     Fixed.r_algorithm := None; Fixed.r_encrypt := None |}.

(** A creation request for a name of [Object.prototype]. *)
Definition squatter : Fixed.new_account :=
  {| Fixed.r_key := Some "constructor"; Fixed.r_name := None;
     Fixed.r_secret := Some "JBSWY3DPEHPK3PXP"; Fixed.r_digits := None;
     Fixed.r_period := None; Fixed.r_type := None; Fixed.r_algorithm := None;
     Fixed.r_encrypt := None |}.

(** Requests on [Sample.memory] that leave the account ["vpn"] in place. *)
Definition traffic : list FixedAPI.request :=
  [FixedAPI.GetCode 0 "vpn"; FixedAPI.GetCodes 1000; FixedAPI.DeleteAccount "mail";
   FixedAPI.GetDebug 2000 "vpn"; FixedAPI.GetAccounts].

(** The account ["vpn"] of [Sample.memory] after [traffic]: three codes
    were issued for it. *)
Definition after_traffic : Fixed.Account := Fixed.set_counter Sample.hotp_account 3.

(** A creation request of the earlier service, with a zero for the digits,
    and what the service stores for it. *)
Definition earlier_enrol : Legacy.new_account :=
  {| Legacy.r_key := Some "mail"; Legacy.r_name := None;
     Legacy.r_secret := Some "JBSWY3DPEHPK3PXP"; Legacy.r_digits := Some 0;
     Legacy.r_period := None; Legacy.r_encrypt := Some true |}.

Definition earlier_enrolled : Legacy.Account :=
  {| Legacy.name := "mail"; Legacy.secret := Sample.envelope;
     Legacy.encrypted := true; Legacy.digits := 6; Legacy.period := 30;
     Legacy.addedAt := 0 |}.

(** An update that sends zeros and an empty algorithm with a new name. *)
Definition zero_update : Mongo.account_fields :=
  {| Mongo.r_key := None; Mongo.r_name := Some "Mail"; Mongo.r_secret := None;
     Mongo.r_digits := Some 0; Mongo.r_period := Some 0;
     Mongo.r_algorithm := Some ""; Mongo.r_type := None; Mongo.r_counter := None;
     Mongo.r_encrypt := None |}.

(** The document [Sample.mongo_again] creates in an empty collection. *)
Definition created : Mongo.Account :=
  {| Mongo.key := "mail"; Mongo.name := "mail"; Mongo.secret := "GEZDGNBVGY3TQOJQ";
     Mongo.encrypted := false; Mongo.digits := 6; Mongo.period := 30;
     Mongo.algorithm := "sha1"; Mongo.type := "totp"; Mongo.counter := 0 |}.

End Cases.

(* ===================================================================== *)
(** * Properties of the platform model *)
(* ===================================================================== *)

(** ** Exhaustive checks over octets *)

Lemma all_bytes_complete (b : byte) : In b all_bytes.
Proof.
  change all_bytes with
    (flat_map (fun n => match Byte.of_nat n with Some b => [b] | None => [] end)
              (seq 0 256)).
  apply in_flat_map. exists (Byte.to_nat b). split.
  - apply in_seq. pose proof (Byte.to_nat_bounded b). lia.
  - rewrite Byte.of_to_nat. now left.
Qed.

Lemma forall_bytes (P : byte -> bool) :
  forallb P all_bytes = true -> forall b, P b = true.
Proof.
  intros H b. rewrite forallb_forall in H. apply H, all_bytes_complete.
Qed.

Lemma forall_bytes2 (P : byte -> byte -> bool) :
  forallb (fun a => forallb (P a) all_bytes) all_bytes = true ->
  forall a b, P a b = true.
Proof.
  intros H a b.
  apply (forall_bytes (P a)). revert a. apply forall_bytes. exact H.
Qed.

Lemma byte_eq_by_cases (f g : byte -> byte) :
  forallb (fun b => Byte.eqb (f b) (g b)) all_bytes = true ->
  forall b, f b = g b.
Proof.
  intros H b. apply Byte.byte_dec_bl.
  exact (forall_bytes (fun b => Byte.eqb (f b) (g b)) H b).
Qed.

Lemma byte_eq_by_cases2 (f g : byte -> byte -> byte) :
  forallb (fun a => forallb (fun b => Byte.eqb (f a b) (g a b)) all_bytes)
          all_bytes = true ->
  forall a b, f a b = g a b.
Proof.
  intros H a b. apply Byte.byte_dec_bl.
  exact (forall_bytes2 (fun a b => Byte.eqb (f a b) (g a b)) H a b).
Qed.

(** Discharges an equation between octet expressions in one or two free
    octets by running it on every value. *)
Ltac by_bytes1 b :=
  revert b;
  match goal with
  | |- forall b, @?l b = @?r b => apply (byte_eq_by_cases l r)
  end;
  vm_compute; reflexivity.

Ltac by_bytes2 a b :=
  revert a b;
  match goal with
  | |- forall a b, @?l a b = @?r a b => apply (byte_eq_by_cases2 l r)
  end;
  vm_compute; reflexivity.

(** ** Exclusive or on octets *)

Lemma bxor_comm (a b : byte) : bxor a b = bxor b a.
Proof. by_bytes2 a b. Qed.

Lemma bxor_nilpotent (a : byte) : bxor a a = x00.
Proof. by_bytes1 a. Qed.

Lemma bxor_0_r (a : byte) : bxor a x00 = a.
Proof. by_bytes1 a. Qed.

Lemma bxor_0_l (a : byte) : bxor x00 a = a.
Proof. by_bytes1 a. Qed.

Lemma xor8_assoc (a b c : bits8) : xor8 a (xor8 b c) = xor8 (xor8 a b) c.
Proof.
  destruct a as (a0 & a1 & a2 & a3 & a4 & a5 & a6 & a7).
  destruct b as (b0 & b1 & b2 & b3 & b4 & b5 & b6 & b7).
  destruct c as (c0 & c1 & c2 & c3 & c4 & c5 & c6 & c7).
  unfold xor8. now rewrite <- !xorb_assoc.
Qed.

Lemma bxor_assoc (a b c : byte) : bxor a (bxor b c) = bxor (bxor a b) c.
Proof.
  unfold bxor. rewrite !Byte.to_bits_of_bits. now rewrite xor8_assoc.
Qed.

Lemma bxor_involutive (a k : byte) : bxor (bxor a k) k = a.
Proof. by_bytes2 a k. Qed.

#[local] Instance byte_eq_lift : AAC_lift (@eq byte) (@eq byte).
Proof. split; [apply eq_equivalence | intros a a' -> b b' ->; reflexivity]. Qed.

#[local] Instance bxor_Associative : Associative eq bxor.
Proof. intros a b c. apply bxor_assoc. Qed.

#[local] Instance bxor_Commutative : Commutative eq bxor.
Proof. intros a b. apply bxor_comm. Qed.

#[local] Instance bxor_Unit : Unit eq bxor x00.
Proof. split; intros a; [apply bxor_0_l | apply bxor_0_r]. Qed.

#[local] Instance bxor_Proper :
  Morphisms.Proper (Morphisms.respectful eq (Morphisms.respectful eq eq)) bxor.
Proof. intros a a' -> b b' ->. reflexivity. Qed.

(** ** The steps of the cipher are inverted by the steps of its inverse *)

Section AES_inverse.

Import AES.

Lemma InvSubByte_SubByte (b : byte) : InvSubByte (SubByte b) = b.
Proof. by_bytes1 b. Qed.

Lemma InvSubBytes_SubBytes (s : block) : InvSubBytes (SubBytes s) = s.
Proof.
  destruct s as [[[[[[a0 a1] a2] a3] [[[b0 b1] b2] b3]] [[[c0 c1] c2] c3]] [[[d0 d1] d2] d3]].
  unfold InvSubBytes, SubBytes, map_block, map_word.
  now rewrite !InvSubByte_SubByte.
Qed.

Lemma InvShiftRows_ShiftRows (s : block) : InvShiftRows (ShiftRows s) = s.
Proof.
  now destruct s as [[[[[[a0 a1] a2] a3] [[[b0 b1] b2] b3]] [[[c0 c1] c2] c3]] [[[d0 d1] d2] d3]].
Qed.

Lemma xor_word_involutive (w k : word) : xor_word (xor_word w k) k = w.
Proof.
  destruct w as [[[a b] c] d], k as [[[a' b'] c'] d'].
  unfold xor_word. now rewrite !bxor_involutive.
Qed.

Lemma AddRoundKey_involutive (k s : block) : AddRoundKey k (AddRoundKey k s) = s.
Proof.
  destruct k as [[[k0 k1] k2] k3], s as [[[c0 c1] c2] c3].
  unfold AddRoundKey. now rewrite !xor_word_involutive.
Qed.

(** The multiplications by a constant are additive. *)
Lemma mul9_xor (a b : byte) : mul9 (bxor a b) = bxor (mul9 a) (mul9 b).
Proof. by_bytes2 a b. Qed.
Lemma mul11_xor (a b : byte) : mul11 (bxor a b) = bxor (mul11 a) (mul11 b).
Proof. by_bytes2 a b. Qed.
Lemma mul13_xor (a b : byte) : mul13 (bxor a b) = bxor (mul13 a) (mul13 b).
Proof. by_bytes2 a b. Qed.
Lemma mul14_xor (a b : byte) : mul14 (bxor a b) = bxor (mul14 a) (mul14 b).
Proof. by_bytes2 a b. Qed.

(** The product of the two circulant matrices, entry by entry: the
    diagonal is [1] and the rest is [0]. *)
Lemma mix_diag (a : byte) :
  bxor (bxor (bxor (mul14 (mul2 a)) (mul11 a)) (mul13 a)) (mul9 (mul3 a)) = a.
Proof. by_bytes1 a. Qed.

Lemma mix_off1 (a : byte) :
  bxor (bxor (bxor (mul14 (mul3 a)) (mul11 (mul2 a))) (mul13 a)) (mul9 a) = x00.
Proof. by_bytes1 a. Qed.

Lemma mix_off2 (a : byte) :
  bxor (bxor (bxor (mul14 a) (mul11 (mul3 a))) (mul13 (mul2 a))) (mul9 a) = x00.
Proof. by_bytes1 a. Qed.

Lemma mix_off3 (a : byte) :
  bxor (bxor (bxor (mul14 a) (mul11 a)) (mul13 (mul3 a))) (mul9 (mul2 a)) = x00.
Proof. by_bytes1 a. Qed.

(** One output octet of [InvMixColumn (MixColumn _)]: sixteen products,
    regrouped by the input octet they come from. *)
Lemma mix_row (p q r s : byte) :
  bxor (bxor (bxor
    (mul14 (bxor (bxor (bxor (mul2 p) (mul3 q)) r) s))
    (mul11 (bxor (bxor (bxor p (mul2 q)) (mul3 r)) s)))
    (mul13 (bxor (bxor (bxor p q) (mul2 r)) (mul3 s))))
    (mul9 (bxor (bxor (bxor (mul3 p) q) r) (mul2 s)))
  = p.
Proof.
  rewrite !mul14_xor, !mul11_xor, !mul13_xor, !mul9_xor.
  transitivity
    (bxor (bxor (bxor
       (bxor (bxor (bxor (mul14 (mul2 p)) (mul11 p)) (mul13 p)) (mul9 (mul3 p)))
       (bxor (bxor (bxor (mul14 (mul3 q)) (mul11 (mul2 q))) (mul13 q)) (mul9 q)))
       (bxor (bxor (bxor (mul14 r) (mul11 (mul3 r))) (mul13 (mul2 r))) (mul9 r)))
       (bxor (bxor (bxor (mul14 s) (mul11 s)) (mul13 (mul3 s))) (mul9 (mul2 s)))).
  - aac_reflexivity.
  - rewrite mix_diag, mix_off1, mix_off2, mix_off3. now rewrite !bxor_0_r.
Qed.

Lemma InvMixColumn_MixColumn (w : word) : InvMixColumn (MixColumn w) = w.
Proof.
  destruct w as [[[a0 a1] a2] a3]. unfold InvMixColumn, MixColumn.
  f_equal; [f_equal; [f_equal |] |].
  - apply mix_row.
  - etransitivity; [| apply (mix_row a1 a2 a3 a0)]. aac_reflexivity.
  - etransitivity; [| apply (mix_row a2 a3 a0 a1)]. aac_reflexivity.
  - etransitivity; [| apply (mix_row a3 a0 a1 a2)]. aac_reflexivity.
Qed.

Lemma InvMixColumns_MixColumns (s : block) : InvMixColumns (MixColumns s) = s.
Proof.
  destruct s as [[[c0 c1] c2] c3]. unfold InvMixColumns, MixColumns, map_block.
  now rewrite !InvMixColumn_MixColumn.
Qed.

Lemma inv_rounds_app (f : bool) (l1 l2 : list block) (s : block) :
  inv_rounds f (l1 ++ l2) s
  = inv_rounds (f && match l1 with [] => true | _ => false end) l2 (inv_rounds f l1 s).
Proof.
  revert f s. induction l1 as [| k l1 IH]; intros f s; simpl.
  - now rewrite andb_true_r.
  - rewrite IH. now rewrite andb_false_r.
Qed.

Lemma inv_rounds_rounds (ks : list block) (s : block) :
  inv_rounds true (rev ks) (rounds ks s) = s.
Proof.
  revert s. induction ks as [| k ks IH]; intros s; [reflexivity |].
  destruct ks as [| k' ks'].
  - simpl. rewrite AddRoundKey_involutive, InvShiftRows_ShiftRows.
    apply InvSubBytes_SubBytes.
  - change (rounds (k :: k' :: ks') s)
      with (rounds (k' :: ks') (AddRoundKey k (MixColumns (ShiftRows (SubBytes s))))).
    change (rev (k :: k' :: ks')) with (rev (k' :: ks') ++ [k]).
    rewrite inv_rounds_app, IH.
    destruct (rev (k' :: ks')) eqn:E.
    + apply (f_equal (@length _)) in E. rewrite length_rev in E. discriminate.
    + simpl. rewrite AddRoundKey_involutive, InvMixColumns_MixColumns,
        InvShiftRows_ShiftRows. apply InvSubBytes_SubBytes.
Qed.

(** The inverse cipher undoes the cipher, whatever the key schedule. *)
Lemma InvCipher_Cipher (ks : list block) (s : block) :
  InvCipher ks (Cipher ks s) = s.
Proof.
  destruct ks as [| k0 ks]; [reflexivity |].
  unfold InvCipher, Cipher. rewrite inv_rounds_rounds.
  apply AddRoundKey_involutive.
Qed.

End AES_inverse.

(** ** Chaining, padding and the buffer codecs *)

Section CBC.

Import AES Crypto.

Lemma cbc_decrypt_encrypt (ks : list block) (prev : block) (bs : list block) :
  cbc_decrypt ks prev (cbc_encrypt ks prev bs) = bs.
Proof.
  revert prev. induction bs as [| b bs IH]; intros prev; simpl; [reflexivity |].
  now rewrite InvCipher_Cipher, AddRoundKey_involutive, IH.
Qed.

Lemma cbc_encrypt_length (ks : list block) (prev : block) (bs : list block) :
  length (cbc_encrypt ks prev bs) = length bs.
Proof.
  revert prev. induction bs as [| b bs IH]; intros prev; simpl; [reflexivity |].
  now rewrite IH.
Qed.

Lemma bytes_of_blocks_length (bs : list block) :
  length (bytes_of_blocks bs) = (16 * length bs)%nat.
Proof.
  induction bs as [| b bs IH]; [reflexivity |].
  destruct b as [[[[[[a0 a1] a2] a3] [[[b0 b1] b2] b3]] [[[c0 c1] c2] c3]] [[[d0 d1] d2] d3]].
  unfold bytes_of_blocks in *. simpl. rewrite IH. lia.
Qed.

Lemma blocks_of_bytes_of_blocks (bs : list block) :
  blocks_of_bytes (bytes_of_blocks bs) = bs.
Proof.
  induction bs as [| b bs IH]; [reflexivity |].
  destruct b as [[[[[[a0 a1] a2] a3] [[[b0 b1] b2] b3]] [[[c0 c1] c2] c3]] [[[d0 d1] d2] d3]].
  unfold blocks_of_bytes, bytes_of_blocks in *. simpl. now rewrite IH.
Qed.

Lemma bytes_of_blocks_of_bytes (n : nat) (l : list byte) :
  length l = (16 * n)%nat -> bytes_of_blocks (blocks_of_bytes l) = l.
Proof.
  revert l. induction n as [| n IH]; intros l Hl.
  - now destruct l.
  - do 16 (destruct l as [| ? l]; [simpl in Hl; lia |]).
    unfold blocks_of_bytes, bytes_of_blocks in *. simpl.
    rewrite IH; [reflexivity |]. simpl in Hl. lia.
Qed.

Lemma blocks_of_bytes_length (n : nat) (l : list byte) :
  length l = (16 * n)%nat -> length (blocks_of_bytes l) = n.
Proof.
  intros Hl. pose proof (bytes_of_blocks_length (blocks_of_bytes l)) as H.
  rewrite (bytes_of_blocks_of_bytes n l Hl) in H. lia.
Qed.

Lemma pad_length_bounds (n : nat) : (1 <= pad_length n <= 16)%nat.
Proof.
  unfold pad_length. pose proof (Nat.mod_upper_bound n 16). lia.
Qed.

Lemma pkcs7_pad_length (l : list byte) :
  length (pkcs7_pad l) = (16 * (length l / 16 + 1))%nat.
Proof.
  unfold pkcs7_pad, pad_length. rewrite length_app, repeat_length.
  pose proof (Nat.div_mod_eq (length l) 16).
  pose proof (Nat.mod_upper_bound (length l) 16). lia.
Qed.

Lemma to_nat_byte_of_nat (n : nat) : (n < 256)%nat -> Byte.to_nat (byte_of_nat n) = n.
Proof.
  intros Hn. unfold byte_of_nat, byte_of_N.
  rewrite N.mod_small by lia.
  destruct (Byte.of_N (N.of_nat n)) as [b |] eqn:E.
  - apply Byte.to_of_N in E. rewrite Byte.to_nat_via_N, E. lia.
  - apply Byte.of_N_None_iff in E. lia.
Qed.

Lemma forallb_eqb_repeat (b : byte) (n : nat) : forallb (Byte.eqb b) (repeat b n) = true.
Proof.
  induction n as [| n IH]; [reflexivity |]. simpl.
  now rewrite IH, Byte.byte_dec_lb.
Qed.

Lemma last_repeat (l : list byte) (b : byte) (n : nat) :
  (1 <= n)%nat -> List.last (l ++ repeat b n) x00 = b.
Proof.
  intros Hn. destruct n as [| n]; [lia |].
  simpl repeat. rewrite repeat_cons, List.app_assoc. apply List.last_last.
Qed.

Lemma pkcs7_unpad_pad (l : list byte) : pkcs7_unpad (pkcs7_pad l) = Ok l.
Proof.
  unfold pkcs7_unpad, pkcs7_pad.
  pose proof (pad_length_bounds (length l)) as Hb.
  set (n := pad_length (length l)) in *.
  rewrite last_repeat by lia.
  rewrite to_nat_byte_of_nat by lia.
  rewrite length_app, repeat_length.
  replace (length l + n - n)%nat with (length l) by lia.
  destruct (Nat.eqb_spec n 0) as [-> | _]; [lia |].
  destruct (Nat.ltb_spec 16 n) as [? | _]; [lia |]. simpl.
  rewrite List.skipn_app, List.skipn_all, Nat.sub_diag, List.skipn_O.
  simpl. rewrite forallb_eqb_repeat.
  rewrite List.firstn_app, List.firstn_all, Nat.sub_diag, List.firstn_O.
  now rewrite List.app_nil_r.
Qed.

Lemma decipher_cipher (key iv data ct : list byte) :
  cipher_aes_256_cbc key iv data = Ok ct ->
  decipher_aes_256_cbc key iv ct = Ok data.
Proof.
  unfold cipher_aes_256_cbc, decipher_aes_256_cbc.
  destruct (check_key_iv key iv) as [[] | e]; unfold bind; [| discriminate].
  intros [= <-].
  pose proof (pkcs7_pad_length data) as Hp.
  set (n := (length data / 16 + 1)%nat) in *.
  rewrite bytes_of_blocks_length, cbc_encrypt_length,
    (blocks_of_bytes_length n _ Hp).
  replace (16 * n)%nat with (n * 16)%nat by lia.
  rewrite Nat.Div0.mod_mul.
  destruct (Nat.eqb_spec (n * 16) 0) as [? | _]; [lia |].
  cbn [orb negb Nat.eqb].
  rewrite blocks_of_bytes_of_blocks, cbc_decrypt_encrypt,
    (bytes_of_blocks_of_bytes n _ Hp).
  apply pkcs7_unpad_pad.
Qed.

Lemma cipher_succeeds (key iv data : list byte) :
  length key = 32%nat -> length iv = 16%nat ->
  exists ct, cipher_aes_256_cbc key iv data = Ok ct.
Proof.
  intros Hk Hi. unfold cipher_aes_256_cbc, check_key_iv.
  rewrite Hk, Hi. simpl. eauto.
Qed.

End CBC.

Section Hex.

Import Buffer.

Local Open Scope string_scope.

Lemma from_hex_cons (b : byte) (s : string) :
  from_hex (String (hex_digit (Byte.to_N b / 16))
                   (String (hex_digit (Byte.to_N b mod 16)) s))
  = b :: from_hex s.
Proof. destruct b; reflexivity. Qed.

Lemma from_hex_toString_hex (l : list byte) : from_hex (toString_hex l) = l.
Proof.
  induction l as [| b l IH]; [reflexivity |].
  cbn [toString_hex]. now rewrite from_hex_cons, IH.
Qed.

Lemma toString_hex_inj (l l' : list byte) : toString_hex l = toString_hex l' -> l = l'.
Proof.
  intros H. apply (f_equal from_hex) in H. now rewrite !from_hex_toString_hex in H.
Qed.

(** Hexadecimal digits are not colons. *)
Lemma split_hex_cons (b : byte) (s : string) :
  JS.split ":" (String (hex_digit (Byte.to_N b / 16))
                       (String (hex_digit (Byte.to_N b mod 16)) s))
  = match JS.split ":" s with
    | [] => [String (hex_digit (Byte.to_N b / 16))
                    (String (hex_digit (Byte.to_N b mod 16)) "")]
    | p :: ps => String (hex_digit (Byte.to_N b / 16))
                        (String (hex_digit (Byte.to_N b mod 16)) p) :: ps
    end.
Proof. destruct b; cbn; destruct (JS.split ":" s); reflexivity. Qed.

Lemma split_nonempty (c : ascii) (s : string) : JS.split c s <> [].
Proof.
  destruct s as [| a s]; simpl; [discriminate |].
  destruct (Ascii.eqb a c); [discriminate |].
  destruct (JS.split c s); discriminate.
Qed.

Lemma append_String (a : ascii) (s t : string) : String a s ++ t = String a (s ++ t).
Proof. reflexivity. Qed.

Lemma split_toString_hex (l : list byte) (rest : string) :
  JS.split ":" (toString_hex l ++ ":" ++ rest) = toString_hex l :: JS.split ":" rest.
Proof.
  induction l as [| b l IH]; [reflexivity |].
  cbn [toString_hex].
  rewrite (append_String _ (String _ (toString_hex l))),
    (append_String _ (toString_hex l)), split_hex_cons.
  now rewrite IH.
Qed.

Lemma split_toString_hex_last (l : list byte) :
  JS.split ":" (toString_hex l) = [toString_hex l].
Proof.
  induction l as [| b l IH]; [reflexivity |].
  cbn [toString_hex]. now rewrite split_hex_cons, IH.
Qed.

(** The two segments of an envelope. *)
Lemma split_envelope (iv ct : list byte) :
  JS.split ":" (toString_hex iv ++ ":" ++ toString_hex ct)
  = [toString_hex iv; toString_hex ct].
Proof. now rewrite split_toString_hex, split_toString_hex_last. Qed.

Lemma envelope_inj (iv iv' ct ct' : list byte) :
  toString_hex iv ++ ":" ++ toString_hex ct
  = toString_hex iv' ++ ":" ++ toString_hex ct' ->
  iv = iv' /\ ct = ct'.
Proof.
  intros H. apply (f_equal (JS.split ":")) in H.
  rewrite !split_envelope in H. injection H as H1 H2.
  split; now apply toString_hex_inj.
Qed.

Lemma toString_utf8_from_utf8 (s : string) : toString_utf8 (from_utf8 s) = s.
Proof. apply string_of_list_byte_of_string. Qed.

End Hex.

Lemma randomBytes_length (n : nat) (g : entropy) : length (fst (randomBytes n g)) = n.
Proof. unfold randomBytes. simpl. now rewrite length_map, length_seq. Qed.

(** ** The digest has thirty-two bytes *)

Lemma be_bytes_length (n : nat) (x : N) : length (SHA256.be_bytes n x) = n.
Proof.
  revert x. induction n as [| n IH]; intros x; [reflexivity |].
  cbn [SHA256.be_bytes]. rewrite length_app, IH. simpl. lia.
Qed.

Lemma digest_length (msg : list byte) : length (SHA256.digest msg) = 32%nat.
Proof.
  unfold SHA256.digest.
  destruct (SHA256.process _ _ _) as [[[[[[[a b] c] d] e] f] g] h].
  unfold SHA256.bytes_of_state. now rewrite !length_app, !be_bytes_length.
Qed.

(* ===================================================================== *)
(** * HOTP issuance and the stored counter *)
(* ===================================================================== *)

Section Issuance.

Local Open Scope Z_scope.
Local Open Scope string_scope.

Variable speakeasy : Speakeasy.
Variable env : option string.

(** An issuance for an account of type ["hotp"] writes [counter + 1]. *)
Lemma generateOTP_hotp (now : Z) (account account' : Fixed.Account) (r : Fixed.otp) :
  Fixed.type account = "hotp" ->
  Fixed.generateOTP speakeasy env now account = Ok (r, account') ->
  account' = Fixed.set_counter account (Fixed.counter_value account + 1)
  /\ Fixed.timeRemaining r = None.
Proof.
  intros Ht H. unfold Fixed.generateOTP in H.
  destruct (if Fixed.encrypted account then _ else _) as [plain | e];
    cbn [bind] in H; [| discriminate].
  rewrite Ht in H. cbn [String.eqb Ascii.eqb Bool.eqb] in H.
  destruct (hotp speakeasy _) as [token | e]; cbn [bind] in H; [| discriminate].
  now injection H as <- <-.
Qed.

(** An issuance for any other account leaves it as it is. *)
Lemma generateOTP_totp (now : Z) (account account' : Fixed.Account) (r : Fixed.otp) :
  Fixed.type account <> "hotp" ->
  Fixed.generateOTP speakeasy env now account = Ok (r, account') ->
  account' = account
  /\ Fixed.timeRemaining r
     = Some (time_remaining (Fixed.period account) (JS.floor_div_1000 now)).
Proof.
  intros Ht H. unfold Fixed.generateOTP in H.
  destruct (if Fixed.encrypted account then _ else _) as [plain | e];
    cbn [bind] in H; [| discriminate].
  destruct (String.eqb_spec (Fixed.type account) "hotp") as [? | _]; [contradiction |].
  destruct (totp speakeasy _ _) as [token | e]; cbn [bind] in H; [| discriminate].
  now injection H as <- <-.
Qed.

Lemma counter_value_set (account : Fixed.Account) (c : Z) :
  Fixed.counter_value (Fixed.set_counter account c) = c.
Proof.
  unfold Fixed.counter_value, Fixed.set_counter, JS.or_num. cbn.
  destruct (Z.eqb_spec c 0); congruence.
Qed.

(** [n] successful issuances advance the counter by [n]. *)
Lemma issue_times_counter (n : nat) (now : Z) (account account' : Fixed.Account) :
  Fixed.type account = "hotp" ->
  Fixed.issue_times speakeasy env n now account = Ok account' ->
  Fixed.counter_value account' = Fixed.counter_value account + Z.of_nat n
  /\ Fixed.type account' = "hotp".
Proof.
  revert account. induction n as [| n IH]; intros account Ht H.
  - injection H as <-. split; [lia | assumption].
  - cbn [Fixed.issue_times] in H.
    destruct (Fixed.generateOTP speakeasy env now account) as [[r a1] | e] eqn:E;
      cbn [bind snd] in H; [| discriminate].
    destruct (generateOTP_hotp _ _ _ _ Ht E) as [-> _].
    apply IH in H; [| assumption].
    rewrite counter_value_set in H. destruct H as [H ?]. split; [lia | assumption].
Qed.

End Issuance.

Section Reads.

Local Open Scope Z_scope.
Local Open Scope string_scope.

Variable speakeasy : Speakeasy.

Lemma Fixed_get_own (accounts : gmap string Fixed.Account) (key : string)
    (account : Fixed.Account) :
  accounts !! key = Some account -> Fixed.get accounts key = Fixed.Own account.
Proof. intros H. unfold Fixed.get. now rewrite H. Qed.

(** C10.  In the in-memory service the listing of all codes and the debug
    route go through [generateOTP], as the single-code route does: for every
    account of type ["hotp"] whose issuance succeeds, each of the three
    requests leaves the account in the store with its counter one higher
    than it was read, [1] for an account that had none, and with every
    other field as it was.  The counter is a number of the language: the
    sum is exact while the counter is below [2 ^ 53] in absolute value. *)
Theorem C10_reads_advance_hotp_counters
    (env : option string) (now : Z) (s : Fixed.state) (key : string)
    (account account' : Fixed.Account) (r : Fixed.otp) :
  Fixed.accounts s !! key = Some account ->
  Fixed.type account = "hotp" ->
  - 2 ^ 53 <= Fixed.counter_value account < 2 ^ 53 ->
  Fixed.generateOTP speakeasy env now account = Ok (r, account') ->
  let after :=
    {| Fixed.name := Fixed.name account; Fixed.secret := Fixed.secret account;
       Fixed.encrypted := Fixed.encrypted account; Fixed.digits := Fixed.digits account;
       Fixed.period := Fixed.period account; Fixed.type := Fixed.type account;
       Fixed.algorithm := Fixed.algorithm account; Fixed.addedAt := Fixed.addedAt account;
       Fixed.counter := Some (match Fixed.counter account with
                              | Some c => c + 1
                              | None => 1
                              end) |} in
  Fixed.accounts (snd (Fixed.GET_api_codes speakeasy env now s)) !! key = Some after
  /\ Fixed.accounts (snd (Fixed.GET_api_debug speakeasy env now key s)) !! key = Some after
  /\ Fixed.accounts (snd (Fixed.GET_api_code speakeasy env now key s)) !! key = Some after
  /\ Fixed.counter_value after = Fixed.counter_value account + 1
  /\ account' = after.
Proof.
  intros Hk Ht Hbound Hg after.
  destruct (generateOTP_hotp _ _ _ _ _ _ Ht Hg) as [-> _].
  assert (Ea : Fixed.set_counter account (Fixed.counter_value account + 1) = after).
  { unfold after, Fixed.set_counter, Fixed.counter_value, JS.or_num. f_equal. f_equal.
    destruct (Fixed.counter account) as [c |]; [| reflexivity].
    destruct (Z.eqb_spec c 0) as [-> | _]; reflexivity. }
  rewrite Ea in Hg.
  split; [| split; [| split; [| split]]].
  - unfold Fixed.GET_api_codes. cbn [snd Fixed.with_accounts Fixed.accounts].
    rewrite map_lookup_imap, Hk. cbn.
    unfold Fixed.code_entry. now rewrite Hg.
  - unfold Fixed.GET_api_debug. rewrite (Fixed_get_own _ _ _ Hk).
    assert (Hd : exists plain,
               (if Fixed.encrypted account
                then Fixed.decrypt (Fixed.ENCRYPTION_KEY env) (Fixed.secret account)
                else Ok (Fixed.secret account)) = Ok plain).
    { unfold Fixed.generateOTP in Hg.
      destruct (if Fixed.encrypted account then _ else _) as [plain | e];
        [eauto | discriminate]. }
    destruct Hd as [plain ->]. rewrite Hg.
    cbn [snd Fixed.with_accounts Fixed.accounts]. apply lookup_insert_eq.
  - unfold Fixed.GET_api_code. rewrite (Fixed_get_own _ _ _ Hk), Hg.
    cbn [snd Fixed.with_accounts Fixed.accounts]. apply lookup_insert_eq.
  - rewrite <- Ea. apply counter_value_set.
  - exact Ea.
Qed.

(** The requests of the MongoDB-backed service that hand out codes never
    write to the collection. *)
Lemma Mongo_GET_api_code_reads (KEY : string) (now : Z) (accountKey : string)
    (s : Mongo.state) :
  snd (Mongo.GET_api_code speakeasy KEY now accountKey s) = s.
Proof.
  unfold Mongo.GET_api_code.
  destruct (Mongo.findByKey _ _); [| reflexivity].
  now destruct (Mongo.issue _ _ _ _ _) as [[? ?] | ?].
Qed.

End Reads.

(** C1.  In [src/server.js] no request that hands out a code writes to the
    collection: an account of type ["hotp"] is answered with a code, status
    200, and its stored counter is what it was.  The issuance is not paired
    with an increment there. *)
Theorem C1_server_js_hotp_counter_not_advanced :
  (forall (speakeasy : Speakeasy) (KEY : string) (now : Z) (accountKey : string)
          (s : Mongo.state),
      snd (Mongo.GET_api_code speakeasy KEY now accountKey s) = s)
  /\ (forall (speakeasy : Speakeasy) (KEY : string) (now : Z) (s : Mongo.state),
      snd (Mongo.GET_api_codes speakeasy KEY now s) = s)
  /\ (let s := {| Mongo.db := {[ "vpn"%string := Sample.mongo_hotp_account ]};
                  Mongo.random := Sample.zeros |} in
      let '(res, s') := Mongo.GET_api_code Sample.speakeasy "" 59000 "vpn" s in
      Mongo.type Sample.mongo_hotp_account = "hotp"%string
      /\ status res = 200%Z
      /\ Mongo.counter <$> (Mongo.db s' !! "vpn"%string) = Some 0%Z).
Proof.
  split; [exact Mongo_GET_api_code_reads |].
  split; [reflexivity |].
  vm_compute. repeat split; reflexivity.
Qed.

(* ===================================================================== *)
(** * The time left in the current step *)
(* ===================================================================== *)

Section TimeRemaining.

Local Open Scope Z_scope.

Lemma time_remaining_spec (period epoch : Z) :
  0 < period -> 0 <= epoch ->
  time_remaining period epoch = period - epoch mod period
  /\ 1 <= time_remaining period epoch <= period
  /\ (time_remaining period epoch = period <-> (period | epoch)).
Proof.
  intros Hp He. unfold time_remaining, JS.rem.
  rewrite Z.rem_mod_nonneg by lia.
  pose proof (Z.mod_pos_bound epoch period Hp) as Hb.
  split; [reflexivity |]. split; [lia |].
  rewrite <- Z.mod_divide by lia. lia.
Qed.

Lemma floor_div_1000_nonneg (now : Z) : 0 <= now -> 0 <= JS.floor_div_1000 now.
Proof. intros H. unfold JS.floor_div_1000. apply Z.div_pos; lia. Qed.

Lemma round_div_1000_nonneg (now : Z) : 0 <= now -> 0 <= JS.round_div_1000 now.
Proof. intros H. unfold JS.round_div_1000. apply Z.div_pos; lia. Qed.

(** [Math.round] of the clock is the second of the clock in the first half
    of a second and the next second in the second half. *)
Lemma round_div_1000_cases (now : Z) :
  (now mod 1000 < 500 -> JS.round_div_1000 now = now / 1000)
  /\ (500 <= now mod 1000 -> JS.round_div_1000 now = now / 1000 + 1).
Proof.
  pose proof (Z.div_mod now 1000 ltac:(lia)) as Hd.
  pose proof (Z.mod_pos_bound now 1000 ltac:(lia)) as Hb.
  unfold JS.round_div_1000. split; intros H; symmetry.
  - apply (Z.div_unique (now + 500) 1000 _ (now mod 1000 + 500)); lia.
  - apply (Z.div_unique (now + 500) 1000 _ (now mod 1000 - 500)); lia.
Qed.

(** Successive seconds fall on different places of a step. *)
Lemma next_second_differs (period q : Z) :
  2 <= period -> (q + 1) mod period <> q mod period.
Proof.
  intros Hp E.
  pose proof (Z.div_mod q period ltac:(lia)) as H1.
  pose proof (Z.div_mod (q + 1) period ltac:(lia)) as H2.
  rewrite E in H2.
  set (a := q / period) in *. set (b := (q + 1) / period) in *.
  assert (H : period * (b - a) = 1) by (rewrite Z.mul_sub_distr_l; lia).
  destruct (Z_le_gt_dec (b - a) 0); nia.
Qed.

(** C8, where the code keeps it and where it does not.  For a period
    between 15 and 60 and a clock at or after the epoch, the
    [timeRemaining] of [src/server-backup.js] is
    [period - (nowEpochSeconds mod period)] for the second of the clock,
    lies between 1 and [period], and is [period] exactly when [period]
    divides that second.  What [src/server.js] answers lies between 1 and
    [period] too, and is that value in the first half of every second; in
    the second half it is the value of the next second, which is another
    one. *)
Theorem C8_time_remaining (speakeasy : Speakeasy) (now period : Z) :
  15 <= period <= 60 ->
  0 <= now ->
  (forall (env : option string) (account account' : Fixed.Account) (r : Fixed.otp),
      Fixed.period account = period ->
      Fixed.type account <> "hotp"%string ->
      Fixed.generateOTP speakeasy env now account = Ok (r, account') ->
      exists t, Fixed.timeRemaining r = Some t
        /\ t = period - (now / 1000) mod period
        /\ 1 <= t <= period
        /\ (t = period <-> (period | now / 1000)))
  /\ (forall (KEY k : string) (s : Mongo.state) (account : Mongo.Account),
      Mongo.period account = period ->
      Mongo.findByKey (Mongo.db s) k = Some account ->
      status (fst (Mongo.GET_api_code speakeasy KEY now k s)) = 200 ->
      exists t,
        field "timeRemaining" (body (fst (Mongo.GET_api_code speakeasy KEY now k s)))
        = Some (JS.JNum t)
        /\ field "expiresAt" (body (fst (Mongo.GET_api_code speakeasy KEY now k s)))
           = Some (JS.JNum (now + t * 1000))
        /\ 1 <= t <= period
        /\ (now mod 1000 < 500 -> t = period - (now / 1000) mod period)
        /\ (500 <= now mod 1000 ->
            t = period - (now / 1000 + 1) mod period
            /\ t <> period - (now / 1000) mod period)).
Proof.
  intros Hp Hn. split.
  - intros env account account' r Hper Ht Hg.
    destruct (generateOTP_totp _ _ _ _ _ _ Ht Hg) as [_ Hr].
    rewrite Hper in Hr. eexists. split; [exact Hr |].
    apply time_remaining_spec; [lia | now apply floor_div_1000_nonneg].
  - intros KEY k s account Hper Hf. unfold Mongo.GET_api_code. rewrite Hf.
    destruct (Mongo.issue speakeasy KEY now (JS.round_div_1000 now) account)
      as [[token t] | e] eqn:Hi; [| discriminate].
    intros _. exists t. cbn [fst body json].
    split; [reflexivity |]. split; [reflexivity |].
    assert (Et : t = time_remaining period (JS.round_div_1000 now)).
    { unfold Mongo.issue in Hi.
      destruct (if Mongo.encrypted account then _ else _) as [plain | e];
        cbn [bind] in Hi; [| discriminate].
      destruct (totp speakeasy _ _) as [tok | e]; cbn [bind] in Hi; [| discriminate].
      injection Hi as _ <-. now rewrite Hper. }
    destruct (time_remaining_spec period (JS.round_div_1000 now) ltac:(lia)
                (round_div_1000_nonneg now Hn)) as (Es & Hb & _).
    destruct (round_div_1000_cases now) as [Hlow Hhigh].
    split; [rewrite Et; exact Hb |].
    split.
    + intros H. now rewrite Et, Es, (Hlow H).
    + intros H. rewrite Et, Es, (Hhigh H). split; [reflexivity |].
      pose proof (next_second_differs period (now / 1000) ltac:(lia)). lia.
Qed.

End TimeRemaining.

(* ===================================================================== *)
(** * Account creation *)
(* ===================================================================== *)

Section Creation.

Local Open Scope Z_scope.
Local Open Scope string_scope.

Variable speakeasy : Speakeasy.

(** What a creation request can do to the in-memory state. *)
Lemma Fixed_POST_outcome (env : option string) (now : Z) (req : Fixed.new_account)
    (s : Fixed.state) :
  let '(res, s') := Fixed.POST_api_accounts speakeasy env now req s in
  (status res = 201
   /\ JS.falsy_str (Fixed.r_key req) = false
   /\ JS.falsy_str (Fixed.r_secret req) = false
   /\ Fixed.get (Fixed.accounts s) (JS.default (Fixed.r_key req) "") = Fixed.Undefined
   /\ is_Ok (Fixed.validation speakeasy now req) = true
   /\ exists account,
       Fixed.accounts s' = <[JS.default (Fixed.r_key req) "" := account]> (Fixed.accounts s))
  \/ (status res <> 201 /\ Fixed.accounts s' = Fixed.accounts s
      /\ (is_Ok (Fixed.validation speakeasy now req) = false -> s' = s)
      /\ (Fixed.get (Fixed.accounts s) (JS.default (Fixed.r_key req) "") <> Fixed.Undefined
          -> s' = s)).
Proof.
  unfold Fixed.POST_api_accounts, Fixed.validation.
  destruct (JS.falsy_str (Fixed.r_key req)) eqn:Hk; cbn [orb].
  { right. repeat split; auto; discriminate. }
  destruct (JS.falsy_str (Fixed.r_secret req)) eqn:Hs.
  { right. repeat split; auto; discriminate. }
  destruct (Fixed.get _ _) eqn:Hg.
  1, 2: right; repeat split; auto; discriminate.
  destruct (totp speakeasy _ now) as [tok | e] eqn:Hv.
  2: { right. repeat split; auto; discriminate. }
  destruct (if JS.default (Fixed.r_encrypt req) true then _ else _) as [[stored | e] g].
  - left. cbn. repeat split; eauto.
  - right. cbn. repeat split; auto; try discriminate. congruence.
Qed.

Lemma Mongo_POST_outcome (KEY : string) (now : Z) (req : Mongo.account_fields)
    (s : Mongo.state) :
  let '(res, s') := Mongo.POST_api_accounts speakeasy KEY now req s in
  (status res = 201
   /\ JS.falsy_str (Mongo.r_key req) = false
   /\ JS.falsy_str (Mongo.r_secret req) = false
   /\ Mongo.findByKey (Mongo.db s) (JS.default (Mongo.r_key req) "") = None
   /\ is_Ok (Mongo.validation speakeasy now req) = true
   /\ exists doc,
       Mongo.key doc = JS.trim (JS.default (Mongo.r_key req) "")
       /\ Mongo.validate doc = true
       /\ Mongo.digits doc = JS.or_num (Mongo.r_digits req) 6
       /\ Mongo.period doc = JS.or_num (Mongo.r_period req) 30
       /\ Mongo.algorithm doc
          = JS.toLowerCase (JS.toLowerCase (JS.or_str (Mongo.r_algorithm req) "sha1"))
       /\ Mongo.type doc = JS.toLowerCase (JS.or_str (Mongo.r_type req) "totp")
       /\ Mongo.db s !! Mongo.key doc = None
       /\ Mongo.db s' = <[Mongo.key doc := doc]> (Mongo.db s))
  \/ (status res <> 201 /\ Mongo.db s' = Mongo.db s
      /\ (is_Ok (Mongo.validation speakeasy now req) = false -> s' = s)
      /\ (Mongo.findByKey (Mongo.db s) (JS.default (Mongo.r_key req) "") <> None
          -> s' = s)).
Proof.
  unfold Mongo.POST_api_accounts, Mongo.validation.
  destruct (JS.falsy_str (Mongo.r_key req)) eqn:Hk; cbn [orb].
  { right. repeat split; auto; discriminate. }
  destruct (JS.falsy_str (Mongo.r_secret req)) eqn:Hs.
  { right. repeat split; auto; discriminate. }
  destruct (Mongo.findByKey _ _) eqn:Hf.
  { right. repeat split; auto; discriminate. }
  destruct (totp speakeasy _ now) as [tok | e] eqn:Hv.
  2: { right. repeat split; auto; discriminate. }
  destruct (Mongo.stored_secret _ _ _ _) as [[stored | e] g]; cbn [bind].
  2: { right. cbn. repeat split; auto; try discriminate; congruence. }
  unfold Mongo.save_new.
  destruct (Mongo.validate _) eqn:Hval; cbn [negb].
  2: { right. cbn. repeat split; auto; try discriminate; congruence. }
  destruct (Mongo.db s !! _) eqn:Hl; cbn [bind].
  { right. cbn. repeat split; auto; try discriminate; congruence. }
  left. cbn [status json Mongo.db]. repeat split; auto.
  eexists. repeat split; try reflexivity; eauto.
Qed.

Lemma Fixed_POST_keeps (env : option string) (now : Z) (req : Fixed.new_account)
    (s : Fixed.state) (key : string) (account : Fixed.Account) :
  Fixed.accounts s !! key = Some account ->
  Fixed.accounts (snd (Fixed.POST_api_accounts speakeasy env now req s)) !! key
  = Some account.
Proof.
  intros Hk. pose proof (Fixed_POST_outcome env now req s) as H.
  destruct (Fixed.POST_api_accounts speakeasy env now req s) as [res s'].
  cbn [snd]. destruct H as [(_ & _ & _ & Hg & _ & acc & ->) | (_ & -> & _)]; [| exact Hk].
  rewrite lookup_insert_ne; [exact Hk |].
  intros <-. unfold Fixed.get in Hg. rewrite Hk in Hg. discriminate.
Qed.

Lemma Mongo_POST_keeps (KEY : string) (now : Z) (req : Mongo.account_fields)
    (s : Mongo.state) (k : string) (account : Mongo.Account) :
  Mongo.db s !! k = Some account ->
  Mongo.db (snd (Mongo.POST_api_accounts speakeasy KEY now req s)) !! k = Some account.
Proof.
  intros Hk. pose proof (Mongo_POST_outcome KEY now req s) as H.
  destruct (Mongo.POST_api_accounts speakeasy KEY now req s) as [res s'].
  cbn [snd].
  destruct H as [(_ & _ & _ & _ & _ & doc & _ & _ & _ & _ & _ & _ & Hn & ->) | (_ & -> & _)];
    [| exact Hk].
  rewrite lookup_insert_ne; [exact Hk |]. intros <-. congruence.
Qed.

Lemma falsy_str_Some (k : string) : k <> "" -> JS.falsy_str (Some k) = false.
Proof.
  intros Hk. unfold JS.falsy_str, JS.truthy.
  destruct (String.eqb_spec k ""); [contradiction | reflexivity].
Qed.

Lemma falsy_str_inv (o : option string) :
  JS.falsy_str o = false -> exists k, o = Some k /\ k <> "".
Proof.
  destruct o as [k |]; [| discriminate]. intros H. exists k. split; [reflexivity |].
  intros ->. discriminate.
Qed.

Lemma Fixed_POST_duplicate (env : option string) (now : Z) (req : Fixed.new_account)
    (s : Fixed.state) (key secret : string) (account : Fixed.Account) :
  Fixed.r_key req = Some key -> key <> "" ->
  Fixed.r_secret req = Some secret -> secret <> "" ->
  Fixed.accounts s !! key = Some account ->
  Fixed.POST_api_accounts speakeasy env now req s
  = (json 409 (JS.JObj [("error", JS.JStr "Account exists")]), s).
Proof.
  intros Hk Hk' Hs Hs' Ha. unfold Fixed.POST_api_accounts.
  rewrite Hk, Hs, !falsy_str_Some by assumption. cbn [orb JS.default].
  now rewrite (Fixed_get_own _ _ _ Ha).
Qed.

Lemma Mongo_POST_duplicate (KEY : string) (now : Z) (req : Mongo.account_fields)
    (s : Mongo.state) (key secret : string) (account : Mongo.Account) :
  Mongo.r_key req = Some key -> key <> "" ->
  Mongo.r_secret req = Some secret -> secret <> "" ->
  Mongo.findByKey (Mongo.db s) key = Some account ->
  Mongo.POST_api_accounts speakeasy KEY now req s
  = (json 409 (JS.JObj [("error", JS.JStr "Account already exists")]), s).
Proof.
  intros Hk Hk' Hs Hs' Ha. unfold Mongo.POST_api_accounts.
  rewrite Hk, Hs, !falsy_str_Some by assumption. cbn [orb JS.default].
  now rewrite Ha.
Qed.

(** C5.  In both services a creation request whose key is already present
    is answered 409 and changes nothing; so is the second of two creations
    with one key; and no run of creation requests changes a record that is
    already there. *)
Theorem C5_duplicate_key_rejected :
  (forall (env : option string) (now : Z) (req : Fixed.new_account) (s : Fixed.state)
          (key secret : string) (account : Fixed.Account),
      Fixed.r_key req = Some key -> key <> "" ->
      Fixed.r_secret req = Some secret -> secret <> "" ->
      Fixed.accounts s !! key = Some account ->
      Fixed.POST_api_accounts speakeasy env now req s
      = (json 409 (JS.JObj [("error", JS.JStr "Account exists")]), s))
  /\ (forall (env : option string) (now now' : Z) (req req' : Fixed.new_account)
             (s : Fixed.state) (secret' : string),
      status (fst (Fixed.POST_api_accounts speakeasy env now req s)) = 201 ->
      Fixed.r_key req' = Fixed.r_key req ->
      Fixed.r_secret req' = Some secret' -> secret' <> "" ->
      let s' := snd (Fixed.POST_api_accounts speakeasy env now req s) in
      Fixed.POST_api_accounts speakeasy env now' req' s'
      = (json 409 (JS.JObj [("error", JS.JStr "Account exists")]), s'))
  /\ (forall (env : option string) (reqs : list (Z * Fixed.new_account))
             (s : Fixed.state) (key : string) (account : Fixed.Account),
      Fixed.accounts s !! key = Some account ->
      Fixed.accounts (Fixed.POST_all speakeasy env reqs s) !! key = Some account)
  /\ (forall (KEY : string) (now : Z) (req : Mongo.account_fields) (s : Mongo.state)
             (key secret : string) (account : Mongo.Account),
      Mongo.r_key req = Some key -> key <> "" ->
      Mongo.r_secret req = Some secret -> secret <> "" ->
      Mongo.findByKey (Mongo.db s) key = Some account ->
      Mongo.POST_api_accounts speakeasy KEY now req s
      = (json 409 (JS.JObj [("error", JS.JStr "Account already exists")]), s))
  /\ (forall (KEY : string) (now now' : Z) (req req' : Mongo.account_fields)
             (s : Mongo.state) (secret' : string),
      status (fst (Mongo.POST_api_accounts speakeasy KEY now req s)) = 201 ->
      Mongo.r_key req' = Mongo.r_key req ->
      Mongo.r_secret req' = Some secret' -> secret' <> "" ->
      let s' := snd (Mongo.POST_api_accounts speakeasy KEY now req s) in
      Mongo.POST_api_accounts speakeasy KEY now' req' s'
      = (json 409 (JS.JObj [("error", JS.JStr "Account already exists")]), s'))
  /\ (forall (KEY : string) (reqs : list (Z * Mongo.account_fields))
             (s : Mongo.state) (k : string) (account : Mongo.Account),
      Mongo.db s !! k = Some account ->
      Mongo.db (Mongo.POST_all speakeasy KEY reqs s) !! k = Some account).
Proof.
  split; [exact Fixed_POST_duplicate |].
  split.
  { intros env now now' req req' s secret' H201 Hk Hs Hs' s'.
    pose proof (Fixed_POST_outcome env now req s) as H. subst s'.
    destruct (Fixed.POST_api_accounts speakeasy env now req s) as [res s1].
    cbn [fst snd] in *.
    destruct H as [(_ & Hf & _ & _ & _ & acc & Hacc) | (Hne & _)]; [| contradiction].
    destruct (falsy_str_inv _ Hf) as (key & Hkey & Hkey').
    rewrite Hkey in Hk, Hacc. cbn [JS.default] in Hacc.
    apply (Fixed_POST_duplicate env now' req' s1 key secret' acc); auto.
    rewrite Hacc. apply lookup_insert_eq. }
  split.
  { intros env reqs. induction reqs as [| [now req] reqs IH]; intros s key account Hk;
      [exact Hk |].
    cbn [Fixed.POST_all fold_left fst snd]. apply IH.
    now apply Fixed_POST_keeps. }
  split; [exact Mongo_POST_duplicate |].
  split.
  { intros KEY now now' req req' s secret' H201 Hk Hs Hs' s'.
    pose proof (Mongo_POST_outcome KEY now req s) as H. subst s'.
    destruct (Mongo.POST_api_accounts speakeasy KEY now req s) as [res s1].
    cbn [fst snd] in *.
    destruct H as [(_ & Hf & _ & _ & _ & doc & Hd & _ & _ & _ & _ & _ & _ & Hdb) | (Hne & _)];
      [| contradiction].
    destruct (falsy_str_inv _ Hf) as (key & Hkey & Hkey').
    rewrite Hkey in Hk, Hd. cbn [JS.default] in Hd.
    apply (Mongo_POST_duplicate KEY now' req' s1 key secret' doc); auto.
    unfold Mongo.findByKey. rewrite Hdb, <- Hd. apply lookup_insert_eq. }
  intros KEY reqs. induction reqs as [| [now req] reqs IH]; intros s k account Hk;
    [exact Hk |].
  cbn [Mongo.POST_all fold_left fst snd]. apply IH.
  now apply Mongo_POST_keeps.
Qed.

(** In both services the secret of a creation request goes through the
    validating [speakeasy.totp] call before anything is stored: when that
    call throws the request fails and the state is what it was, a request
    answered 201 had a secret that passed it, and any other answer leaves
    the stored accounts untouched. *)
Lemma creation_follows_the_validating_call :
  (forall (env : option string) (now : Z) (req : Fixed.new_account) (s : Fixed.state),
      let '(res, s') := Fixed.POST_api_accounts speakeasy env now req s in
      (is_Ok (Fixed.validation speakeasy now req) = false ->
       status res <> 201 /\ s' = s)
      /\ (status res = 201 -> is_Ok (Fixed.validation speakeasy now req) = true)
      /\ (status res <> 201 -> Fixed.accounts s' = Fixed.accounts s))
  /\ (forall (KEY : string) (now : Z) (req : Mongo.account_fields) (s : Mongo.state),
      let '(res, s') := Mongo.POST_api_accounts speakeasy KEY now req s in
      (is_Ok (Mongo.validation speakeasy now req) = false ->
       status res <> 201 /\ s' = s)
      /\ (status res = 201 -> is_Ok (Mongo.validation speakeasy now req) = true)
      /\ (status res <> 201 -> Mongo.db s' = Mongo.db s)).
Proof.
  split.
  - intros env now req s. pose proof (Fixed_POST_outcome env now req s) as H.
    destruct (Fixed.POST_api_accounts speakeasy env now req s) as [res s'].
    destruct H as [(H201 & _ & _ & _ & Hv & _) | (Hne & Ha & Hs & _)].
    + repeat split; congruence.
    + repeat split; auto; try contradiction.
  - intros KEY now req s. pose proof (Mongo_POST_outcome KEY now req s) as H.
    destruct (Mongo.POST_api_accounts speakeasy KEY now req s) as [res s'].
    destruct H as [(H201 & _ & _ & _ & Hv & _) | (Hne & Ha & Hs & _)].
    + repeat split; congruence.
    + repeat split; auto; try contradiction.
Qed.

End Creation.

(* ===================================================================== *)
(** * The envelope: encryption and decryption of a secret *)
(* ===================================================================== *)

Section Envelope.

Local Open Scope string_scope.

Lemma cipher_check (key iv data ct : list byte) :
  Crypto.cipher_aes_256_cbc key iv data = Ok ct -> Crypto.check_key_iv key iv = Ok tt.
Proof.
  unfold Crypto.cipher_aes_256_cbc.
  now destruct (Crypto.check_key_iv key iv) as [[] | e].
Qed.

(** The shape of what [encrypt] returns, in either service. *)
Lemma Fixed_encrypt_shape (KEY : list byte) (text envelope : string) (g : entropy) :
  fst (Fixed.encrypt KEY text g) = Ok envelope ->
  exists ct,
    Crypto.cipher_aes_256_cbc KEY (fst (randomBytes 16 g)) (Buffer.from_utf8 text) = Ok ct
    /\ envelope = Buffer.toString_hex (fst (randomBytes 16 g)) ++ ":" ++ Buffer.toString_hex ct.
Proof.
  unfold Fixed.encrypt. destruct (randomBytes 16 g) as [iv g'] eqn:E. cbn [fst].
  destruct (Crypto.cipher_aes_256_cbc _ _ _) as [ct | e]; cbn [bind]; [| discriminate].
  intros [= <-]. eauto.
Qed.

Lemma Mongo_encrypt_shape (KEY : string) (text envelope : string) (g : entropy) :
  fst (Mongo.encrypt KEY text g) = Ok envelope ->
  exists ct,
    Crypto.cipher_aes_256_cbc (Mongo.key_bytes KEY) (fst (randomBytes 16 g))
                              (Buffer.from_utf8 text) = Ok ct
    /\ envelope = Buffer.toString_hex (fst (randomBytes 16 g)) ++ ":" ++ Buffer.toString_hex ct.
Proof.
  unfold Mongo.encrypt. destruct (randomBytes 16 g) as [iv g'] eqn:E. cbn [fst].
  destruct (Crypto.cipher_aes_256_cbc _ _ _) as [ct | e]; cbn [bind]; [| discriminate].
  intros [= <-]. eauto.
Qed.

Lemma encrypt_draws_16 :
  (forall KEY text g, snd (Fixed.encrypt KEY text g) = snd (randomBytes 16 g))
  /\ (forall KEY text g, snd (Mongo.encrypt KEY text g) = snd (randomBytes 16 g)).
Proof. split; intros; reflexivity. Qed.

Lemma Fixed_decrypt_encrypt (KEY : list byte) (text envelope : string) (g : entropy) :
  fst (Fixed.encrypt KEY text g) = Ok envelope ->
  Fixed.decrypt KEY envelope = Ok text.
Proof.
  intros H. destruct (Fixed_encrypt_shape _ _ _ _ H) as (ct & Hc & ->).
  unfold Fixed.decrypt. rewrite split_envelope. cbn [nth nth_error].
  rewrite !from_hex_toString_hex, (cipher_check _ _ _ _ Hc). cbn [bind].
  rewrite (decipher_cipher _ _ _ _ Hc). cbn [bind].
  now rewrite toString_utf8_from_utf8.
Qed.

Lemma Mongo_decrypt_encrypt (KEY : string) (text envelope : string) (g : entropy) :
  fst (Mongo.encrypt KEY text g) = Ok envelope ->
  Mongo.decrypt KEY envelope = Ok text.
Proof.
  intros H. destruct (Mongo_encrypt_shape _ _ _ _ H) as (ct & Hc & ->).
  unfold Mongo.decrypt. rewrite split_envelope. cbn [nth tl JS.join].
  rewrite !from_hex_toString_hex, (decipher_cipher _ _ _ _ Hc). cbn [bind].
  now rewrite toString_utf8_from_utf8.
Qed.

Lemma Fixed_encrypt_succeeds (env : option string) (text : string) (g : entropy) :
  exists envelope, fst (Fixed.encrypt (Fixed.ENCRYPTION_KEY env) text g) = Ok envelope.
Proof.
  unfold Fixed.encrypt. destruct (randomBytes 16 g) as [iv g'] eqn:E. cbn [fst].
  destruct (cipher_succeeds (Fixed.ENCRYPTION_KEY env) iv (Buffer.from_utf8 text))
    as [ct ->].
  - apply digest_length.
  - change iv with (fst (iv, g')). rewrite <- E. apply randomBytes_length.
  - cbn [bind]. eauto.
Qed.

Lemma Mongo_encrypt_succeeds (KEY : string) (text : string) (g : entropy) :
  length (Mongo.key_bytes KEY) = 32%nat ->
  exists envelope, fst (Mongo.encrypt KEY text g) = Ok envelope.
Proof.
  intros Hk. unfold Mongo.encrypt. destruct (randomBytes 16 g) as [iv g'] eqn:E. cbn [fst].
  destruct (cipher_succeeds (Mongo.key_bytes KEY) iv (Buffer.from_utf8 text))
    as [ct ->].
  - exact Hk.
  - change iv with (fst (iv, g')). rewrite <- E. apply randomBytes_length.
  - cbn [bind]. eauto.
Qed.

Lemma toString_hex_length (l : list byte) :
  String.length (Buffer.toString_hex l) = (2 * length l)%nat.
Proof.
  induction l as [| b l IH]; [reflexivity |].
  cbn [Buffer.toString_hex String.length length]. rewrite IH. lia.
Qed.

Lemma slice0_all (n : nat) (s : string) :
  (String.length s <= n)%nat -> JS.slice0 n s = s.
Proof.
  unfold JS.slice0. revert n. induction s as [| c s IH]; intros n Hn.
  - now destruct n.
  - destruct n as [| n]; cbn [String.length] in Hn; [lia |].
    cbn [String.substring]. rewrite IH by lia. reflexivity.
Qed.


(** Two envelopes made with different nonces are different. *)
Lemma envelopes_differ (iv iv' ct ct' : list byte) :
  iv <> iv' ->
  Buffer.toString_hex iv ++ ":" ++ Buffer.toString_hex ct
  <> Buffer.toString_hex iv' ++ ":" ++ Buffer.toString_hex ct'.
Proof. intros Hne H. apply envelope_inj in H. tauto. Qed.



End Envelope.


(* ===================================================================== *)
(** * When decryption fails *)
(* ===================================================================== *)

Section Decrypt.

Import AES Crypto.

Local Open Scope string_scope.

Lemma byte_of_nat_to_nat (b : byte) : byte_of_nat (Byte.to_nat b) = b.
Proof. destruct b; reflexivity. Qed.

Lemma forallb_eqb_inv (b : byte) (l : list byte) :
  forallb (Byte.eqb b) l = true -> l = repeat b (length l).
Proof.
  induction l as [| a l IH]; [reflexivity |]. cbn [forallb length repeat].
  intros [Ha Hl]%andb_true_iff. apply Byte.byte_dec_bl in Ha. subst a.
  now rewrite <- IH.
Qed.

Lemma cbc_decrypt_length (ks : list block) (prev : block) (cs : list block) :
  length (cbc_decrypt ks prev cs) = length cs.
Proof.
  revert prev. induction cs as [| c cs IH]; intros prev; simpl; [reflexivity |].
  now rewrite IH.
Qed.

(** A buffer that passes the padding check is a plaintext followed by [n]
    bytes of value [n]. *)
Lemma pkcs7_unpad_inv (l p : list byte) :
  (16 <= length l)%nat ->
  pkcs7_unpad l = Ok p ->
  exists n, (1 <= n <= 16)%nat /\ l = (p ++ repeat (byte_of_nat n) n)%list.
Proof.
  intros Hlen. unfold pkcs7_unpad.
  set (b := List.last l x00). set (n := Byte.to_nat b).
  destruct (Nat.eqb_spec n 0) as [? | Hn0]; [discriminate |].
  destruct (Nat.ltb_spec 16 n) as [? | Hn16]; [discriminate |]. cbn [orb].
  destruct (forallb _ _) eqn:Hall; [| discriminate].
  intros [= <-]. exists n. split; [lia |].
  apply forallb_eqb_inv in Hall. rewrite List.length_skipn in Hall.
  replace (length l - (length l - n))%nat with n in Hall by lia.
  replace (byte_of_nat n) with b by (symmetry; apply byte_of_nat_to_nat).
  rewrite <- Hall.
  symmetry. apply List.firstn_skipn.
Qed.

(** [decipher_aes_256_cbc] returns all of the decryption or throws. *)
Lemma decipher_inv (key iv data p : list byte) :
  decipher_aes_256_cbc key iv data = Ok p ->
  length key = 32%nat /\ length iv = 16%nat
  /\ (0 < length data)%nat /\ (length data mod 16 = 0)%nat
  /\ exists n, (1 <= n <= 16)%nat
       /\ bytes_of_blocks
            (cbc_decrypt (KeyExpansion key) (block_of_iv iv) (blocks_of_bytes data))
          = (p ++ repeat (byte_of_nat n) n)%list.
Proof.
  unfold decipher_aes_256_cbc, check_key_iv.
  destruct (Nat.eqb_spec (length iv) 16) as [Hi | ?]; cbn [negb bind]; [| discriminate].
  destruct (Nat.eqb_spec (length key) 32) as [Hk | ?]; cbn [negb bind]; [| discriminate].
  destruct (Nat.eqb_spec (length data) 0) as [? | Hd]; cbn [orb]; [discriminate |].
  destruct (Nat.eqb_spec (length data mod 16) 0) as [Hm | ?]; cbn [negb];
    [| discriminate].
  intros Hu. repeat (split; [assumption || lia |]).
  apply pkcs7_unpad_inv; [| exact Hu].
  pose proof (Nat.div_mod_eq (length data) 16) as Hdm. rewrite Hm in Hdm.
  rewrite bytes_of_blocks_length, cbc_decrypt_length,
    (blocks_of_bytes_length (length data / 16) data) by lia.
  lia.
Qed.

(** C3, as the code has it.  [decrypt] returns only when the text before the
    first colon begins with hexadecimal digits for exactly sixteen bytes,
    the text after it begins with hexadecimal digits for a positive multiple
    of sixteen bytes, the key has thirty-two bytes and the decryption of
    those bytes ends in well-formed padding; it then returns the whole of
    that decryption, less the padding.  In every other case it throws. *)
Theorem C3_decrypt_all_or_nothing :
  (forall (KEY : list byte) (text p : string),
      Fixed.decrypt KEY text = Ok p ->
      exists (ivHex ctHex : string) (rest : list string) (plain : list byte) (n : nat),
        JS.split ":" text = ivHex :: ctHex :: rest
        /\ length KEY = 32%nat
        /\ length (Buffer.from_hex ivHex) = 16%nat
        /\ (0 < length (Buffer.from_hex ctHex))%nat
        /\ (length (Buffer.from_hex ctHex) mod 16 = 0)%nat
        /\ (1 <= n <= 16)%nat
        /\ bytes_of_blocks
             (cbc_decrypt (KeyExpansion KEY) (block_of_iv (Buffer.from_hex ivHex))
                          (blocks_of_bytes (Buffer.from_hex ctHex)))
           = (plain ++ repeat (byte_of_nat n) n)%list
        /\ p = Buffer.toString_utf8 plain)
  /\ (forall (KEY : string) (text p : string),
      Mongo.decrypt KEY text = Ok p ->
      exists (ivHex : string) (rest : list string) (plain : list byte) (n : nat),
        JS.split ":" text = ivHex :: rest
        /\ length (Mongo.key_bytes KEY) = 32%nat
        /\ length (Buffer.from_hex ivHex) = 16%nat
        /\ (0 < length (Buffer.from_hex (JS.join ":" rest)))%nat
        /\ (length (Buffer.from_hex (JS.join ":" rest)) mod 16 = 0)%nat
        /\ (1 <= n <= 16)%nat
        /\ bytes_of_blocks
             (cbc_decrypt (KeyExpansion (Mongo.key_bytes KEY))
                          (block_of_iv (Buffer.from_hex ivHex))
                          (blocks_of_bytes (Buffer.from_hex (JS.join ":" rest))))
           = (plain ++ repeat (byte_of_nat n) n)%list
        /\ p = Buffer.toString_utf8 plain).
Proof.
  split.
  - intros KEY text p. unfold Fixed.decrypt.
    pose proof (split_nonempty ":" text) as Hne.
    destruct (JS.split ":" text) as [| ivHex parts]; [contradiction |].
    cbn [nth nth_error].
    destruct (check_key_iv KEY (Buffer.from_hex ivHex)) as [[] | e]; cbn [bind];
      [| discriminate].
    destruct parts as [| ctHex rest]; cbn [nth_error]; [discriminate |].
    destruct (decipher_aes_256_cbc _ _ _) as [plain | e] eqn:Hd; cbn [bind];
      [| discriminate].
    intros [= <-].
    destruct (decipher_inv _ _ _ _ Hd) as (Hk & Hi & Hp & Hm & n & Hn & Hb).
    exists ivHex, ctHex, rest, plain, n. repeat split; auto; lia.
  - intros KEY text p. unfold Mongo.decrypt.
    pose proof (split_nonempty ":" text) as Hne.
    destruct (JS.split ":" text) as [| ivHex rest]; [contradiction |].
    cbn [nth tl].
    destruct (decipher_aes_256_cbc _ _ _) as [plain | e] eqn:Hd; cbn [bind];
      [| discriminate].
    intros [= <-].
    destruct (decipher_inv _ _ _ _ Hd) as (Hk & Hi & Hp & Hm & n & Hn & Hb).
    exists ivHex, rest, plain, n. repeat split; auto; lia.
Qed.

End Decrypt.

(** The envelope of ["JBSWY3DPEHPK3PXP"] under the fallback key, with the
    nonce [00 01 .. 0f]. *)
Lemma sample_envelope :
  fst (Fixed.encrypt (Fixed.ENCRYPTION_KEY None) "JBSWY3DPEHPK3PXP" Sample.counting)
  = Ok Sample.envelope.
Proof. vm_compute. reflexivity. Qed.

(** C3, as the specification words it, does not hold: an envelope followed
    by text that is not hexadecimal, or by further segments, decrypts to the
    plaintext, and under another key the same envelope decrypts, without an
    error, to thirty-one bytes that are not the plaintext. *)
Lemma C3_counterexample :
  Fixed.decrypt (Fixed.ENCRYPTION_KEY None) (Sample.envelope ++ "zz")
  = Ok "JBSWY3DPEHPK3PXP"%string
  /\ Fixed.decrypt (Fixed.ENCRYPTION_KEY None) (Sample.envelope ++ ":00:11")
     = Ok "JBSWY3DPEHPK3PXP"%string
  /\ Mongo.decrypt Sample.hex_key (Sample.envelope ++ ":zz") = Ok "JBSWY3DPEHPK3PXP"%string
  /\ (exists garbage : list byte,
        Fixed.decrypt (Fixed.ENCRYPTION_KEY (Some "key-432"%string)) Sample.envelope
        = Ok (Buffer.toString_utf8 garbage)
        /\ length garbage = 31%nat
        /\ garbage <> Buffer.from_utf8 "JBSWY3DPEHPK3PXP").
Proof.
  split; [vm_compute; reflexivity |].
  split; [vm_compute; reflexivity |].
  split; [vm_compute; reflexivity |].
  exists (Buffer.from_hex
            "d61390934ef56dd527c9fe39d893037865de7293f8cbdb6c0d2f2ba89846de").
  split; [vm_compute; reflexivity |].
  split; [vm_compute; reflexivity |].
  vm_compute. discriminate.
Qed.

(* ===================================================================== *)
(** * The key of the process *)
(* ===================================================================== *)

Section MasterKey.

Local Open Scope string_scope.

(** In [src/server-backup.js] the key is a SHA-256 digest: thirty-two
    bytes whatever the environment holds, and the digest of the fixed text
    ["dev-secret"] when it holds nothing. *)
Lemma Fixed_key_length (env : option string) :
  length (Fixed.ENCRYPTION_KEY env) = 32%nat.
Proof. apply digest_length. Qed.

Lemma Fixed_key_fallback :
  Fixed.ENCRYPTION_KEY None = SHA256.digest (Buffer.from_utf8 "dev-secret")
  /\ Fixed.ENCRYPTION_KEY (Some "") = Fixed.ENCRYPTION_KEY None
  /\ Fixed.ENCRYPTION_KEY None = Buffer.from_hex Sample.hex_key.
Proof.
  split; [vm_compute; reflexivity |].
  split; vm_compute; reflexivity.
Qed.

(** C9.  In [src/server.js] the key is not derived by a hash: it is the
    hex decoding of the first 64 characters of the configured text, so its
    length follows that text, and [encrypt] throws unless the text begins
    with 64 hexadecimal digits; without configuration the key is drawn from
    the entropy source, not from a fixed fallback. *)
Theorem C9_server_js_key_follows_configuration :
  Mongo.key_bytes (fst (Mongo.ENCRYPTION_KEY (Some "dev-secret") Sample.zeros)) = [xde]
  /\ length (Mongo.key_bytes (fst (Mongo.ENCRYPTION_KEY (Some "0011223344") Sample.zeros)))
     = 5%nat
  /\ fst (Mongo.encrypt (fst (Mongo.ENCRYPTION_KEY (Some "dev-secret") Sample.zeros))
                        "JBSWY3DPEHPK3PXP" Sample.zeros)
     = Throw ERR_CRYPTO_INVALID_KEYLEN
  /\ fst (Mongo.ENCRYPTION_KEY None Sample.zeros)
     <> fst (Mongo.ENCRYPTION_KEY None Sample.counting).
Proof.
  split; [vm_compute; reflexivity |].
  split; [vm_compute; reflexivity |].
  split; [vm_compute; reflexivity |].
  vm_compute. discriminate.
Qed.

End MasterKey.

(* ===================================================================== *)
(** * Parameter ranges *)
(* ===================================================================== *)

Section Ranges.

Local Open Scope Z_scope.
Local Open Scope string_scope.

Variable speakeasy : Speakeasy.
Variable KEY : string.

Lemma lower_idempotent (c : ascii) : JS.lower (JS.lower c) = JS.lower c.
Proof.
  destruct c as [[] [] [] [] [] [] [] []]; reflexivity.
Qed.

Lemma toLowerCase_idempotent (s : string) :
  JS.toLowerCase (JS.toLowerCase s) = JS.toLowerCase s.
Proof.
  induction s as [| c s IH]; [reflexivity |].
  cbn. now rewrite lower_idempotent, IH.
Qed.

Lemma or_num_Some (d e : Z) : d <> 0 -> JS.or_num (Some d) e = d.
Proof. intros H. unfold JS.or_num. now destruct (Z.eqb_spec d 0). Qed.

Lemma or_str_Some (a b : string) : a <> "" -> JS.or_str (Some a) b = a.
Proof.
  intros H. unfold JS.or_str, JS.truthy. now destruct (String.eqb_spec a "").
Qed.

Lemma valid_digits_spec (d : Z) : Mongo.valid_digits d = true <-> 6 <= d <= 8.
Proof. unfold Mongo.valid_digits. lia. Qed.

Lemma valid_period_spec (p : Z) : Mongo.valid_period p = true <-> 15 <= p <= 60.
Proof. unfold Mongo.valid_period. lia. Qed.

Lemma validate_fields (doc : Mongo.Account) :
  Mongo.validate doc = true ->
  Mongo.required (Mongo.key doc) = true /\ Mongo.required (Mongo.name doc) = true
  /\ Mongo.required (Mongo.secret doc) = true
  /\ Mongo.valid_digits (Mongo.digits doc) = true
  /\ Mongo.valid_period (Mongo.period doc) = true
  /\ Mongo.valid_algorithm (Mongo.algorithm doc) = true
  /\ Mongo.valid_type (Mongo.type doc) = true.
Proof.
  unfold Mongo.validate. rewrite !andb_true_iff. tauto.
Qed.

(** What an update request can do to the collection. *)
Lemma Mongo_PUT_outcome (k : string) (req : Mongo.account_fields) (s : Mongo.state) :
  let '(res, s') := Mongo.PUT_api_accounts KEY k req s in
  (status res = 200
   /\ exists old doc,
       Mongo.findByKey (Mongo.db s) k = Some old
       /\ Mongo.db s' = <[Mongo.key old := doc]> (Mongo.db s)
       /\ Mongo.validate doc = true
       /\ Mongo.key doc = Mongo.key old
       /\ Mongo.type doc = Mongo.type old
       /\ Mongo.counter doc = Mongo.counter old
       /\ Mongo.name doc
          = (if JS.falsy_str (Mongo.r_name req) then Mongo.name old
             else JS.trim (JS.default (Mongo.r_name req) ""))
       /\ Mongo.digits doc = JS.or_num (Mongo.r_digits req) (Mongo.digits old)
       /\ Mongo.period doc = JS.or_num (Mongo.r_period req) (Mongo.period old)
       /\ Mongo.algorithm doc
          = (if JS.falsy_str (Mongo.r_algorithm req) then Mongo.algorithm old
             else JS.toLowerCase (JS.toLowerCase (JS.default (Mongo.r_algorithm req) ""))))
  \/ (status res = 404 /\ Mongo.findByKey (Mongo.db s) k = None /\ s' = s)
  \/ (status res = 500 /\ Mongo.findByKey (Mongo.db s) k <> None
      /\ Mongo.db s' = Mongo.db s).
Proof.
  unfold Mongo.PUT_api_accounts.
  destruct (Mongo.findByKey (Mongo.db s) k) as [old |] eqn:Hf.
  2: { right. left. repeat split. }
  destruct (Mongo.assign KEY req old (Mongo.random s)) as [assigned g] eqn:Ha.
  destruct assigned as [doc | e]; cbn [bind].
  2: { right. right. repeat split. discriminate. }
  unfold Mongo.save_modified.
  destruct (Mongo.validate doc) eqn:Hv; cbn [bind].
  2: { right. right. repeat split. discriminate. }
  left. split; [reflexivity |]. exists old, doc.
  split; [reflexivity |]. split; [reflexivity |]. split; [exact Hv |].
  unfold Mongo.assign in Ha.
  destruct (JS.falsy_str (Mongo.r_secret req)).
  - injection Ha as <- _. cbn. repeat split.
  - destruct (Mongo.stored_secret _ _ _ _) as [[stored | e] g'];
      cbn [bind] in Ha; [| discriminate].
    injection Ha as <- _. cbn. repeat split.
Qed.

Lemma valid_algorithm_In (a : string) :
  Mongo.valid_algorithm a = true <-> In a ["sha1"; "sha256"; "sha512"].
Proof.
  unfold Mongo.valid_algorithm. rewrite existsb_exists. split.
  - intros (x & Hx & ->%String.eqb_eq). exact Hx.
  - intros H. exists a. split; [exact H | apply String.eqb_refl].
Qed.

Lemma valid_type_In (t : string) :
  Mongo.valid_type t = true <-> In t ["totp"; "hotp"].
Proof.
  unfold Mongo.valid_type. rewrite existsb_exists. split.
  - intros (x & Hx & ->%String.eqb_eq). exact Hx.
  - intros H. exists t. split; [exact H | apply String.eqb_refl].
Qed.

Lemma valid_store_insert (db : gmap string Mongo.Account) (k : string)
    (doc : Mongo.Account) :
  Mongo.valid_store db -> Mongo.validate doc = true ->
  Mongo.valid_store (<[k := doc]> db).
Proof.
  intros Hdb Hdoc k' doc' H. destruct (decide (k = k')) as [<- | Hne].
  - rewrite lookup_insert_eq in H. now injection H as <-.
  - rewrite lookup_insert_ne in H by assumption. eauto.
Qed.

(** Past its own checks, a creation is answered 201 or 500. *)
Lemma Mongo_POST_past_checks (now : Z) (req : Mongo.account_fields) (s : Mongo.state) :
  JS.falsy_str (Mongo.r_key req) = false ->
  JS.falsy_str (Mongo.r_secret req) = false ->
  Mongo.findByKey (Mongo.db s) (JS.default (Mongo.r_key req) "") = None ->
  is_Ok (Mongo.validation speakeasy now req) = true ->
  status (fst (Mongo.POST_api_accounts speakeasy KEY now req s)) = 201
  \/ status (fst (Mongo.POST_api_accounts speakeasy KEY now req s)) = 500.
Proof.
  intros Hk Hs Hf Hv. unfold Mongo.POST_api_accounts, Mongo.validation in *.
  rewrite Hk, Hs, Hf. cbn [orb].
  destruct (totp speakeasy _ now) as [tok | e]; [| discriminate].
  destruct (Mongo.stored_secret _ _ _ _) as [[stored | e] g]; cbn [bind];
    [| right; reflexivity].
  destruct (Mongo.save_new _ _) as [db' | e]; cbn [bind];
    [left | right]; reflexivity.
Qed.

(** C4, as the code has it.  In the MongoDB-backed service a creation or
    update request that carries a non-zero [digits] outside 6..8, a non-zero
    [period] outside 15..60, an [algorithm] that in lower case is not one of
    the three, or at creation a [type] that in lower case is not one of the
    two, is refused and leaves the collection as it was: past the checks of
    the route it is the validators of the schema that refuse it, and the
    answer is the route's server error, 500 (404 for an update of a key that
    is not there).  A creation that succeeds stores the non-zero values of
    the request as they are and the defaults for a zero or an empty string;
    an update that succeeds stores the non-zero values and leaves a field
    as it is for a zero or an empty string; the collection never holds a
    document outside the ranges. *)
Theorem C4_schema_rejects_out_of_range (now : Z) (k : string)
    (req : Mongo.account_fields) (s : Mongo.state) :
  (Mongo.digits_out_of_range req \/ Mongo.period_out_of_range req
   \/ Mongo.algorithm_unknown req \/ Mongo.type_unknown req ->
   status (fst (Mongo.POST_api_accounts speakeasy KEY now req s)) <> 201
   /\ Mongo.db (snd (Mongo.POST_api_accounts speakeasy KEY now req s)) = Mongo.db s)
  /\ (Mongo.digits_out_of_range req \/ Mongo.period_out_of_range req
      \/ Mongo.algorithm_unknown req ->
      status (fst (Mongo.PUT_api_accounts KEY k req s))
      = match Mongo.findByKey (Mongo.db s) k with
        | None => 404
        | Some _ => 500
        end
      /\ Mongo.db (snd (Mongo.PUT_api_accounts KEY k req s)) = Mongo.db s)
  /\ (status (fst (Mongo.POST_api_accounts speakeasy KEY now req s)) = 201 ->
      exists doc,
        Mongo.db (snd (Mongo.POST_api_accounts speakeasy KEY now req s))
          !! JS.trim (JS.default (Mongo.r_key req) "") = Some doc
        /\ Mongo.digits doc = JS.or_num (Mongo.r_digits req) 6
        /\ Mongo.period doc = JS.or_num (Mongo.r_period req) 30
        /\ Mongo.algorithm doc = JS.toLowerCase (JS.or_str (Mongo.r_algorithm req) "sha1")
        /\ Mongo.type doc = JS.toLowerCase (JS.or_str (Mongo.r_type req) "totp")
        /\ (Mongo.r_digits req = Some 0 -> Mongo.digits doc = 6)
        /\ (Mongo.r_period req = Some 0 -> Mongo.period doc = 30)
        /\ (Mongo.r_algorithm req = Some "" -> Mongo.algorithm doc = "sha1")
        /\ (Mongo.r_type req = Some "" -> Mongo.type doc = "totp"))
  /\ (status (fst (Mongo.PUT_api_accounts KEY k req s)) = 200 ->
      exists old doc,
        Mongo.findByKey (Mongo.db s) k = Some old
        /\ Mongo.db (snd (Mongo.PUT_api_accounts KEY k req s)) !! Mongo.key old = Some doc
        /\ Mongo.validate doc = true
        /\ Mongo.digits doc = JS.or_num (Mongo.r_digits req) (Mongo.digits old)
        /\ Mongo.period doc = JS.or_num (Mongo.r_period req) (Mongo.period old)
        /\ Mongo.algorithm doc
           = (if JS.falsy_str (Mongo.r_algorithm req) then Mongo.algorithm old
              else JS.toLowerCase (JS.default (Mongo.r_algorithm req) ""))
        /\ Mongo.type doc = Mongo.type old
        /\ (Mongo.r_digits req = Some 0 -> Mongo.digits doc = Mongo.digits old)
        /\ (Mongo.r_period req = Some 0 -> Mongo.period doc = Mongo.period old)
        /\ (Mongo.r_algorithm req = Some "" ->
            Mongo.algorithm doc = Mongo.algorithm old))
  /\ (Mongo.valid_store (Mongo.db s) ->
      Mongo.valid_store (Mongo.db (snd (Mongo.POST_api_accounts speakeasy KEY now req s)))
      /\ Mongo.valid_store (Mongo.db (snd (Mongo.PUT_api_accounts KEY k req s))))
  /\ (Mongo.digits_out_of_range req \/ Mongo.period_out_of_range req
      \/ Mongo.algorithm_unknown req \/ Mongo.type_unknown req ->
      JS.falsy_str (Mongo.r_key req) = false ->
      JS.falsy_str (Mongo.r_secret req) = false ->
      Mongo.findByKey (Mongo.db s) (JS.default (Mongo.r_key req) "") = None ->
      is_Ok (Mongo.validation speakeasy now req) = true ->
      status (fst (Mongo.POST_api_accounts speakeasy KEY now req s)) = 500).
Proof.
  pose proof (Mongo_POST_past_checks now req s) as H500.
  pose proof (Mongo_POST_outcome speakeasy KEY now req s) as HP.
  pose proof (Mongo_PUT_outcome k req s) as HU.
  destruct (Mongo.POST_api_accounts speakeasy KEY now req s) as [res s1].
  destruct (Mongo.PUT_api_accounts KEY k req s) as [res' s2].
  cbn [fst snd].
  assert (Hcreate : Mongo.digits_out_of_range req \/ Mongo.period_out_of_range req
                    \/ Mongo.algorithm_unknown req \/ Mongo.type_unknown req ->
                    status res <> 201 /\ Mongo.db s1 = Mongo.db s);
    [| split; [exact Hcreate | split; [| split; [| split; [| split]]]]].
  - intros Hbad.
    destruct HP as [(_ & _ & _ & _ & _ & doc & _ & Hval & Hd & Hp & Ha & Ht & _) | (? & ? & _)];
      [exfalso | now split].
    apply validate_fields in Hval.
    destruct Hval as (_ & _ & _ & Vd & Vp & Va & Vt).
    destruct Hbad as [(d & Hr & Hz & Hn) | [(p & Hr & Hz & Hn) | [(a & Hr & Hz & Hn) | (t & Hr & Hz & Hn)]]].
    + rewrite Hd, Hr, or_num_Some in Vd by assumption.
      now apply valid_digits_spec in Vd.
    + rewrite Hp, Hr, or_num_Some in Vp by assumption.
      now apply valid_period_spec in Vp.
    + rewrite Ha, Hr, or_str_Some, toLowerCase_idempotent in Va by assumption.
      now apply valid_algorithm_In in Va.
    + rewrite Ht, Hr, or_str_Some in Vt by assumption.
      now apply valid_type_In in Vt.
  - intros Hbad.
    destruct HU as [(_ & old & doc & _ & _ & Hval & _ & _ & _ & _ & Hd & Hp & Ha)
                   | [(-> & -> & ->) | (-> & Hf & ->)]].
    + exfalso. apply validate_fields in Hval.
      destruct Hval as (_ & _ & _ & Vd & Vp & Va & _).
      destruct Hbad as [(d & Hr & Hz & Hn) | [(p & Hr & Hz & Hn) | (a & Hr & Hz & Hn)]].
      * rewrite Hd, Hr, or_num_Some in Vd by assumption.
        now apply valid_digits_spec in Vd.
      * rewrite Hp, Hr, or_num_Some in Vp by assumption.
        now apply valid_period_spec in Vp.
      * rewrite Ha, Hr, falsy_str_Some in Va by assumption. cbn [JS.default] in Va.
        rewrite toLowerCase_idempotent in Va. now apply valid_algorithm_In in Va.
    + split; reflexivity.
    + destruct (Mongo.findByKey (Mongo.db s) k); [split; reflexivity | contradiction].
  - intros H201.
    destruct HP as [(_ & _ & _ & _ & _ & doc & Hk & _ & Hd & Hp & Ha & Ht & _ & ->) | (? & _)];
      [| contradiction].
    exists doc. rewrite <- Hk, lookup_insert_eq.
    rewrite toLowerCase_idempotent in Ha.
    split; [reflexivity |]. split; [exact Hd |]. split; [exact Hp |].
    split; [exact Ha |]. split; [exact Ht |].
    split; [intros E; now rewrite Hd, E |]. split; [intros E; now rewrite Hp, E |].
    split; intros E; [now rewrite Ha, E | now rewrite Ht, E].
  - intros H200.
    destruct HU as [(_ & old & doc & Hf & -> & Hval & _ & Ht & _ & _ & Hd & Hp & Ha)
                   | [(E & _) | (E & _)]]; [| congruence | congruence].
    exists old, doc. rewrite lookup_insert_eq.
    rewrite toLowerCase_idempotent in Ha.
    split; [exact Hf |]. split; [reflexivity |]. split; [exact Hval |].
    split; [exact Hd |]. split; [exact Hp |]. split; [exact Ha |]. split; [exact Ht |].
    split; [intros E; now rewrite Hd, E |]. split; [intros E; now rewrite Hp, E |].
    intros E. now rewrite Ha, E.
  - intros Hstore. split.
    + destruct HP as [(_ & _ & _ & _ & _ & doc & _ & Hval & _ & _ & _ & _ & _ & ->) | (_ & -> & _)];
        [| exact Hstore].
      now apply valid_store_insert.
    + destruct HU as [(_ & old & doc & _ & -> & Hval & _) | [(_ & _ & ->) | (_ & _ & ->)]];
        [| exact Hstore | exact Hstore].
      now apply valid_store_insert.
  - intros Hbad Hk Hs Hf Hv.
    destruct (H500 Hk Hs Hf Hv) as [H | H]; [| exact H].
    destruct (Hcreate Hbad) as [Hne _]. contradiction.
Qed.

End Ranges.

(** C4, as the specification words it, does not hold: a creation request
    with [digits] and [period] zero is answered 201 and stored with the
    defaults, and the in-memory service stores what it is given. *)
Lemma C4_counterexample :
  (let req := {| Mongo.r_key := Some "mail"%string; Mongo.r_name := None;
                 Mongo.r_secret := Some "JBSWY3DPEHPK3PXP"%string;
                 Mongo.r_digits := Some 0%Z; Mongo.r_period := Some 0%Z;
                 Mongo.r_algorithm := None; Mongo.r_type := None;
                 Mongo.r_counter := None; Mongo.r_encrypt := None |} in
   let '(res, s') :=
     Mongo.POST_api_accounts Sample.speakeasy Sample.hex_key 0 req
       {| Mongo.db := ∅; Mongo.random := Sample.zeros |} in
   status res = 201%Z
   /\ Mongo.digits <$> (Mongo.db s' !! "mail"%string) = Some 6%Z
   /\ Mongo.period <$> (Mongo.db s' !! "mail"%string) = Some 30%Z)
  /\ (let req := {| Fixed.r_key := Some "mail"%string; Fixed.r_name := None;
                    Fixed.r_secret := Some "JBSWY3DPEHPK3PXP"%string;
                    Fixed.r_digits := Some 99%Z; Fixed.r_period := Some 7%Z;
                    Fixed.r_type := Some "xotp"%string;
                    Fixed.r_algorithm := Some "md5"%string;
                    Fixed.r_encrypt := Some false |} in
      let '(res, s') :=
        Fixed.POST_api_accounts Sample.speakeasy None 0 req
          {| Fixed.accounts := ∅; Fixed.random := Sample.zeros |} in
      status res = 201%Z
      /\ Fixed.digits <$> (Fixed.accounts s' !! "mail"%string) = Some 99%Z
      /\ Fixed.period <$> (Fixed.accounts s' !! "mail"%string) = Some 7%Z
      /\ Fixed.type <$> (Fixed.accounts s' !! "mail"%string) = Some "xotp"%string
      /\ Fixed.algorithm <$> (Fixed.accounts s' !! "mail"%string) = Some "md5"%string).
Proof.
  split; vm_compute; repeat split; reflexivity.
Qed.

(* ===================================================================== *)
(** * Provisioning URIs *)
(* ===================================================================== *)

Section OTPAuthURI.

Local Open Scope string_scope.

Context {number : Type} (Number : OTPAuth.primitive -> number).

Lemma split_no_separator (c : ascii) (s : string) :
  JS.includes c s = false -> JS.split c s = [s].
Proof.
  induction s as [| a s IH]; [reflexivity |]. cbn [JS.includes JS.split].
  intros [Ha Hs]%orb_false_iff. rewrite Ha, (IH Hs). reflexivity.
Qed.

Lemma split_at_separator (c : ascii) (a b : string) :
  JS.includes c a = false ->
  JS.split c (a ++ String c b) = a :: JS.split c b.
Proof.
  induction a as [| x a IH]; intros H.
  - change ("" ++ String c b) with (String c b). cbn [JS.split].
    now rewrite Ascii.eqb_refl.
  - cbn [JS.includes] in H. apply orb_false_iff in H as [Hx Ha].
    rewrite append_String. cbn [JS.split]. rewrite Hx, (IH Ha). reflexivity.
Qed.

Lemma includes_append (c : ascii) (a b : string) :
  JS.includes c (a ++ String c b) = true.
Proof.
  induction a as [| x a IH].
  - change ("" ++ String c b) with (String c b). cbn [JS.includes].
    now rewrite Ascii.eqb_refl.
  - rewrite append_String. cbn [JS.includes]. rewrite IH. apply orb_true_r.
Qed.

(** C7, as the code has it.  [parseOTPAuth] throws when the text does not
    begin with [otpauth://], and when the query has no [secret] or an empty
    one.  Otherwise the label is the percent-decoded path; the account name
    is the label when it has no colon and its second colon-separated segment
    when it has one; the issuer is the [issuer] parameter when that is
    present and not empty, and the first colon-separated segment of the
    label, which is the whole label when it has no colon, when it is not. *)
Theorem C7_parseOTPAuth (url : string) :
  (JS.startsWith "otpauth://" url = false ->
   OTPAuth.parseOTPAuth Number url = Throw Invalid_OTP_Auth_URL)
  /\ (forall u : URL.t,
      URL.parse url = Ok u ->
      JS.falsy_str (URL.get (URL.URLSearchParams (URL.search u)) "secret") = true ->
      is_Ok (OTPAuth.parseOTPAuth Number url) = false
      /\ (is_Ok (URL.decodeURIComponent (JS.substring1 (URL.pathname u))) = true ->
          OTPAuth.parseOTPAuth Number url = Throw Secret_not_found))
  /\ (forall r : OTPAuth.parsed,
      OTPAuth.parseOTPAuth Number url = Ok r ->
      exists (u : URL.t) (label : string),
        URL.parse url = Ok u
        /\ URL.decodeURIComponent (JS.substring1 (URL.pathname u)) = Ok label
        /\ URL.get (URL.URLSearchParams (URL.search u)) "secret" = Some (OTPAuth.secret r)
        /\ OTPAuth.secret r <> ""
        /\ OTPAuth.issuer r
           = JS.or_str (URL.get (URL.URLSearchParams (URL.search u)) "issuer")
                       (nth 0 (JS.split ":" label) "")
        /\ (JS.includes ":" label = false ->
            OTPAuth.accountName r = label /\ nth 0 (JS.split ":" label) "" = label)
        /\ (forall a b : string,
               label = a ++ ":" ++ b -> JS.includes ":" a = false ->
               nth 0 (JS.split ":" label) "" = a
               /\ OTPAuth.accountName r = nth 0 (JS.split ":" b) ""
               /\ (JS.includes ":" b = false -> OTPAuth.accountName r = b))).
Proof.
  split; [| split].
  - intros H. unfold OTPAuth.parseOTPAuth. now rewrite H.
  - intros u Hu Hs. unfold OTPAuth.parseOTPAuth.
    assert (Hstart : JS.startsWith "otpauth://" url = true).
    { unfold URL.parse in Hu.
      destruct (JS.startsWith "otpauth://" url); [reflexivity | discriminate]. }
    rewrite Hstart, Hu. cbn [negb bind].
    destruct (URL.decodeURIComponent _) as [label | e]; cbn [bind].
    + rewrite Hs. split; reflexivity.
    + split; [reflexivity | discriminate].
  - intros r. unfold OTPAuth.parseOTPAuth.
    destruct (JS.startsWith "otpauth://" url); cbn [negb]; [| discriminate].
    destruct (URL.parse url) as [u | e] eqn:Hu; cbn [bind]; [| discriminate].
    destruct (URL.decodeURIComponent _) as [label | e] eqn:Hl; cbn [bind];
      [| discriminate].
    destruct (JS.falsy_str _) eqn:Hs; [discriminate |].
    intros [= <-]. cbn.
    destruct (falsy_str_inv _ Hs) as (secret & Hsec & Hne).
    exists u, label. rewrite Hsec. cbn [JS.default].
    split; [reflexivity |]. split; [exact Hl |]. split; [reflexivity |].
    split; [exact Hne |]. split; [reflexivity |]. split.
    + intros Hc. rewrite Hc, (split_no_separator _ _ Hc). split; reflexivity.
    + intros a b -> Ha.
      change (":" ++ b) with (String ":" b).
      rewrite includes_append, (split_at_separator _ _ _ Ha). cbn [nth].
      split; [reflexivity |]. split.
      * pose proof (split_nonempty ":" b) as Hb.
        destruct (JS.split ":" b); [contradiction | reflexivity].
      * intros Hb. now rewrite (split_no_separator _ _ Hb).
Qed.

End OTPAuthURI.

(** C7, as the specification words it, does not hold: with neither a colon
    in the label nor an [issuer] parameter the issuer is the label, not
    undefined; and of a label with two colons the account name is the middle
    segment only. *)
Lemma C7_counterexample :
  (exists r,
      OTPAuth.parseOTPAuth (fun p => p) "otpauth://totp/alice?secret=JBSWY3DPEHPK3PXP"
      = Ok r
      /\ OTPAuth.issuer r = "alice"%string
      /\ OTPAuth.accountName r = "alice"%string)
  /\ (exists r,
      OTPAuth.parseOTPAuth (fun p => p)
        "otpauth://totp/Acme:alice:work?secret=JBSWY3DPEHPK3PXP"
      = Ok r
      /\ OTPAuth.issuer r = "Acme"%string
      /\ OTPAuth.accountName r = "alice"%string).
Proof.
  split; eexists; (split; [vm_compute; reflexivity |]); split; reflexivity.
Qed.

(* ===================================================================== *)
(** * The statements above, at concrete requests *)
(* ===================================================================== *)

Local Open Scope Z_scope.
Local Open Scope string_scope.

Example normalizeBase32_example : Fixed.normalizeBase32 " ab cd " = "ABCD".
Proof. reflexivity. Qed.

Example parseOTPAuth_example :
  OTPAuth.parseOTPAuth (fun p => p) Sample.uri = Ok Sample.uri_parsed.
Proof. vm_compute. reflexivity. Qed.

(** One request for all codes, for the debug view or for one code moves
    the counter of the account ["vpn"] from nothing to 1. *)
Lemma C10_reads_advance_hotp_counters_witness :
  let after :=
    {| Fixed.name := "vpn"; Fixed.secret := "JBSWY3DPEHPK3PXP";
       Fixed.encrypted := false; Fixed.digits := 6; Fixed.period := 30;
       Fixed.type := "hotp"; Fixed.algorithm := "sha1"; Fixed.addedAt := 0;
       Fixed.counter := Some 1 |} in
  Fixed.accounts (snd (Fixed.GET_api_codes Sample.speakeasy None 0 Sample.memory)) !! "vpn"
  = Some after
  /\ Fixed.accounts (snd (Fixed.GET_api_debug Sample.speakeasy None 0 "vpn" Sample.memory))
       !! "vpn"
     = Some after
  /\ Fixed.accounts (snd (Fixed.GET_api_code Sample.speakeasy None 0 "vpn" Sample.memory))
       !! "vpn"
     = Some after
  /\ Fixed.counter_value after = Fixed.counter_value Sample.hotp_account + 1
  /\ Fixed.set_counter Sample.hotp_account 1 = after.
Proof.
  apply (C10_reads_advance_hotp_counters Sample.speakeasy None 0 Sample.memory "vpn"
           Sample.hotp_account (Fixed.set_counter Sample.hotp_account 1) Sample.issued).
  - vm_compute. reflexivity.
  - reflexivity.
  - vm_compute. split; [discriminate | reflexivity].
  - vm_compute. reflexivity.
Defined.

(** At second 59 of a 30-second step one second is left; at 59.6 seconds
    [src/server.js] answers with a whole step. *)
Lemma C8_time_remaining_witness :
  (exists t, Fixed.timeRemaining Sample.totp_issued = Some t
             /\ t = 30 - (59000 / 1000) mod 30
             /\ 1 <= t <= 30
             /\ (t = 30 <-> (30 | 59000 / 1000)))
  /\ (exists t,
        field "timeRemaining"
              (body (fst (Mongo.GET_api_code Sample.speakeasy Sample.hex_key 59600 "mail"
                            Sample.collection)))
        = Some (JS.JNum t)
        /\ field "expiresAt"
                 (body (fst (Mongo.GET_api_code Sample.speakeasy Sample.hex_key 59600 "mail"
                               Sample.collection)))
           = Some (JS.JNum (59600 + t * 1000))
        /\ 1 <= t <= 30
        /\ (59600 mod 1000 < 500 -> t = 30 - (59600 / 1000) mod 30)
        /\ (500 <= 59600 mod 1000 ->
            t = 30 - (59600 / 1000 + 1) mod 30
            /\ t <> 30 - (59600 / 1000) mod 30)).
Proof.
  split.
  - apply (proj1 (C8_time_remaining Sample.speakeasy 59000 30 ltac:(lia) ltac:(lia))
             None Sample.totp_account Sample.totp_account Sample.totp_issued).
    + reflexivity.
    + discriminate.
    + vm_compute. reflexivity.
  - apply (proj2 (C8_time_remaining Sample.speakeasy 59600 30 ltac:(lia) ltac:(lia))
             Sample.hex_key "mail" Sample.collection Sample.mongo_totp_account).
    + reflexivity.
    + vm_compute. reflexivity.
    + vm_compute. reflexivity.
Defined.

(** A second creation of ["mail"] is answered 409 and changes nothing, in
    either service. *)
Lemma C5_duplicate_key_rejected_witness :
  Fixed.POST_api_accounts Sample.speakeasy None 0 Sample.again Sample.memory
  = (json 409 (JS.JObj [("error", JS.JStr "Account exists")]), Sample.memory)
  /\ Mongo.POST_api_accounts Sample.speakeasy Sample.hex_key 0 Sample.mongo_again
       Sample.collection
     = (json 409 (JS.JObj [("error", JS.JStr "Account already exists")]),
        Sample.collection).
Proof.
  split.
  - apply (proj1 (C5_duplicate_key_rejected Sample.speakeasy) None 0 Sample.again
             Sample.memory "mail" "GEZDGNBVGY3TQOJQ" Sample.totp_account).
    + reflexivity.
    + discriminate.
    + reflexivity.
    + discriminate.
    + vm_compute. reflexivity.
  - apply (proj1 (proj2 (proj2 (proj2 (C5_duplicate_key_rejected Sample.speakeasy))))
             Sample.hex_key 0 Sample.mongo_again Sample.collection
             "mail" "GEZDGNBVGY3TQOJQ" Sample.mongo_totp_account).
    + reflexivity.
    + discriminate.
    + reflexivity.
    + discriminate.
    + vm_compute. reflexivity.
Defined.


(** The sample envelope decrypts: it has the shape the statement gives. *)
Lemma C3_decrypt_all_or_nothing_witness :
  exists (ivHex ctHex : string) (rest : list string) (plain : list byte) (n : nat),
    JS.split ":" Sample.envelope = ivHex :: ctHex :: rest
    /\ length (Fixed.ENCRYPTION_KEY None) = 32%nat
    /\ length (Buffer.from_hex ivHex) = 16%nat
    /\ (0 < length (Buffer.from_hex ctHex))%nat
    /\ (length (Buffer.from_hex ctHex) mod 16 = 0)%nat
    /\ (1 <= n <= 16)%nat
    /\ Crypto.bytes_of_blocks
         (Crypto.cbc_decrypt (AES.KeyExpansion (Fixed.ENCRYPTION_KEY None))
            (Crypto.block_of_iv (Buffer.from_hex ivHex))
            (Crypto.blocks_of_bytes (Buffer.from_hex ctHex)))
       = (plain ++ repeat (byte_of_nat n) n)%list
    /\ "JBSWY3DPEHPK3PXP" = Buffer.toString_utf8 plain.
Proof.
  apply (proj1 C3_decrypt_all_or_nothing (Fixed.ENCRYPTION_KEY None) Sample.envelope).
  vm_compute. reflexivity.
Defined.

(** Nine digits are refused at creation, with status 500, and an unknown
    algorithm is refused at update, with status 500 too; an update with
    zeros and an empty algorithm changes the name and nothing else. *)
Lemma C4_schema_rejects_out_of_range_witness :
  (status (fst (Mongo.POST_api_accounts Sample.speakeasy Sample.hex_key 0
                  Sample.nine_digits Sample.empty_collection)) <> 201
   /\ Mongo.db (snd (Mongo.POST_api_accounts Sample.speakeasy Sample.hex_key 0
                       Sample.nine_digits Sample.empty_collection))
      = Mongo.db Sample.empty_collection)
  /\ status (fst (Mongo.POST_api_accounts Sample.speakeasy Sample.hex_key 0
                    Sample.nine_digits Sample.empty_collection)) = 500
  /\ (status (fst (Mongo.PUT_api_accounts Sample.hex_key "mail" Sample.md5_update
                     Sample.collection)) = 500
      /\ Mongo.db (snd (Mongo.PUT_api_accounts Sample.hex_key "mail" Sample.md5_update
                          Sample.collection))
         = Mongo.db Sample.collection)
  /\ (exists old doc,
        Mongo.findByKey (Mongo.db Sample.collection) "mail" = Some old
        /\ Mongo.db (snd (Mongo.PUT_api_accounts Sample.hex_key "mail" Cases.zero_update
                            Sample.collection)) !! Mongo.key old = Some doc
        /\ Mongo.digits doc = Mongo.digits old
        /\ Mongo.period doc = Mongo.period old
        /\ Mongo.algorithm doc = Mongo.algorithm old).
Proof.
  assert (Hnine : Mongo.digits_out_of_range Sample.nine_digits).
  { exists 9. split; [reflexivity |]. split; lia. }
  assert (Hmd5 : Mongo.algorithm_unknown Sample.md5_update).
  { exists "MD5". split; [reflexivity |]. split; [discriminate |].
    vm_compute. intros [H | [H | [H | []]]]; discriminate. }
  split; [| split; [| split]].
  - apply (proj1 (C4_schema_rejects_out_of_range Sample.speakeasy Sample.hex_key 0 "mail"
                    Sample.nine_digits Sample.empty_collection)).
    left. exact Hnine.
  - apply (proj2 (proj2 (proj2 (proj2 (proj2
             (C4_schema_rejects_out_of_range Sample.speakeasy Sample.hex_key 0 "mail"
                Sample.nine_digits Sample.empty_collection)))))).
    + left. exact Hnine.
    + reflexivity.
    + reflexivity.
    + vm_compute. reflexivity.
    + reflexivity.
  - exact (proj1 (proj2 (C4_schema_rejects_out_of_range Sample.speakeasy Sample.hex_key
                           0 "mail" Sample.md5_update Sample.collection))
                 (or_intror (or_intror Hmd5))).
  - destruct (proj1 (proj2 (proj2 (proj2
                (C4_schema_rejects_out_of_range Sample.speakeasy Sample.hex_key 0 "mail"
                   Cases.zero_update Sample.collection))))
                ltac:(vm_compute; reflexivity))
      as (old & doc & Hf & Hl & _ & _ & _ & _ & _ & Hd & Hp & Ha).
    exists old, doc. split; [exact Hf |]. split; [exact Hl |].
    split; [now apply Hd |]. split; [now apply Hp | now apply Ha].
Defined.

(** A URL of another scheme is refused, a URL without a secret is refused,
    and the URI of the specification parses as the statement says. *)
Lemma C7_parseOTPAuth_witness :
  OTPAuth.parseOTPAuth (fun p => p) "https://example.com/alice?secret=JBSWY3DPEHPK3PXP"
  = Throw Invalid_OTP_Auth_URL
  /\ OTPAuth.parseOTPAuth (fun p => p) "otpauth://totp/alice?issuer=Acme"
     = Throw Secret_not_found
  /\ exists (u : URL.t) (label : string),
       URL.parse Sample.uri = Ok u
       /\ URL.decodeURIComponent (JS.substring1 (URL.pathname u)) = Ok label
       /\ URL.get (URL.URLSearchParams (URL.search u)) "secret"
          = Some (OTPAuth.secret Sample.uri_parsed)
       /\ OTPAuth.secret Sample.uri_parsed <> ""
       /\ OTPAuth.issuer Sample.uri_parsed
          = JS.or_str (URL.get (URL.URLSearchParams (URL.search u)) "issuer")
                      (nth 0 (JS.split ":" label) "")
       /\ (JS.includes ":" label = false ->
           OTPAuth.accountName Sample.uri_parsed = label
           /\ nth 0 (JS.split ":" label) "" = label)
       /\ (forall a b : string,
              label = a ++ ":" ++ b -> JS.includes ":" a = false ->
              nth 0 (JS.split ":" label) "" = a
              /\ OTPAuth.accountName Sample.uri_parsed = nth 0 (JS.split ":" b) ""
              /\ (JS.includes ":" b = false -> OTPAuth.accountName Sample.uri_parsed = b)).
Proof.
  split; [| split].
  - apply (proj1 (C7_parseOTPAuth (fun p => p)
                    "https://example.com/alice?secret=JBSWY3DPEHPK3PXP")).
    reflexivity.
  - apply (proj1 (proj2 (C7_parseOTPAuth (fun p => p) "otpauth://totp/alice?issuer=Acme"))
             {| URL.host := "totp"; URL.pathname := "/alice";
                URL.search := "?issuer=Acme" |}).
    + vm_compute. reflexivity.
    + vm_compute. reflexivity.
    + vm_compute. reflexivity.
  - apply (proj2 (proj2 (C7_parseOTPAuth (fun p => p) Sample.uri)) Sample.uri_parsed).
    vm_compute. reflexivity.
Defined.

(* ===================================================================== *)
(** * Beyond the specification: secrets and envelopes *)
(* ===================================================================== *)

Section Normalisation.

Local Open Scope string_scope.

Lemma upper_idempotent (c : ascii) : JS.upper (JS.upper c) = JS.upper c.
Proof.
  destruct c as [[] [] [] [] [] [] [] []]; reflexivity.
Qed.

Lemma is_space_upper (c : ascii) : JS.is_space (JS.upper c) = JS.is_space c.
Proof.
  destruct c as [[] [] [] [] [] [] [] []]; reflexivity.
Qed.

Lemma remove_spaces_toUpperCase (s : string) :
  JS.remove_spaces (JS.toUpperCase s) = JS.toUpperCase (JS.remove_spaces s).
Proof.
  induction s as [|c s IH]; [reflexivity|].
  change (JS.toUpperCase (String c s)) with (String (JS.upper c) (JS.toUpperCase s)).
  cbn [JS.remove_spaces]. rewrite is_space_upper.
  destruct (JS.is_space c); [exact IH|].
  change (JS.toUpperCase (String c (JS.remove_spaces s)))
    with (String (JS.upper c) (JS.toUpperCase (JS.remove_spaces s))).
  now rewrite IH.
Qed.

Lemma remove_spaces_idempotent (s : string) :
  JS.remove_spaces (JS.remove_spaces s) = JS.remove_spaces s.
Proof.
  induction s as [|c s IH]; [reflexivity|].
  cbn [JS.remove_spaces]. destruct (JS.is_space c) eqn:E; [exact IH|].
  cbn [JS.remove_spaces]. now rewrite E, IH.
Qed.

Lemma toUpperCase_idempotent (s : string) :
  JS.toUpperCase (JS.toUpperCase s) = JS.toUpperCase s.
Proof.
  induction s as [|c s IH]; [reflexivity|].
  change (JS.toUpperCase (String c s)) with (String (JS.upper c) (JS.toUpperCase s)).
  change (JS.toUpperCase (String (JS.upper c) (JS.toUpperCase s)))
    with (String (JS.upper (JS.upper c)) (JS.toUpperCase (JS.toUpperCase s))).
  now rewrite upper_idempotent, IH.
Qed.

Lemma normalizeBase32_idempotent (s : string) :
  Fixed.normalizeBase32 (Fixed.normalizeBase32 s) = Fixed.normalizeBase32 s.
Proof.
  unfold Fixed.normalizeBase32.
  now rewrite remove_spaces_toUpperCase, remove_spaces_idempotent,
    toUpperCase_idempotent.
Qed.

Lemma normalizeBase32_characters (s : string) (c : ascii) :
  JS.includes c (Fixed.normalizeBase32 s) = true ->
  JS.is_space c = false /\ JS.upper c = c.
Proof.
  unfold Fixed.normalizeBase32.
  induction s as [|a s IH]; [discriminate|].
  cbn [JS.remove_spaces]. destruct (JS.is_space a) eqn:E; [exact IH|].
  change (JS.toUpperCase (String a (JS.remove_spaces s)))
    with (String (JS.upper a) (JS.toUpperCase (JS.remove_spaces s))).
  cbn [JS.includes]. intros H. apply orb_true_iff in H as [H | H]; [|auto].
  apply Ascii.eqb_eq in H. subst c.
  now rewrite is_space_upper, upper_idempotent.
Qed.

Lemma upper_ascii (c : ascii) :
  Nat.ltb (nat_of_ascii c) 128 = true ->
  Nat.ltb (nat_of_ascii (JS.upper c)) 128 = true.
Proof.
  intros H. unfold JS.upper. cbv zeta.
  destruct (Nat.leb 97 (nat_of_ascii c) && Nat.leb (nat_of_ascii c) 122)%bool eqn:E;
    [|exact H].
  apply andb_prop in E. destruct E as [_ E2].
  apply Nat.leb_le in E2. apply Nat.ltb_lt in H. apply Nat.ltb_lt.
  rewrite nat_ascii_embedding; lia.
Qed.

Lemma normalizeBase32_ascii (s : string) :
  ascii_only s = true -> ascii_only (Fixed.normalizeBase32 s) = true.
Proof.
  unfold Fixed.normalizeBase32.
  induction s as [|a s IH]; [reflexivity|].
  cbn [ascii_only JS.remove_spaces]. intros H.
  apply andb_prop in H. destruct H as [Ha Hs].
  destruct (JS.is_space a); [exact (IH Hs)|].
  change (JS.toUpperCase (String a (JS.remove_spaces s)))
    with (String (JS.upper a) (JS.toUpperCase (JS.remove_spaces s))).
  cbn [ascii_only]. now rewrite (upper_ascii _ Ha), (IH Hs).
Qed.

(** X1.  On a string of ASCII characters [normalizeBase32] is a normal
    form: what it returns is a string of ASCII characters again, applying it
    twice is applying it once, and what it returns holds no white space and
    no lower-case letter.  So a secret and the same secret typed with blanks
    or in lower case are stored, and validated, as one string.  (Outside
    ASCII the expression [\s] and [toUpperCase] of JavaScript know more
    characters than this model, and nothing is stated.) *)
Theorem normalizeBase32_normal_form (s : string) (Hascii : ascii_only s = true) :
  ascii_only (Fixed.normalizeBase32 s) = true
  /\ Fixed.normalizeBase32 (Fixed.normalizeBase32 s) = Fixed.normalizeBase32 s
  /\ (forall c : ascii,
        JS.includes c (Fixed.normalizeBase32 s) = true ->
        JS.is_space c = false /\ JS.upper c = c)
  /\ (forall t : string,
        ascii_only t = true ->
        ascii_only (s ++ t) = true
        /\ Fixed.normalizeBase32 (s ++ t)
           = Fixed.normalizeBase32 s ++ Fixed.normalizeBase32 t).
Proof.
  split; [exact (normalizeBase32_ascii s Hascii)|].
  split; [apply normalizeBase32_idempotent|].
  split; [apply normalizeBase32_characters|].
  intros t Ht. split.
  { clear - Hascii Ht. induction s as [|a s IH]; [exact Ht|].
    rewrite append_String. cbn [ascii_only] in *.
    apply andb_prop in Hascii. destruct Hascii as [Ha Hs].
    now rewrite Ha, (IH Hs). }
  clear Hascii Ht. unfold Fixed.normalizeBase32.
  induction s as [|a s IH]; [reflexivity|].
  rewrite append_String. cbn [JS.remove_spaces].
  destruct (JS.is_space a); [exact IH|].
  change (JS.toUpperCase (String a (JS.remove_spaces (s ++ t))))
    with (String (JS.upper a) (JS.toUpperCase (JS.remove_spaces (s ++ t)))).
  rewrite IH. reflexivity.
Qed.

End Normalisation.

Section TrailingText.

Local Open Scope string_scope.

Lemma append_assoc (a b c : string) : (a ++ b) ++ c = a ++ b ++ c.
Proof.
  induction a as [|x a IH]; [reflexivity|].
  rewrite !append_String. now rewrite IH.
Qed.

Lemma length_append (a b : string) :
  String.length (a ++ b) = (String.length a + String.length b)%nat.
Proof.
  induction a as [|x a IH]; [reflexivity|].
  rewrite append_String. cbn [String.length]. now rewrite IH.
Qed.

Lemma from_hex_append (l : list byte) (s : string) :
  Buffer.from_hex (Buffer.toString_hex l ++ s) = (l ++ Buffer.from_hex s)%list.
Proof.
  induction l as [|b l IH]; [reflexivity|].
  cbn [Buffer.toString_hex]. rewrite !append_String, from_hex_cons, IH.
  reflexivity.
Qed.

Lemma from_hex_stops (s : string) : stops_hex s -> Buffer.from_hex s = [].
Proof.
  destruct s as [|c [|d s]]; cbn [stops_hex Buffer.from_hex]; intros H;
    [reflexivity | reflexivity | now rewrite H].
Qed.

Lemma split_hex_append (l : list byte) (s : string) :
  JS.split ":" (Buffer.toString_hex l ++ s)
  = match JS.split ":" s with
    | [] => [Buffer.toString_hex l]
    | p :: ps => (Buffer.toString_hex l ++ p) :: ps
    end.
Proof.
  induction l as [|b l IH].
  - cbn [Buffer.toString_hex]. change ("" ++ s) with s.
    destruct (JS.split ":" s) eqn:E; [now apply split_nonempty in E | reflexivity].
  - cbn [Buffer.toString_hex]. rewrite !append_String, split_hex_cons, IH.
    destruct (JS.split ":" s) as [|p ps]; [reflexivity|].
    now rewrite !append_String.
Qed.

Lemma split_head_stops (s : string) :
  stops_hex s -> stops_hex (nth 0 (JS.split ":" s) "").
Proof.
  destruct s as [|c s]; [exact (fun H => H)|].
  cbn [JS.split stops_hex]. intros H.
  destruct (Ascii.eqb c ":"); [exact I|].
  destruct (JS.split ":" s); exact H.
Qed.

Lemma join_split (s : string) : JS.join ":" (JS.split ":" s) = s.
Proof.
  induction s as [|c s IH]; [reflexivity|].
  cbn [JS.split]. destruct (Ascii.eqb c ":") eqn:E.
  - apply Ascii.eqb_eq in E. subst c.
    destruct (JS.split ":" s) as [|p ps] eqn:S; [now apply split_nonempty in S|].
    cbn [JS.join]. cbn [JS.join] in IH. rewrite IH. reflexivity.
  - destruct (JS.split ":" s) as [|p ps] eqn:S; [now apply split_nonempty in S|].
    destruct ps as [|q ps].
    + cbn [JS.join] in *. now rewrite IH.
    + cbn [JS.join] in *. rewrite append_String, IH. reflexivity.
Qed.

Lemma Fixed_decrypt_trailing (KEY : list byte) (text envelope junk : string)
    (g : entropy) :
  stops_hex junk ->
  fst (Fixed.encrypt KEY text g) = Ok envelope ->
  Fixed.decrypt KEY (envelope ++ junk) = Ok text.
Proof.
  intros Hj H. apply Fixed_encrypt_shape in H as (ct & Hc & ->).
  rewrite !append_assoc. unfold Fixed.decrypt.
  rewrite split_toString_hex, split_hex_append.
  pose proof (split_head_stops junk Hj) as Hp.
  destruct (JS.split ":" junk) as [|p ps] eqn:S; [now apply split_nonempty in S|].
  cbn [nth nth_error] in *.
  rewrite from_hex_toString_hex, from_hex_append, (from_hex_stops p Hp), app_nil_r.
  rewrite (cipher_check _ _ _ _ Hc). unfold bind.
  rewrite (decipher_cipher _ _ _ _ Hc). now rewrite toString_utf8_from_utf8.
Qed.

Lemma Mongo_decrypt_trailing (KEY text envelope junk : string) (g : entropy) :
  stops_hex junk ->
  fst (Mongo.encrypt KEY text g) = Ok envelope ->
  Mongo.decrypt KEY (envelope ++ junk) = Ok text.
Proof.
  intros Hj H. apply Mongo_encrypt_shape in H as (ct & Hc & ->).
  rewrite !append_assoc. unfold Mongo.decrypt.
  rewrite split_toString_hex. cbn [nth tl].
  rewrite join_split, from_hex_toString_hex, from_hex_append,
    (from_hex_stops junk Hj), app_nil_r.
  unfold bind. rewrite (decipher_cipher _ _ _ _ Hc).
  now rewrite toString_utf8_from_utf8.
Qed.

(** X2.  [decrypt] does not read an envelope to its end.  Text appended to
    what [encrypt] returned is ignored as soon as it starts outside the
    hexadecimal digits, a further colon included: the same secret comes
    out.  This holds for the destructuring [split] of
    [src/server-backup.js] and for the [shift] and [join] of
    [src/server.js]. *)
Theorem decrypt_ignores_trailing_text
    (KEY : list byte) (KEY' text junk : string) (g : entropy)
    (Hjunk : stops_hex junk) :
  (forall envelope : string,
      fst (Fixed.encrypt KEY text g) = Ok envelope ->
      Fixed.decrypt KEY (envelope ++ junk) = Ok text)
  /\ (forall envelope : string,
        fst (Mongo.encrypt KEY' text g) = Ok envelope ->
        Mongo.decrypt KEY' (envelope ++ junk) = Ok text).
Proof.
  split; intros envelope H.
  - exact (Fixed_decrypt_trailing KEY text envelope junk g Hjunk H).
  - exact (Mongo_decrypt_trailing KEY' text envelope junk g Hjunk H).
Qed.

Lemma cipher_length (key iv data ct : list byte) :
  Crypto.cipher_aes_256_cbc key iv data = Ok ct ->
  length ct = (16 * (length data / 16 + 1))%nat.
Proof.
  unfold Crypto.cipher_aes_256_cbc, bind.
  destruct (Crypto.check_key_iv key iv); [|discriminate].
  intros [= <-].
  rewrite bytes_of_blocks_length, cbc_encrypt_length.
  f_equal. apply blocks_of_bytes_length, pkcs7_pad_length.
Qed.

Lemma envelope_of_cipher (key iv : list byte) (text : string) (ct : list byte) :
  length iv = 16%nat ->
  Crypto.cipher_aes_256_cbc key iv (Buffer.from_utf8 text) = Ok ct ->
  length ct = (16 * (length (Buffer.from_utf8 text) / 16 + 1))%nat
  /\ JS.split ":" (Buffer.toString_hex iv ++ ":" ++ Buffer.toString_hex ct)
     = [Buffer.toString_hex iv; Buffer.toString_hex ct]
  /\ String.length (Buffer.toString_hex iv ++ ":" ++ Buffer.toString_hex ct)
     = (33 + 32 * (length (Buffer.from_utf8 text) / 16 + 1))%nat.
Proof.
  intros Hiv Hc. apply cipher_length in Hc.
  split; [exact Hc|]. split; [apply split_envelope|].
  rewrite !length_append, !toString_hex_length, Hc, Hiv.
  cbn [String.length]. lia.
Qed.

(** X3.  The envelope [encrypt] returns: the 32 hexadecimal digits of the
    nonce just drawn, one colon, and the digits of the ciphertext, which
    fills whole blocks and is always longer than the secret.  Its length
    therefore tells the length of the secret up to sixteen bytes, and
    nothing else. *)
Theorem envelope_format
    (KEY : string) (env : option string) (text : string) (g : entropy)
    (Hkey : length (Mongo.key_bytes KEY) = 32%nat) :
  let iv := fst (randomBytes 16 g) in
  let blocks := (length (Buffer.from_utf8 text) / 16 + 1)%nat in
  let well_formed (r : result string) :=
    exists ct : list byte,
      r = Ok (Buffer.toString_hex iv ++ ":" ++ Buffer.toString_hex ct)
      /\ length ct = (16 * blocks)%nat
      /\ JS.split ":" (Buffer.toString_hex iv ++ ":" ++ Buffer.toString_hex ct)
         = [Buffer.toString_hex iv; Buffer.toString_hex ct]
      /\ String.length (Buffer.toString_hex iv ++ ":" ++ Buffer.toString_hex ct)
         = (33 + 32 * blocks)%nat in
  well_formed (fst (Fixed.encrypt (Fixed.ENCRYPTION_KEY env) text g))
  /\ well_formed (fst (Mongo.encrypt KEY text g)).
Proof.
  intros iv blocks well_formed. subst well_formed.
  assert (Hiv : length iv = 16%nat) by apply randomBytes_length.
  split.
  - destruct (Fixed_encrypt_succeeds env text g) as [envelope H].
    rewrite H. apply Fixed_encrypt_shape in H as (ct & Hc & ->).
    exists ct. split; [reflexivity|]. exact (envelope_of_cipher _ _ _ _ Hiv Hc).
  - destruct (Mongo_encrypt_succeeds KEY text g Hkey) as [envelope H].
    rewrite H. apply Mongo_encrypt_shape in H as (ct & Hc & ->).
    exists ct. split; [reflexivity|]. exact (envelope_of_cipher _ _ _ _ Hiv Hc).
Qed.

End TrailingText.

(* ===================================================================== *)
(** * Beyond the specification: the in-memory service, request by request *)
(* ===================================================================== *)

Section FixedRequests.

Local Open Scope Z_scope.
Local Open Scope string_scope.

Variable speakeasy : Speakeasy.
Variable env : option string.

Lemma generateOTP_split (now : Z) (account : Fixed.Account) :
  Fixed.generateOTP speakeasy env now account
  = let* clean := FixedAPI.plaintext env account in
    FixedAPI.issue_with speakeasy clean now account.
Proof.
  unfold Fixed.generateOTP, FixedAPI.plaintext, FixedAPI.issue_with, bind.
  destruct (Fixed.encrypted account);
    [destruct (Fixed.decrypt (Fixed.ENCRYPTION_KEY env) (Fixed.secret account))|];
    reflexivity.
Qed.

Lemma same_settings_refl (a : Fixed.Account) : FixedAPI.same_settings a a.
Proof. intros c. reflexivity. Qed.

Lemma same_settings_trans (a b c : Fixed.Account) :
  FixedAPI.same_settings a b -> FixedAPI.same_settings b c ->
  FixedAPI.same_settings a c.
Proof. intros H1 H2 z. now rewrite H1. Qed.

Lemma same_settings_set_counter (a : Fixed.Account) (c : Z) :
  FixedAPI.same_settings a (Fixed.set_counter a c).
Proof. intros z. reflexivity. Qed.

Lemma same_settings_fields (a b : Fixed.Account) :
  FixedAPI.same_settings a b ->
  Fixed.name a = Fixed.name b /\ Fixed.secret a = Fixed.secret b
  /\ Fixed.encrypted a = Fixed.encrypted b /\ Fixed.digits a = Fixed.digits b
  /\ Fixed.period a = Fixed.period b /\ Fixed.type a = Fixed.type b
  /\ Fixed.algorithm a = Fixed.algorithm b /\ Fixed.addedAt a = Fixed.addedAt b.
Proof.
  intros H. specialize (H 0). unfold Fixed.set_counter in H.
  injection H as -> -> -> -> -> -> -> ->. repeat split.
Qed.

Lemma generateOTP_frame (now : Z) (account account' : Fixed.Account) (r : Fixed.otp) :
  Fixed.generateOTP speakeasy env now account = Ok (r, account') ->
  FixedAPI.same_settings account account'
  /\ Fixed.counter_value account <= Fixed.counter_value account'.
Proof.
  intros H. destruct (String.eqb_spec (Fixed.type account) "hotp") as [E | E].
  - destruct (generateOTP_hotp _ _ _ _ _ _ E H) as [-> _].
    split; [apply same_settings_set_counter|].
    rewrite counter_value_set. lia.
  - destruct (generateOTP_totp _ _ _ _ _ _ E H) as [-> _].
    split; [apply same_settings_refl | lia].
Qed.

Lemma issue_times_frame (n : nat) (now : Z) (account account' : Fixed.Account) :
  Fixed.issue_times speakeasy env n now account = Ok account' ->
  FixedAPI.same_settings account account'
  /\ (Fixed.type account <> "hotp" -> account' = account).
Proof.
  revert account. induction n as [|n IH]; intros account H.
  - injection H as <-. split; [apply same_settings_refl | reflexivity].
  - cbn [Fixed.issue_times] in H. unfold bind in H.
    destruct (Fixed.generateOTP speakeasy env now account) as [[r a]|] eqn:G;
      [|discriminate].
    cbn [snd] in H. destruct (IH _ H) as [S1 U1].
    destruct (generateOTP_frame _ _ _ _ G) as [S0 _].
    split; [exact (same_settings_trans _ _ _ S0 S1)|].
    intros E. destruct (generateOTP_totp _ _ _ _ _ _ E G) as [-> _].
    now apply U1.
Qed.

Lemma issue_times_counter_set (n : nat) (now : Z)
    (account account' : Fixed.Account) :
  Fixed.type account = "hotp" ->
  Fixed.issue_times speakeasy env (S n) now account = Ok account' ->
  Fixed.counter account' = Some (Fixed.counter_value account + Z.of_nat (S n)).
Proof.
  intros E Hrun.
  pose proof (proj1 (issue_times_counter _ _ _ _ _ _ E Hrun)) as Hv.
  rewrite <- Hv. clear Hv.
  revert account E Hrun. induction n as [|n IH]; intros account E Hrun.
  - cbn [Fixed.issue_times] in Hrun.
    destruct (Fixed.generateOTP speakeasy env now account) as [[o a1]|e] eqn:G;
      cbn [bind snd] in Hrun; [|discriminate].
    injection Hrun as <-.
    destruct (generateOTP_hotp _ _ _ _ _ _ E G) as [-> _].
    rewrite counter_value_set. reflexivity.
  - change (Fixed.issue_times speakeasy env (S (S n)) now account)
      with (let* r := Fixed.generateOTP speakeasy env now account in
            Fixed.issue_times speakeasy env (S n) now (snd r)) in Hrun.
    destruct (Fixed.generateOTP speakeasy env now account) as [[o a1]|e] eqn:G;
      cbn [bind snd] in Hrun; [|discriminate].
    destruct (generateOTP_hotp _ _ _ _ _ _ E G) as [Ha _].
    apply (IH a1); [|exact Hrun].
    rewrite Ha. exact E.
Qed.

(** X4.  An issuance leaves every setting of the account as it was, the
    counter apart, and the counter moves for the type ["hotp"] only, by one
    for each code issued, as long as it stays among the integers a
    JavaScript number holds exactly (up to 2^53): after a first code the
    stored counter is the old one plus the number of codes.  The comparison
    of the type is on the stored text: an account whose type is spelled
    ["HOTP"] is issued time-based codes and its counter never moves. *)
Theorem issuance_touches_the_counter_only
    (n : nat) (now : Z) (account account' : Fixed.Account)
    (Hlow : - 2 ^ 53 <= Fixed.counter_value account)
    (Hhigh : Fixed.counter_value account + Z.of_nat n <= 2 ^ 53)
    (Hrun : Fixed.issue_times speakeasy env n now account = Ok account') :
  FixedAPI.same_settings account account'
  /\ (Fixed.type account = "hotp" ->
      Fixed.counter_value account' = Fixed.counter_value account + Z.of_nat n
      /\ (n <> 0%nat ->
          Fixed.counter account' = Some (Fixed.counter_value account + Z.of_nat n)))
  /\ (Fixed.type account <> "hotp" -> account' = account).
Proof.
  clear Hlow Hhigh.
  destruct (issue_times_frame _ _ _ _ Hrun) as [S U].
  split; [exact S|]. split; [|exact U].
  intros E. split; [exact (proj1 (issue_times_counter _ _ _ _ _ _ E Hrun))|].
  intros Hn. destruct n as [|n]; [contradiction|].
  exact (issue_times_counter_set _ _ _ _ E Hrun).
Qed.

(** ** What a request leaves of the store *)

Lemma Fixed_get_Own_inv (m : gmap string Fixed.Account) (k : string)
    (account : Fixed.Account) :
  Fixed.get m k = Fixed.Own account -> m !! k = Some account.
Proof.
  unfold Fixed.get. destruct (m !! k); [now intros [= ->]|].
  destruct (existsb _ _); discriminate.
Qed.

Lemma Fixed_get_prototype (m : gmap string Fixed.Account) (k : string) :
  In k Fixed.Object_prototype -> Fixed.get m k <> Fixed.Undefined.
Proof.
  intros Hk. unfold Fixed.get. destruct (m !! k); [discriminate|].
  assert (existsb (String.eqb k) Fixed.Object_prototype = true) as ->;
    [|discriminate].
  apply existsb_exists. exists k. split; [exact Hk | apply String.eqb_refl].
Qed.

Lemma code_entry_frame (now : Z) (k : string) (account : Fixed.Account) :
  FixedAPI.same_settings account (snd (Fixed.code_entry speakeasy env now k account))
  /\ Fixed.counter_value account
     <= Fixed.counter_value (snd (Fixed.code_entry speakeasy env now k account)).
Proof.
  unfold Fixed.code_entry.
  destruct (Fixed.generateOTP speakeasy env now account) as [[r a]|] eqn:G.
  - exact (generateOTP_frame _ _ _ _ G).
  - split; [apply same_settings_refl | cbn [snd]; lia].
Qed.

(** The account a creation stores. *)
Lemma Fixed_POST_created (now : Z) (req : Fixed.new_account) (s : Fixed.state) :
  status (fst (Fixed.POST_api_accounts speakeasy env now req s)) = 201 ->
  let key := JS.default (Fixed.r_key req) "" in
  let clean := Fixed.normalizeBase32 (JS.default (Fixed.r_secret req) "") in
  exists stored : string,
    Fixed.accounts (snd (Fixed.POST_api_accounts speakeasy env now req s))
    = <[key := {| Fixed.name := JS.or_str (Fixed.r_name req) key;
                  Fixed.secret := stored;
                  Fixed.encrypted := JS.default (Fixed.r_encrypt req) true;
                  Fixed.digits := JS.default (Fixed.r_digits req) 6;
                  Fixed.period := JS.default (Fixed.r_period req) 30;
                  Fixed.type := JS.default (Fixed.r_type req) "totp";
                  Fixed.algorithm :=
                    JS.toLowerCase (JS.default (Fixed.r_algorithm req) "sha256");
                  Fixed.addedAt := now;
                  Fixed.counter := None |}]> (Fixed.accounts s)
    /\ (if JS.default (Fixed.r_encrypt req) true
        then Fixed.decrypt (Fixed.ENCRYPTION_KEY env) stored = Ok clean
        else stored = clean)
    /\ Fixed.get (Fixed.accounts s) key = Fixed.Undefined
    /\ is_Ok (Fixed.validation speakeasy now req) = true.
Proof.
  intros H key clean. revert H.
  unfold Fixed.POST_api_accounts, Fixed.validation. fold key. fold clean.
  destruct (JS.falsy_str (Fixed.r_key req) || JS.falsy_str (Fixed.r_secret req))%bool;
    [discriminate|].
  destruct (Fixed.get (Fixed.accounts s) key); [discriminate | discriminate |].
  destruct (totp speakeasy _ now); [|discriminate].
  destruct (JS.default (Fixed.r_encrypt req) true) eqn:E.
  - destruct (Fixed.encrypt (Fixed.ENCRYPTION_KEY env) clean (Fixed.random s))
      as [[stored|e] g] eqn:Enc; [|discriminate].
    intros _. exists stored. cbn [snd Fixed.accounts].
    repeat split.
    apply (Fixed_decrypt_encrypt _ _ _ (Fixed.random s)). now rewrite Enc.
  - intros _. exists clean. cbn [snd Fixed.accounts]. repeat split.
Qed.

(** Where an account of the store after a request comes from: it was there
    before, with the same settings, or the request created it. *)
Lemma handle_origin (r : FixedAPI.request) (s : Fixed.state) (k : string)
    (account' : Fixed.Account) :
  Fixed.accounts (snd (FixedAPI.handle speakeasy env r s)) !! k = Some account' ->
  (exists account : Fixed.Account,
      Fixed.accounts s !! k = Some account
      /\ FixedAPI.same_settings account account'
      /\ Fixed.counter_value account <= Fixed.counter_value account')
  \/ (Fixed.get (Fixed.accounts s) k = Fixed.Undefined
      /\ Fixed.counter account' = None
      /\ exists clean : string,
           (if Fixed.encrypted account'
            then Fixed.decrypt (Fixed.ENCRYPTION_KEY env) (Fixed.secret account')
            else Ok (Fixed.secret account')) = Ok clean
           /\ Fixed.normalizeBase32 clean = clean).
Proof.
  assert (Hsame : Fixed.accounts s !! k = Some account' ->
            exists account : Fixed.Account,
              Fixed.accounts s !! k = Some account
              /\ FixedAPI.same_settings account account'
              /\ Fixed.counter_value account <= Fixed.counter_value account').
  { intros Ha. exists account'. split; [exact Ha|].
    split; [apply same_settings_refl | lia]. }
  assert (Hins : forall now key acc r0 acc',
            Fixed.get (Fixed.accounts s) key = Fixed.Own acc ->
            Fixed.generateOTP speakeasy env now acc = Ok (r0, acc') ->
            <[key := acc']> (Fixed.accounts s) !! k = Some account' ->
            exists account : Fixed.Account,
              Fixed.accounts s !! k = Some account
              /\ FixedAPI.same_settings account account'
              /\ Fixed.counter_value account <= Fixed.counter_value account').
  { intros now key acc r0 acc' Hg G H.
    apply Fixed_get_Own_inv in Hg.
    destruct (decide (key = k)) as [-> | Hne].
    - rewrite lookup_insert_eq in H. injection H as ->.
      exists acc. split; [exact Hg|]. exact (generateOTP_frame _ _ _ _ G).
    - rewrite lookup_insert_ne in H by exact Hne. eauto. }
  destruct r as [now key | now | now body | now key | | key | now];
    cbn [FixedAPI.handle].
  - unfold Fixed.GET_api_code.
    destruct (Fixed.get (Fixed.accounts s) key) as [acc| |] eqn:Hg;
      try solve [cbn [snd]; intros H; left; eauto].
    destruct (Fixed.generateOTP speakeasy env now acc) as [[r0 acc']|] eqn:G;
      cbn [snd Fixed.with_accounts Fixed.accounts]; intros H; left; eauto.
  - unfold Fixed.GET_api_codes. cbn [snd Fixed.with_accounts Fixed.accounts].
    rewrite map_lookup_imap. intros H.
    destruct (Fixed.accounts s !! k) as [acc|] eqn:L; [|discriminate].
    cbn in H. injection H as <-. left. exists acc. split; [reflexivity|].
    apply code_entry_frame.
  - intros H.
    destruct (Z.eq_dec (status (fst (Fixed.POST_api_accounts speakeasy env now body s))) 201)
      as [E | E].
    + destruct (Fixed_POST_created now body s E) as (stored & Hs & Hd & Hu & _).
      rewrite Hs in H.
      destruct (decide (JS.default (Fixed.r_key body) "" = k)) as [<- | Hne].
      * rewrite lookup_insert_eq in H. injection H as <-. right.
        split; [exact Hu|]. split; [reflexivity|].
        exists (Fixed.normalizeBase32 (JS.default (Fixed.r_secret body) "")).
        cbn [Fixed.encrypted Fixed.secret].
        split; [|apply normalizeBase32_idempotent].
        destruct (JS.default (Fixed.r_encrypt body) true); [exact Hd | now rewrite Hd].
      * rewrite lookup_insert_ne in H by exact Hne. left. eauto.
    + pose proof (Fixed_POST_outcome speakeasy env now body s) as O.
      destruct (Fixed.POST_api_accounts speakeasy env now body s) as [res s'].
      cbn [fst snd] in *. destruct O as [(O & _) | (_ & O & _)]; [contradiction|].
      rewrite O in H. left. eauto.
  - unfold Fixed.GET_api_debug.
    destruct (Fixed.get (Fixed.accounts s) key) as [acc| |] eqn:Hg;
      try solve [cbn [snd]; intros H; left; eauto].
    destruct (if Fixed.encrypted acc then _ else _);
      try solve [cbn [snd]; intros H; left; eauto].
    destruct (Fixed.generateOTP speakeasy env now acc) as [[r0 acc']|] eqn:G;
      cbn [snd Fixed.with_accounts Fixed.accounts]; intros H; left; eauto.
  - cbn [snd FixedAPI.GET_api_accounts]. intros H. left. eauto.
  - unfold Fixed.DELETE_api_accounts. cbn [snd Fixed.with_accounts Fixed.accounts].
    intros H. apply lookup_delete_Some in H as [_ H]. left. eauto.
  - cbn [snd FixedAPI.GET_health]. intros H. left. eauto.
Qed.

(** What becomes of an account of the store when a request other than its
    deletion is served. *)
Lemma handle_keeps (r : FixedAPI.request) (s : Fixed.state) (k : string)
    (account : Fixed.Account) :
  Fixed.accounts s !! k = Some account ->
  r <> FixedAPI.DeleteAccount k ->
  exists account' : Fixed.Account,
    Fixed.accounts (snd (FixedAPI.handle speakeasy env r s)) !! k = Some account'
    /\ FixedAPI.same_settings account account'
    /\ Fixed.counter_value account <= Fixed.counter_value account'.
Proof.
  intros Hk Hr.
  assert (Hsame : exists account' : Fixed.Account,
            Fixed.accounts s !! k = Some account'
            /\ FixedAPI.same_settings account account'
            /\ Fixed.counter_value account <= Fixed.counter_value account').
  { exists account. split; [exact Hk|]. split; [apply same_settings_refl | lia]. }
  assert (Hins : forall now key acc r0 acc',
            Fixed.get (Fixed.accounts s) key = Fixed.Own acc ->
            Fixed.generateOTP speakeasy env now acc = Ok (r0, acc') ->
            exists account' : Fixed.Account,
              <[key := acc']> (Fixed.accounts s) !! k = Some account'
              /\ FixedAPI.same_settings account account'
              /\ Fixed.counter_value account <= Fixed.counter_value account').
  { intros now key acc r0 acc' Hg G.
    apply Fixed_get_Own_inv in Hg.
    destruct (decide (key = k)) as [-> | Hne].
    - rewrite lookup_insert_eq. exists acc'. split; [reflexivity|].
      rewrite Hk in Hg. injection Hg as <-. exact (generateOTP_frame _ _ _ _ G).
    - rewrite lookup_insert_ne by exact Hne. exact Hsame. }
  destruct r as [now key | now | now body | now key | | key | now];
    cbn [FixedAPI.handle].
  - unfold Fixed.GET_api_code.
    destruct (Fixed.get (Fixed.accounts s) key) as [acc| |] eqn:Hg;
      try exact Hsame.
    destruct (Fixed.generateOTP speakeasy env now acc) as [[r0 acc']|] eqn:G;
      cbn [snd Fixed.with_accounts Fixed.accounts]; eauto.
  - unfold Fixed.GET_api_codes. cbn [snd Fixed.with_accounts Fixed.accounts].
    rewrite map_lookup_imap, Hk. cbn.
    eexists. split; [reflexivity|]. apply code_entry_frame.
  - exists account. split; [now apply Fixed_POST_keeps|].
    split; [apply same_settings_refl | lia].
  - unfold Fixed.GET_api_debug.
    destruct (Fixed.get (Fixed.accounts s) key) as [acc| |] eqn:Hg;
      try exact Hsame.
    destruct (if Fixed.encrypted acc then _ else _); try exact Hsame.
    destruct (Fixed.generateOTP speakeasy env now acc) as [[r0 acc']|] eqn:G;
      cbn [snd Fixed.with_accounts Fixed.accounts]; eauto.
  - exact Hsame.
  - unfold Fixed.DELETE_api_accounts. cbn [snd Fixed.with_accounts Fixed.accounts].
    rewrite lookup_delete_ne by congruence. exact Hsame.
  - exact Hsame.
Qed.

Lemma serve_cons (r : FixedAPI.request) (rs : list FixedAPI.request) (s : Fixed.state) :
  FixedAPI.serve speakeasy env (r :: rs) s
  = FixedAPI.serve speakeasy env rs (snd (FixedAPI.handle speakeasy env r s)).
Proof. reflexivity. Qed.

Lemma serve_snoc (rs : list FixedAPI.request) (r : FixedAPI.request) (s : Fixed.state) :
  FixedAPI.serve speakeasy env (rs ++ [r]) s
  = snd (FixedAPI.handle speakeasy env r (FixedAPI.serve speakeasy env rs s)).
Proof. unfold FixedAPI.serve. now rewrite fold_left_app. Qed.

Lemma recoverable_serve (rs : list FixedAPI.request) (g : entropy) :
  FixedAPI.recoverable env (FixedAPI.serve speakeasy env rs (FixedAPI.started g)).
Proof.
  induction rs as [|r rs IH] using rev_ind.
  - intros k account H. cbn in H. now rewrite lookup_empty in H.
  - rewrite serve_snoc. intros k account' H.
    apply handle_origin in H as [(account & Hk & S & _) | (_ & _ & H)]; [|exact H].
    destruct (IH k account Hk) as (clean & Hc & Hn).
    apply same_settings_fields in S as (_ & <- & <- & _). eauto.
Qed.

(** X5.  However the store was built through the routes, the secret of
    every account in it can be recovered: it decrypts under the key of the
    process when the account is flagged as encrypted, and it is in normal
    form.  A code request for a stored account can therefore fail in the
    library only, never in [decrypt]. *)
Theorem stored_secrets_stay_recoverable
    (rs : list FixedAPI.request) (g : entropy) (now : Z) (k : string)
    (account : Fixed.Account) :
  Fixed.accounts (FixedAPI.serve speakeasy env rs (FixedAPI.started g)) !! k
  = Some account ->
  exists clean : string,
    FixedAPI.plaintext env account = Ok clean
    /\ Fixed.normalizeBase32 clean = clean
    /\ Fixed.generateOTP speakeasy env now account
       = FixedAPI.issue_with speakeasy clean now account.
Proof.
  intros H. destruct (recoverable_serve rs g k account H) as (clean & Hc & Hn).
  exists clean.
  assert (Hp : FixedAPI.plaintext env account = Ok clean).
  { unfold FixedAPI.plaintext. rewrite Hc. cbn. now rewrite Hn. }
  split; [exact Hp|]. split; [exact Hn|].
  rewrite generateOTP_split, Hp. reflexivity.
Qed.

(** X6.  Nothing but its own deletion takes an account out of the store or
    changes its settings: over any run of requests that does not delete it,
    the account is still there, equal to what it was up to its counter, and
    its counter has not gone down. *)
Theorem account_persists_until_deleted
    (rs : list FixedAPI.request) (s : Fixed.state) (k : string)
    (account : Fixed.Account)
    (Hstored : Fixed.accounts s !! k = Some account)
    (Hkept : Forall (fun r => r <> FixedAPI.DeleteAccount k) rs) :
  exists account' : Fixed.Account,
    Fixed.accounts (FixedAPI.serve speakeasy env rs s) !! k = Some account'
    /\ FixedAPI.same_settings account account'
    /\ Fixed.counter_value account <= Fixed.counter_value account'.
Proof.
  revert s account Hstored. induction Hkept as [|r rs Hr _ IH]; intros s account Hstored.
  - exists account. split; [exact Hstored|].
    split; [apply same_settings_refl | lia].
  - rewrite serve_cons.
    destruct (handle_keeps r s k account Hstored Hr) as (a1 & H1 & S1 & C1).
    destruct (IH _ _ H1) as (a2 & H2 & S2 & C2).
    exists a2. split; [exact H2|].
    split; [exact (same_settings_trans _ _ _ S1 S2) | lia].
Qed.

(** X7.  [DELETE /api/accounts/:key] answers 200 whether or not the account
    exists, touches no other account, and leaves the store as it was when
    the key was not there.  A code request for the key afterwards is
    answered 404, or 500 when the key names a member of
    [Object.prototype]. *)
Theorem delete_never_reports_a_missing_account
    (now : Z) (key : string) (s : Fixed.state) :
  let '(res, s') := Fixed.DELETE_api_accounts key s in
  status res = 200
  /\ Fixed.accounts s' !! key = None
  /\ (forall k : string, k <> key -> Fixed.accounts s' !! k = Fixed.accounts s !! k)
  /\ (Fixed.accounts s !! key = None -> s' = s)
  /\ status (fst (Fixed.GET_api_code speakeasy env now key s'))
     = (if existsb (String.eqb key) Fixed.Object_prototype then 500 else 404).
Proof.
  unfold Fixed.DELETE_api_accounts, Fixed.with_accounts. cbn beta iota.
  split; [reflexivity|]. cbn [Fixed.accounts].
  split; [apply lookup_delete_eq|].
  split; [intros k Hk; now apply lookup_delete_ne|].
  split.
  - intros H. rewrite delete_id by exact H. now destruct s.
  - unfold Fixed.GET_api_code, Fixed.get. cbn [Fixed.accounts].
    rewrite lookup_delete_eq.
    destruct (existsb (String.eqb key) Fixed.Object_prototype); reflexivity.
Qed.

(** X8.  [GET /api/codes] answers 200 with one entry for each account, and
    an account whose issuance throws costs the others nothing: its entry
    carries ["FAILED"] and the account stays as it was, while every other
    entry carries its code and the store holds the account [generateOTP]
    returned. *)
Theorem codes_isolates_failures (now : Z) (s : Fixed.state) :
  let '(res, s') := Fixed.GET_api_codes speakeasy env now s in
  exists entries : list JS.json,
    res = json 200 (JS.JObj [("codes", JS.JArr entries)])
    /\ length entries = length (map_to_list (Fixed.accounts s))
    /\ Fixed.random s' = Fixed.random s
    /\ forall (k : string) (account : Fixed.Account),
         Fixed.accounts s !! k = Some account ->
         match Fixed.generateOTP speakeasy env now account with
         | Ok (r, account') =>
             Fixed.accounts s' !! k = Some account'
             /\ In (JS.JObj (("key", JS.JStr k)
                             :: ("name", JS.JStr (Fixed.name account))
                             :: Fixed.otp_fields r)) entries
         | Throw _ =>
             Fixed.accounts s' !! k = Some account
             /\ In (JS.JObj [("key", JS.JStr k);
                             ("name", JS.JStr (Fixed.name account));
                             ("error", JS.JStr "FAILED")]) entries
         end.
Proof.
  unfold Fixed.GET_api_codes. eexists. split; [reflexivity|].
  split; [now rewrite length_map|]. split; [reflexivity|].
  intros k account Hk. cbn [Fixed.with_accounts Fixed.accounts].
  rewrite map_lookup_imap, Hk. cbn.
  assert (Hin : In (fst (Fixed.code_entry speakeasy env now k account))
                   (map (fun kv => fst (Fixed.code_entry speakeasy env now (fst kv) (snd kv)))
                        (map_to_list (Fixed.accounts s)))).
  { apply (in_map (fun kv => fst (Fixed.code_entry speakeasy env now (fst kv) (snd kv)))
                  _ (k, account)).
    apply list_elem_of_In, elem_of_map_to_list. exact Hk. }
  revert Hin. unfold Fixed.code_entry.
  destruct (Fixed.generateOTP speakeasy env now account) as [[r a]|]; cbn [fst snd]; auto.
Qed.

(** X9.  An account that was just created is issued from the secret the
    creation validated: decryption gives back the normalised secret of the
    request, so the code route reaches the library with it, answers 200
    exactly when the library returns, and never 404.  Its counter is not
    set yet. *)
Theorem created_account_is_issued_from_the_validated_secret
    (now now' : Z) (req : Fixed.new_account) (s : Fixed.state)
    (Hcreated : status (fst (Fixed.POST_api_accounts speakeasy env now req s)) = 201) :
  let s' := snd (Fixed.POST_api_accounts speakeasy env now req s) in
  let key := JS.default (Fixed.r_key req) "" in
  let clean := Fixed.normalizeBase32 (JS.default (Fixed.r_secret req) "") in
  exists account : Fixed.Account,
    Fixed.accounts s' !! key = Some account
    /\ Fixed.counter account = None
    /\ is_Ok (Fixed.validation speakeasy now req) = true
    /\ Fixed.generateOTP speakeasy env now' account
       = FixedAPI.issue_with speakeasy clean now' account
    /\ status (fst (Fixed.GET_api_code speakeasy env now' key s'))
       = (if is_Ok (FixedAPI.issue_with speakeasy clean now' account) then 200 else 500).
Proof.
  intros s' key clean.
  destruct (Fixed_POST_created now req s Hcreated) as (stored & Hs & Hd & _ & Hv).
  fold s' key clean in Hs, Hd.
  eexists. rewrite Hs, lookup_insert_eq. split; [reflexivity|].
  split; [reflexivity|]. split; [exact Hv|].
  match goal with |- Fixed.generateOTP _ _ _ ?a = _ /\ _ => set (account := a) end.
  assert (Hp : FixedAPI.plaintext env account = Ok clean).
  { unfold FixedAPI.plaintext, account. cbn [Fixed.encrypted Fixed.secret].
    destruct (JS.default (Fixed.r_encrypt req) true).
    - rewrite Hd. cbn. f_equal. apply normalizeBase32_idempotent.
    - rewrite Hd. cbn. f_equal. apply normalizeBase32_idempotent. }
  assert (Hg : Fixed.generateOTP speakeasy env now' account
               = FixedAPI.issue_with speakeasy clean now' account).
  { rewrite generateOTP_split, Hp. reflexivity. }
  split; [exact Hg|].
  unfold Fixed.GET_api_code.
  rewrite (Fixed_get_own _ key account) by (rewrite Hs; apply lookup_insert_eq).
  rewrite Hg.
  destruct (FixedAPI.issue_with speakeasy clean now' account) as [[r a]|]; reflexivity.
Qed.

Lemma no_prototype_serve (rs : list FixedAPI.request) (g : entropy) (k : string) :
  In k Fixed.Object_prototype ->
  Fixed.accounts (FixedAPI.serve speakeasy env rs (FixedAPI.started g)) !! k = None.
Proof.
  intros Hk. induction rs as [|r rs IH] using rev_ind.
  - apply lookup_empty.
  - rewrite serve_snoc.
    destruct (Fixed.accounts (snd (FixedAPI.handle speakeasy env r _)) !! k)
      as [account'|] eqn:H; [|reflexivity].
    apply handle_origin in H as [(account & Hk' & _) | (Hu & _)].
    + rewrite IH in Hk'. discriminate.
    + now apply Fixed_get_prototype in Hu.
Qed.

(** X10.  The names of [Object.prototype] are taken before the first
    request: no run of requests stores an account under one of them,
    creating one is refused as a duplicate (400 when the secret is
    missing), and a code request for one is answered 500, not 404. *)
Theorem prototype_names_are_never_accounts
    (rs : list FixedAPI.request) (g : entropy) (now : Z) (k : string)
    (req : Fixed.new_account)
    (Hname : In k Fixed.Object_prototype)
    (Hkey : Fixed.r_key req = Some k) :
  let s := FixedAPI.serve speakeasy env rs (FixedAPI.started g) in
  Fixed.accounts s !! k = None
  /\ Fixed.GET_api_code speakeasy env now k s
     = (json 500 (JS.JObj [("error", JS.JStr "OTP generation failed")]), s)
  /\ snd (Fixed.POST_api_accounts speakeasy env now req s) = s
  /\ status (fst (Fixed.POST_api_accounts speakeasy env now req s))
     = (if JS.falsy_str (Fixed.r_secret req) then 400 else 409).
Proof.
  intros s. pose proof (no_prototype_serve rs g k Hname) as Hnone. fold s in Hnone.
  assert (Hg : Fixed.get (Fixed.accounts s) k = Fixed.Inherited).
  { pose proof (Fixed_get_prototype (Fixed.accounts s) k Hname) as Hp.
    unfold Fixed.get in *. rewrite Hnone in *.
    destruct (existsb _ _); [reflexivity | contradiction]. }
  assert (Hk : JS.falsy_str (Fixed.r_key req) = false).
  { rewrite Hkey. apply falsy_str_Some. intros ->.
    cbn in Hname. intuition discriminate. }
  split; [exact Hnone|]. split.
  - unfold Fixed.GET_api_code. now rewrite Hg.
  - unfold Fixed.POST_api_accounts. rewrite Hk, Hkey. cbn [orb JS.default].
    destruct (JS.falsy_str (Fixed.r_secret req)); [split; reflexivity|].
    rewrite Hg. split; reflexivity.
Qed.

(** X11.  [GET /api/debug/:key] hands out what the listing withholds.  For
    an account that was just created it answers with the secret of the
    request, normalised and in the clear, whether or not the account is
    stored encrypted; when the library throws, nothing catches the
    exception and Express answers 500. *)
Theorem debug_discloses_the_secret
    (now now' : Z) (req : Fixed.new_account) (s : Fixed.state)
    (Hcreated : status (fst (Fixed.POST_api_accounts speakeasy env now req s)) = 201) :
  let s' := snd (Fixed.POST_api_accounts speakeasy env now req s) in
  let key := JS.default (Fixed.r_key req) "" in
  let clean := Fixed.normalizeBase32 (JS.default (Fixed.r_secret req) "") in
  let answer := fst (Fixed.GET_api_debug speakeasy env now' key s') in
  exists account : Fixed.Account,
    Fixed.accounts s' !! key = Some account
    /\ match FixedAPI.issue_with speakeasy clean now' account with
       | Ok (r, _) =>
           status answer = 200
           /\ field "normalizedSecret" (body answer) = Some (JS.JStr clean)
           /\ field "otp" (body answer) = Some (JS.JObj (Fixed.otp_fields r))
       | Throw _ => answer = express_error
       end.
Proof.
  intros s' key clean answer.
  destruct (Fixed_POST_created now req s Hcreated) as (stored & Hs & Hd & _ & Hv).
  fold s' key clean in Hs, Hd.
  eexists. rewrite Hs, lookup_insert_eq. split; [reflexivity|].
  match goal with |- match FixedAPI.issue_with _ _ _ ?a with _ => _ end =>
    set (account := a) end.
  assert (Hr : (if Fixed.encrypted account
                then Fixed.decrypt (Fixed.ENCRYPTION_KEY env) (Fixed.secret account)
                else Ok (Fixed.secret account)) = Ok clean).
  { unfold account. cbn [Fixed.encrypted Fixed.secret].
    destruct (JS.default (Fixed.r_encrypt req) true); [exact Hd | now rewrite Hd]. }
  assert (Hg : Fixed.generateOTP speakeasy env now' account
               = FixedAPI.issue_with speakeasy clean now' account).
  { rewrite generateOTP_split. unfold FixedAPI.plaintext. rewrite Hr. cbn [bind].
    unfold clean. now rewrite normalizeBase32_idempotent. }
  subst answer. unfold Fixed.GET_api_debug.
  rewrite (Fixed_get_own _ key account) by (rewrite Hs; apply lookup_insert_eq).
  cbv zeta. rewrite Hr, Hg.
  destruct (FixedAPI.issue_with speakeasy clean now' account) as [[r a]|]; [|reflexivity].
  cbn [fst status json body]. split; [reflexivity|]. split; [|reflexivity].
  cbn. unfold clean. now rewrite normalizeBase32_idempotent.
Qed.

End FixedRequests.

(* ===================================================================== *)
(** * Beyond the specification: the MongoDB-backed service *)
(* ===================================================================== *)

Section Trim.

Local Open Scope string_scope.


Lemma trimEnd_idempotent (s : string) : JS.trimEnd (JS.trimEnd s) = JS.trimEnd s.
Proof.
  induction s as [|c s IH]; [reflexivity|].
  cbn [JS.trimEnd]. destruct (JS.trimEnd s) as [|a t] eqn:E.
  - destruct (JS.is_space c) eqn:Hc; [reflexivity|].
    cbn [JS.trimEnd]. now rewrite Hc.
  - change (JS.trimEnd (String c (String a t)))
      with (match JS.trimEnd (String a t) with
            | EmptyString => if JS.is_space c then EmptyString else String c EmptyString
            | String a0 s0 => String c (String a0 s0)
            end).
    now rewrite IH.
Qed.

Lemma trimStart_clean (s : string) : starts_clean (JS.trimStart s).
Proof.
  induction s as [|c s IH]; [exact I|].
  cbn [JS.trimStart]. destruct (JS.is_space c) eqn:E; [exact IH | exact E].
Qed.

Lemma trimEnd_clean (s : string) : starts_clean s -> starts_clean (JS.trimEnd s).
Proof.
  destruct s as [|c s]; [exact (fun H => H)|].
  cbn [JS.trimEnd starts_clean]. intros H.
  destruct (JS.trimEnd s); [rewrite H|]; exact H.
Qed.

Lemma trimStart_of_clean (s : string) : starts_clean s -> JS.trimStart s = s.
Proof.
  destruct s as [|c s]; [reflexivity|].
  cbn [JS.trimStart starts_clean]. now intros ->.
Qed.

Lemma trim_idempotent (s : string) : JS.trim (JS.trim s) = JS.trim s.
Proof.
  unfold JS.trim.
  rewrite (trimStart_of_clean (JS.trimEnd (JS.trimStart s))).
  - apply trimEnd_idempotent.
  - apply trimEnd_clean, trimStart_clean.
Qed.

End Trim.

Section MongoRequests.

Local Open Scope Z_scope.
Local Open Scope string_scope.

Variable speakeasy : Speakeasy.
Variable KEY : string.

(** The document a creation inserts. *)
Lemma Mongo_POST_created (now : Z) (req : Mongo.account_fields) (s : Mongo.state) :
  status (fst (Mongo.POST_api_accounts speakeasy KEY now req s)) = 201 ->
  let key := JS.default (Mongo.r_key req) "" in
  let secret := JS.default (Mongo.r_secret req) "" in
  let shouldEncrypt := JS.or_bool (Mongo.r_encrypt req) false in
  exists stored : string,
    let doc :=
      Mongo.new_Account key (JS.or_str (Mongo.r_name req) key) stored shouldEncrypt
        (JS.or_num (Mongo.r_digits req) 6) (JS.or_num (Mongo.r_period req) 30)
        (JS.toLowerCase (JS.or_str (Mongo.r_algorithm req) "sha1"))
        (JS.or_str (Mongo.r_type req) "totp") (JS.or_num (Mongo.r_counter req) 0) in
    Mongo.db (snd (Mongo.POST_api_accounts speakeasy KEY now req s))
    = <[JS.trim key := doc]> (Mongo.db s)
    /\ Mongo.validate doc = true
    /\ (if shouldEncrypt then Mongo.decrypt KEY stored = Ok secret else stored = secret)
    /\ is_Ok (Mongo.validation speakeasy now req) = true.
Proof.
  intros H key secret shouldEncrypt. revert H.
  unfold Mongo.POST_api_accounts, Mongo.validation.
  fold key. fold secret. fold shouldEncrypt.
  destruct (JS.falsy_str (Mongo.r_key req) || JS.falsy_str (Mongo.r_secret req))%bool;
    [discriminate|].
  destruct (Mongo.findByKey (Mongo.db s) key); [discriminate|].
  destruct (totp speakeasy _ now); [|discriminate].
  destruct (Mongo.stored_secret KEY shouldEncrypt secret (Mongo.random s))
    as [[stored|e] g] eqn:St; cbn [bind]; [|discriminate].
  unfold Mongo.save_new.
  destruct (Mongo.validate _) eqn:Hval; cbn [negb]; [|discriminate].
  destruct (Mongo.db s !! _) eqn:Hl; cbn [bind]; [discriminate|].
  intros _. exists stored. cbn [snd Mongo.db].
  split; [reflexivity|]. split; [exact Hval|]. split; [|reflexivity].
  unfold Mongo.stored_secret in St. destruct shouldEncrypt.
  - apply (Mongo_decrypt_encrypt _ _ _ (Mongo.random s)). now rewrite St.
  - now injection St as <- _.
Qed.

(** The document an update writes back. *)
Lemma Mongo_PUT_updated (k : string) (req : Mongo.account_fields) (s : Mongo.state) :
  status (fst (Mongo.PUT_api_accounts KEY k req s)) = 200 ->
  exists old doc : Mongo.Account,
    Mongo.findByKey (Mongo.db s) k = Some old
    /\ Mongo.db (snd (Mongo.PUT_api_accounts KEY k req s))
       = <[Mongo.key old := doc]> (Mongo.db s)
    /\ Mongo.key doc = Mongo.key old
    /\ Mongo.type doc = Mongo.type old
    /\ Mongo.counter doc = Mongo.counter old
    /\ (if JS.falsy_str (Mongo.r_secret req)
        then Mongo.secret doc = Mongo.secret old
             /\ Mongo.encrypted doc = Mongo.encrypted old
        else Mongo.encrypted doc = JS.or_bool (Mongo.r_encrypt req) false
             /\ (if Mongo.encrypted doc
                 then Mongo.decrypt KEY (Mongo.secret doc)
                      = Ok (JS.default (Mongo.r_secret req) "")
                 else Mongo.secret doc = JS.default (Mongo.r_secret req) "")).
Proof.
  unfold Mongo.PUT_api_accounts.
  destruct (Mongo.findByKey (Mongo.db s) k) as [old|]; [|discriminate].
  destruct (Mongo.assign KEY req old (Mongo.random s)) as [[doc|e] g] eqn:Ha;
    cbn [bind]; [|discriminate].
  unfold Mongo.save_modified. destruct (Mongo.validate doc); cbn [bind]; [|discriminate].
  intros _. exists old, doc. split; [reflexivity|]. split; [reflexivity|].
  unfold Mongo.assign in Ha.
  destruct (JS.falsy_str (Mongo.r_secret req)).
  - injection Ha as <- _. cbn. auto.
  - destruct (Mongo.stored_secret KEY _ _ _) as [[stored|e] g'] eqn:St;
      cbn [bind] in Ha; [|discriminate].
    injection Ha as <- _. cbn [Mongo.key Mongo.type Mongo.counter Mongo.encrypted Mongo.secret].
    repeat split. unfold Mongo.stored_secret in St.
    destruct (JS.or_bool (Mongo.r_encrypt req) false).
    + apply (Mongo_decrypt_encrypt _ _ _ (Mongo.random s)). now rewrite St.
    + now injection St as <- _.
Qed.

(** What an update writes back passes the validators. *)
Lemma Mongo_PUT_valid (k : string) (req : Mongo.account_fields) (s : Mongo.state)
    (old : Mongo.Account) :
  status (fst (Mongo.PUT_api_accounts KEY k req s)) = 200 ->
  Mongo.findByKey (Mongo.db s) k = Some old ->
  forall doc : Mongo.Account,
    Mongo.db (snd (Mongo.PUT_api_accounts KEY k req s)) !! Mongo.key old = Some doc ->
    Mongo.validate doc = true.
Proof.
  intros H Hf doc Hd.
  pose proof (Mongo_PUT_outcome KEY k req s) as O.
  destruct (Mongo.PUT_api_accounts KEY k req s) as [res s']. cbn [fst snd] in *.
  destruct O as [(_ & old' & doc' & Hf' & Hdb & Hv & _) | [(O & _) | (O & _)]];
    [| congruence | congruence].
  rewrite Hf in Hf'. injection Hf' as <-.
  rewrite Hdb, lookup_insert_eq in Hd. now injection Hd as <-.
Qed.

Lemma Mongo_handle_consistent (r : MongoAPI.request) (s : Mongo.state) :
  MongoAPI.consistent (Mongo.db s) ->
  MongoAPI.consistent (Mongo.db (snd (MongoAPI.handle speakeasy KEY r s))).
Proof.
  intros C.
  destruct r as [now k | now | now body | | k body | k]; cbn [MongoAPI.handle].
  - rewrite Mongo_GET_api_code_reads. exact C.
  - exact C.
  - destruct (Z.eq_dec (status (fst (Mongo.POST_api_accounts speakeasy KEY now body s))) 201)
      as [E | E].
    + destruct (Mongo_POST_created now body s E) as (stored & Hdb & Hv & _).
      rewrite Hdb. intros k doc H.
      destruct (decide (JS.trim (JS.default (Mongo.r_key body) "") = k)) as [<- | Hne].
      * rewrite lookup_insert_eq in H. injection H as <-.
        split; [exact Hv|]. split; [reflexivity | apply trim_idempotent].
      * rewrite lookup_insert_ne in H by exact Hne. now apply C.
    + pose proof (Mongo_POST_outcome speakeasy KEY now body s) as O.
      destruct (Mongo.POST_api_accounts speakeasy KEY now body s) as [res s'].
      cbn [fst snd] in *. destruct O as [(O & _) | (_ & O & _)]; [contradiction|].
      now rewrite O.
  - exact C.
  - destruct (Z.eq_dec (status (fst (Mongo.PUT_api_accounts KEY k body s))) 200)
      as [E | E].
    + destruct (Mongo_PUT_updated k body s E) as (old & doc & Hf & Hdb & Hk & _).
      pose proof (Mongo_PUT_valid k body s old E Hf) as Hv.
      destruct (C _ _ Hf) as (_ & Ko & To).
      intros k' doc' H. rewrite Hdb in H.
      destruct (decide (Mongo.key old = k')) as [<- | Hne].
      * rewrite lookup_insert_eq in H. injection H as <-.
        split; [|split; [exact Hk | now rewrite Ko]].
        apply Hv. rewrite Hdb. apply lookup_insert_eq.
      * rewrite lookup_insert_ne in H by exact Hne. now apply C.
    + pose proof (Mongo_PUT_outcome KEY k body s) as O.
      destruct (Mongo.PUT_api_accounts KEY k body s) as [res s'].
      cbn [fst snd] in *.
      destruct O as [(O & _) | [(_ & _ & ->) | (_ & _ & ->)]];
        [contradiction | exact C | exact C].
  - unfold Mongo.DELETE_api_accounts.
    destruct (Mongo.findByKey (Mongo.db s) k); [|exact C].
    cbn [snd Mongo.db]. intros k' doc H.
    apply lookup_delete_Some in H as [_ H]. now apply C.
Qed.

Lemma Mongo_handle_recoverable (r : MongoAPI.request) (s : Mongo.state) :
  MongoAPI.recoverable KEY (Mongo.db s) ->
  MongoAPI.recoverable KEY (Mongo.db (snd (MongoAPI.handle speakeasy KEY r s))).
Proof.
  intros C.
  destruct r as [now k | now | now body | | k body | k]; cbn [MongoAPI.handle].
  - rewrite Mongo_GET_api_code_reads. exact C.
  - exact C.
  - destruct (Z.eq_dec (status (fst (Mongo.POST_api_accounts speakeasy KEY now body s))) 201)
      as [E | E].
    + destruct (Mongo_POST_created now body s E) as (stored & Hdb & _ & Hs & _).
      rewrite Hdb. intros k doc H He.
      destruct (decide (JS.trim (JS.default (Mongo.r_key body) "") = k)) as [<- | Hne].
      * rewrite lookup_insert_eq in H. injection H as <-.
        cbn [Mongo.new_Account Mongo.encrypted Mongo.secret] in *.
        rewrite He in Hs. eauto.
      * rewrite lookup_insert_ne in H by exact Hne. now apply (C k).
    + pose proof (Mongo_POST_outcome speakeasy KEY now body s) as O.
      destruct (Mongo.POST_api_accounts speakeasy KEY now body s) as [res s'].
      cbn [fst snd] in *. destruct O as [(O & _) | (_ & O & _)]; [contradiction|].
      now rewrite O.
  - exact C.
  - destruct (Z.eq_dec (status (fst (Mongo.PUT_api_accounts KEY k body s))) 200)
      as [E | E].
    + destruct (Mongo_PUT_updated k body s E) as (old & doc & Hf & Hdb & _ & _ & _ & Hs).
      intros k' doc' H He. rewrite Hdb in H.
      destruct (decide (Mongo.key old = k')) as [<- | Hne].
      * rewrite lookup_insert_eq in H. injection H as <-.
        destruct (JS.falsy_str (Mongo.r_secret body)).
        -- destruct Hs as [Hs1 Hs2]. rewrite Hs1. rewrite Hs2 in He.
           exact (C _ _ Hf He).
        -- destruct Hs as [_ Hs]. rewrite He in Hs. eauto.
      * rewrite lookup_insert_ne in H by exact Hne. now apply (C k').
    + pose proof (Mongo_PUT_outcome KEY k body s) as O.
      destruct (Mongo.PUT_api_accounts KEY k body s) as [res s'].
      cbn [fst snd] in *.
      destruct O as [(O & _) | [(_ & _ & ->) | (_ & _ & ->)]];
        [contradiction | exact C | exact C].
  - unfold Mongo.DELETE_api_accounts.
    destruct (Mongo.findByKey (Mongo.db s) k); [|exact C].
    cbn [snd Mongo.db]. intros k' doc H.
    apply lookup_delete_Some in H as [_ H]. now apply (C k').
Qed.

(** X12.  Whatever requests were served since the collection was empty,
    every document in it passes the validators of the schema, sits under
    its own trimmed key, so that [findByKey] with its key finds it, and,
    when it is flagged as encrypted, holds a secret that decrypts under the
    key of the process. *)
Theorem collection_stays_consistent (rs : list MongoAPI.request) (g : entropy) :
  let db := Mongo.db (MongoAPI.serve speakeasy KEY rs
                        {| Mongo.db := ∅; Mongo.random := g |}) in
  MongoAPI.consistent db /\ MongoAPI.recoverable KEY db
  /\ Mongo.valid_store db.
Proof.
  cbv zeta.
  assert (H : MongoAPI.consistent
                (Mongo.db (MongoAPI.serve speakeasy KEY rs
                             {| Mongo.db := ∅; Mongo.random := g |}))
              /\ MongoAPI.recoverable KEY
                   (Mongo.db (MongoAPI.serve speakeasy KEY rs
                                {| Mongo.db := ∅; Mongo.random := g |}))).
  { induction rs as [|r rs IH] using rev_ind.
    - split; intros k doc H; cbn in H; now rewrite lookup_empty in H.
    - unfold MongoAPI.serve. rewrite fold_left_app. cbn [fold_left].
      destruct IH as [I1 I2].
      split; [now apply Mongo_handle_consistent | now apply Mongo_handle_recoverable]. }
  destruct H as [H1 H2]. split; [exact H1|]. split; [exact H2|].
  intros k doc Hk. exact (proj1 (H1 k doc Hk)).
Qed.

(** X13.  [PUT /api/accounts/:key] on an unknown key answers 404 and writes
    nothing.  On a known key it answers 200 or 500; with 500 the collection
    is as before, and with 200 one document was written back, under the key
    it had, with its key, type and counter unchanged, and with its secret
    and its [encrypted] flag unchanged unless the request carried a
    secret. *)
Theorem update_keeps_key_type_and_counter
    (k : string) (req : Mongo.account_fields) (s : Mongo.state) :
  let '(res, s') := Mongo.PUT_api_accounts KEY k req s in
  match Mongo.findByKey (Mongo.db s) k with
  | None => status res = 404 /\ s' = s
  | Some old =>
      (status res = 500 /\ Mongo.db s' = Mongo.db s)
      \/ (status res = 200
          /\ exists doc : Mongo.Account,
               Mongo.db s' = <[Mongo.key old := doc]> (Mongo.db s)
               /\ Mongo.key doc = Mongo.key old
               /\ Mongo.type doc = Mongo.type old
               /\ Mongo.counter doc = Mongo.counter old
               /\ (JS.falsy_str (Mongo.r_secret req) = true ->
                   Mongo.secret doc = Mongo.secret old
                   /\ Mongo.encrypted doc = Mongo.encrypted old))
  end.
Proof.
  pose proof (Mongo_PUT_updated k req s) as U.
  destruct (Mongo.PUT_api_accounts KEY k req s) as [res s'] eqn:P.
  cbn [fst snd] in U.
  destruct (Mongo.findByKey (Mongo.db s) k) as [old|] eqn:Hf.
  - destruct (Z.eq_dec (status res) 200) as [E | E].
    + right. split; [exact E|].
      destruct (U E) as (old' & doc & [= <-] & Hdb & Hk & Ht & Hc & Hs).
      exists doc. split; [exact Hdb|]. split; [exact Hk|]. split; [exact Ht|].
      split; [exact Hc|]. intros F. rewrite F in Hs. exact Hs.
    + left. revert P E. unfold Mongo.PUT_api_accounts. rewrite Hf.
      destruct (Mongo.assign KEY req old (Mongo.random s)) as [[doc|e] g];
        cbn [bind].
      * destruct (Mongo.save_modified (Mongo.db s) old doc); cbn [bind];
          intros [= <- <-]; cbn; intros E; [contradiction | auto].
      * intros [= <- <-]. auto.
  - revert P. unfold Mongo.PUT_api_accounts. rewrite Hf. now intros [= <- <-].
Qed.

(** X14.  An update of a document that passes the validators, carrying a
    secret, stores the secret as it comes: no call of the library stands
    between the request and the collection, so a secret that creation
    would refuse is accepted.  When the request does not repeat [encrypt],
    the secret is stored in the clear and the document is flagged as not
    encrypted, whatever it was before. *)
Theorem update_stores_the_secret_unchecked
    (k secret : string) (s : Mongo.state) (old : Mongo.Account)
    (Hfound : Mongo.findByKey (Mongo.db s) k = Some old)
    (Hvalid : Mongo.validate old = true)
    (Hsecret : secret <> "") :
  let req :=
    {| Mongo.r_key := None; Mongo.r_name := None; Mongo.r_secret := Some secret;
       Mongo.r_digits := None; Mongo.r_period := None; Mongo.r_algorithm := None;
       Mongo.r_type := None; Mongo.r_counter := None; Mongo.r_encrypt := None |} in
  let doc :=
    {| Mongo.key := Mongo.key old; Mongo.name := Mongo.name old;
       Mongo.secret := secret; Mongo.encrypted := false;
       Mongo.digits := Mongo.digits old; Mongo.period := Mongo.period old;
       Mongo.algorithm := Mongo.algorithm old; Mongo.type := Mongo.type old;
       Mongo.counter := Mongo.counter old |} in
  status (fst (Mongo.PUT_api_accounts KEY k req s)) = 200
  /\ snd (Mongo.PUT_api_accounts KEY k req s)
     = {| Mongo.db := <[Mongo.key old := doc]> (Mongo.db s);
          Mongo.random := Mongo.random s |}.
Proof.
  intros req doc. unfold Mongo.PUT_api_accounts. rewrite Hfound.
  unfold Mongo.assign. cbn [Mongo.r_secret Mongo.r_name Mongo.r_digits Mongo.r_period
                             Mongo.r_algorithm Mongo.r_encrypt req].
  rewrite (falsy_str_Some secret Hsecret).
  cbn [JS.falsy_str JS.or_num JS.or_bool JS.default Mongo.stored_secret bind].
  fold doc. unfold Mongo.save_modified.
  assert (Mongo.validate doc = true) as ->.
  { apply validate_fields in Hvalid as (V1 & V2 & _ & V4 & V5 & V6 & V7).
    unfold Mongo.validate, doc.
    cbn [Mongo.key Mongo.name Mongo.secret Mongo.digits Mongo.period Mongo.algorithm
         Mongo.type].
    rewrite V1, V2, V4, V5, V6, V7.
    unfold Mongo.required, JS.truthy.
    destruct (String.eqb_spec secret ""); [contradiction | reflexivity]. }
  cbn [bind fst snd]. split; reflexivity.
Qed.

(** X15.  [DELETE /api/accounts/:key] answers 404 and changes nothing when
    the key is unknown.  Otherwise it removes that document and no other,
    and a second deletion, or a code request for the key, is answered
    404. *)
Theorem delete_removes_one_document (now : Z) (k : string) (s : Mongo.state) :
  let '(res, s') := Mongo.DELETE_api_accounts k s in
  match Mongo.findByKey (Mongo.db s) k with
  | None => status res = 404 /\ s' = s
  | Some _ =>
      status res = 200
      /\ Mongo.findByKey (Mongo.db s') k = None
      /\ (forall k' : string, k' <> JS.trim k -> Mongo.db s' !! k' = Mongo.db s !! k')
      /\ Mongo.random s' = Mongo.random s
      /\ status (fst (Mongo.DELETE_api_accounts k s')) = 404
      /\ status (fst (Mongo.GET_api_code speakeasy KEY now k s')) = 404
  end.
Proof.
  unfold Mongo.DELETE_api_accounts.
  destruct (Mongo.findByKey (Mongo.db s) k) eqn:Hf; [|split; reflexivity].
  assert (Hgone : Mongo.findByKey (delete (JS.trim k) (Mongo.db s)) k = None)
    by apply lookup_delete_eq.
  split; [reflexivity|]. cbn [Mongo.db Mongo.random].
  split; [exact Hgone|].
  split; [intros k' Hk'; apply lookup_delete_ne; congruence|].
  split; [reflexivity|].
  unfold Mongo.GET_api_code. cbn [Mongo.db]. rewrite Hgone. split; reflexivity.
Qed.

(** X16.  A document that was just created is found under the key of the
    request, trimmed, and is issued from the secret of the request: the
    code route reaches the library with that secret and the stored
    parameters, and answers 200 exactly when the library returns. *)
Theorem created_document_is_issued_from_the_request
    (now now' : Z) (req : Mongo.account_fields) (s : Mongo.state)
    (Hcreated : status (fst (Mongo.POST_api_accounts speakeasy KEY now req s)) = 201) :
  let s' := snd (Mongo.POST_api_accounts speakeasy KEY now req s) in
  let key := JS.default (Mongo.r_key req) "" in
  exists doc : Mongo.Account,
    Mongo.findByKey (Mongo.db s') key = Some doc
    /\ Mongo.key doc = JS.trim key
    /\ Mongo.name doc = JS.trim (JS.or_str (Mongo.r_name req) key)
    /\ Mongo.counter doc = JS.or_num (Mongo.r_counter req) 0
    /\ Mongo.validate doc = true
    /\ (let library :=
          totp speakeasy {| o_secret := JS.default (Mongo.r_secret req) "";
                            o_algorithm := Some (Mongo.algorithm doc);
                            o_digits := Some (Mongo.digits doc);
                            o_step := Some (Mongo.period doc);
                            o_window := Some 0 |} now' in
        status (fst (Mongo.GET_api_code speakeasy KEY now' key s'))
        = (if is_Ok library then 200 else 500)).
Proof.
  intros s' key.
  destruct (Mongo_POST_created now req s Hcreated) as (stored & Hdb & Hv & Hs & _).
  fold s' key in Hdb. cbv zeta in Hdb, Hv.
  eexists. unfold Mongo.findByKey. rewrite Hdb, lookup_insert_eq.
  split; [reflexivity|]. split; [reflexivity|]. split; [reflexivity|].
  split; [reflexivity|]. split; [exact Hv|].
  cbv zeta. unfold Mongo.GET_api_code, Mongo.findByKey.
  rewrite Hdb, lookup_insert_eq. unfold Mongo.issue.
  cbn [Mongo.new_Account Mongo.encrypted Mongo.secret Mongo.algorithm Mongo.digits
       Mongo.period Mongo.name].
  assert (Hsec : (if JS.or_bool (Mongo.r_encrypt req) false
                  then Mongo.decrypt KEY stored else Ok stored)
                 = Ok (JS.default (Mongo.r_secret req) "")).
  { destruct (JS.or_bool (Mongo.r_encrypt req) false); [exact Hs | now rewrite Hs]. }
  rewrite Hsec. cbn [bind].
  destruct (totp speakeasy _ now'); reflexivity.
Qed.

(** X17.  [generateCode] of the model, which decrypts in place, and the
    code route, which calls [decrypt], compute the same thing: for a
    document the route finds, its answer carries the code, the remaining
    time and the expiry the method returns, and it fails when the method
    throws. *)
Theorem generateCode_agrees_with_the_route
    (now : Z) (k : string) (s : Mongo.state) (doc : Mongo.Account)
    (Hfound : Mongo.findByKey (Mongo.db s) k = Some doc) :
  MongoAPI.generateCode_method speakeasy KEY now doc
  = Mongo.generateCode speakeasy KEY now doc
  /\ fst (Mongo.GET_api_code speakeasy KEY now k s)
     = match MongoAPI.generateCode_method speakeasy KEY now doc with
       | Ok (code, timeRemaining, expiresAt) =>
           json 200 (JS.JObj [("account", JS.JStr (JS.or_str (Some (Mongo.name doc)) k));
                              ("code", JS.JStr code);
                              ("algorithm", JS.JStr (Mongo.algorithm doc));
                              ("timeRemaining", JS.JNum timeRemaining);
                              ("expiresAt", JS.JNum expiresAt)])
       | Throw e => Mongo.server_error "Failed to generate code" e
       end.
Proof.
  assert (E : MongoAPI.generateCode_method speakeasy KEY now doc
              = Mongo.generateCode speakeasy KEY now doc).
  { unfold MongoAPI.generateCode_method, Mongo.generateCode, Mongo.issue,
      Mongo.decrypt, Mongo.key_bytes, time_remaining, bind.
    destruct (Mongo.encrypted doc).
    - destruct (Crypto.decipher_aes_256_cbc _ _ _); [|reflexivity].
      destruct (totp speakeasy _ now); reflexivity.
    - destruct (totp speakeasy _ now); reflexivity. }
  split; [exact E|]. rewrite E.
  unfold Mongo.GET_api_code, Mongo.generateCode. rewrite Hfound.
  destruct (Mongo.issue speakeasy KEY now (JS.round_div_1000 now) doc) as [[token t]|e];
    reflexivity.
Qed.

(** X18.  [GET /api/codes] reads only: it answers 200 with one entry for
    each document and leaves the state as it was; a document whose
    issuance throws gets an entry with the error and costs the others
    nothing. *)
Theorem codes_reads_every_document (now : Z) (s : Mongo.state) :
  let '(res, s') := Mongo.GET_api_codes speakeasy KEY now s in
  s' = s
  /\ exists entries : list JS.json,
       res = json 200 (JS.JObj [("codes", JS.JArr entries)])
       /\ length entries = length (map_to_list (Mongo.db s))
       /\ forall (k : string) (doc : Mongo.Account),
            Mongo.db s !! k = Some doc ->
            match Mongo.issue speakeasy KEY now (JS.round_div_1000 now) doc with
            | Ok (token, timeRemaining) =>
                In (JS.JObj [("key", JS.JStr (Mongo.key doc));
                             ("name", JS.JStr (Mongo.name doc));
                             ("code", JS.JStr token);
                             ("algorithm", JS.JStr (Mongo.algorithm doc));
                             ("timeRemaining", JS.JNum timeRemaining)]) entries
            | Throw _ =>
                In (JS.JObj [("key", JS.JStr (Mongo.key doc));
                             ("name", JS.JStr (Mongo.name doc));
                             ("error", JS.JStr "Failed to generate code")]) entries
            end.
Proof.
  unfold Mongo.GET_api_codes. cbv zeta. split; [reflexivity|].
  eexists. split; [reflexivity|]. split; [now rewrite length_map|].
  intros k doc Hk.
  match goal with
  | |- context [map ?f (map_to_list (Mongo.db s))] =>
      pose proof (in_map f (map_to_list (Mongo.db s)) (k, doc)) as Hin
  end.
  specialize (Hin (proj1 (list_elem_of_In _ _) (proj2 (elem_of_map_to_list _ _ _) Hk))).
  cbn beta in Hin.
  cbn [snd] in Hin.
  destruct (Mongo.issue speakeasy KEY now (JS.round_div_1000 now) doc) as [[token t]|e];
    exact Hin.
Qed.

End MongoRequests.

(* ===================================================================== *)
(** * What the validating call of a creation lets through *)
(* ===================================================================== *)

Section Validation.

Local Open Scope Z_scope.
Local Open Scope string_scope.

(** C6.  A creation request checks its secret in one place, the call of
    [speakeasy.totp] that the routes make "to validate the secret", and
    nowhere against the base32 alphabet.  So the check is what the library
    makes of it.  In the in-memory service every request with a key that is
    free and a secret for which the call returns is answered 201, and the
    account it stores gives the normalised secret back; in the MongoDB-backed
    service a request answered 201 stored the secret as it came.  The
    library decodes base32 leniently and returns a token for a secret with
    characters outside the alphabet: with a library that does, the secret
    ["not base32!"] is stored by both services, ["NOTBASE32!"] in the
    in-memory one, and the request is answered 201. *)
Theorem C6_secret_outside_base32_is_stored :
  (forall (speakeasy : Speakeasy) (env : option string) (now : Z)
          (req : Fixed.new_account) (s : Fixed.state),
      JS.falsy_str (Fixed.r_key req) = false ->
      JS.falsy_str (Fixed.r_secret req) = false ->
      Fixed.get (Fixed.accounts s) (JS.default (Fixed.r_key req) "") = Fixed.Undefined ->
      is_Ok (Fixed.validation speakeasy now req) = true ->
      let '(res, s') := Fixed.POST_api_accounts speakeasy env now req s in
      status res = 201
      /\ exists account : Fixed.Account,
           Fixed.accounts s' !! JS.default (Fixed.r_key req) "" = Some account
           /\ FixedAPI.plaintext env account
              = Ok (Fixed.normalizeBase32 (JS.default (Fixed.r_secret req) "")))
  /\ (forall (speakeasy : Speakeasy) (KEY : string) (now : Z)
             (req : Mongo.account_fields) (s : Mongo.state),
      let '(res, s') := Mongo.POST_api_accounts speakeasy KEY now req s in
      status res = 201 ->
      is_Ok (Mongo.validation speakeasy now req) = true
      /\ exists doc : Mongo.Account,
           Mongo.findByKey (Mongo.db s') (JS.default (Mongo.r_key req) "") = Some doc
           /\ (if Mongo.encrypted doc then Mongo.decrypt KEY (Mongo.secret doc)
               else Ok (Mongo.secret doc))
              = Ok (JS.default (Mongo.r_secret req) ""))
  /\ Sample.is_base32 (Fixed.normalizeBase32 "not base32!") = false
  /\ (let '(res, s') :=
        Fixed.POST_api_accounts Sample.speakeasy None 0 Sample.malformed Sample.memory in
      status res = 201
      /\ (FixedAPI.plaintext None <$> Fixed.accounts s' !! "bank")
         = Some (Ok "NOTBASE32!"))
  /\ (let '(res, s') :=
        Mongo.POST_api_accounts Sample.speakeasy Sample.hex_key 0
          Sample.mongo_malformed Sample.collection in
      status res = 201
      /\ (Mongo.secret <$> Mongo.db s' !! "bank") = Some "not base32!").
Proof.
  split; [|split; [|split; [|split]]].
  - intros speakeasy env now req s Hk Hs Hfree Hv.
    assert (H201 : status (fst (Fixed.POST_api_accounts speakeasy env now req s)) = 201).
    { unfold Fixed.POST_api_accounts, Fixed.validation in *.
      rewrite Hk, Hs, Hfree. cbn [orb].
      destruct (totp speakeasy _ now) as [tok|e]; [|discriminate].
      destruct (JS.default (Fixed.r_encrypt req) true); [|reflexivity].
      destruct (Fixed_encrypt_succeeds env
                  (Fixed.normalizeBase32 (JS.default (Fixed.r_secret req) ""))
                  (Fixed.random s)) as [envelope He].
      destruct (Fixed.encrypt _ _ _) as [stored g]. cbn [fst] in He. subst stored.
      reflexivity. }
    destruct (Fixed_POST_created speakeasy env now req s H201) as (stored & Hdb & Hst & _).
    destruct (Fixed.POST_api_accounts speakeasy env now req s) as [res s'].
    cbn [fst snd] in *. split; [exact H201|].
    rewrite Hdb, lookup_insert_eq. eexists. split; [reflexivity|].
    unfold FixedAPI.plaintext. cbn [Fixed.encrypted Fixed.secret].
    destruct (JS.default (Fixed.r_encrypt req) true).
    + rewrite Hst. cbn [bind]. now rewrite normalizeBase32_idempotent.
    + rewrite Hst. cbn [bind]. now rewrite normalizeBase32_idempotent.
  - intros speakeasy KEY now req s.
    pose proof (Mongo_POST_created speakeasy KEY now req s) as H.
    destruct (Mongo.POST_api_accounts speakeasy KEY now req s) as [res s'].
    cbn [fst snd] in H. intros H201.
    destruct (H H201) as (stored & Hdb & _ & Hst & Hv).
    split; [exact Hv|].
    unfold Mongo.findByKey. rewrite Hdb, lookup_insert_eq.
    eexists. split; [reflexivity|].
    unfold Mongo.new_Account. cbn [Mongo.encrypted Mongo.secret].
    destruct (JS.or_bool (Mongo.r_encrypt req) false); [exact Hst | now rewrite Hst].
  - vm_compute. reflexivity.
  - vm_compute. split; reflexivity.
  - vm_compute. split; reflexivity.
Qed.

End Validation.

Section MongoKey.

Local Open Scope string_scope.

Lemma from_hex_length_bound (n : nat) (s : string) :
  (String.length s <= n)%nat ->
  (2 * length (Buffer.from_hex s) <= String.length s)%nat.
Proof.
  revert s. induction n as [n IH] using lt_wf_ind. intros s Hn.
  destruct s as [|a [|b s]]; cbn [Buffer.from_hex String.length length]; try lia.
  destruct (Buffer.unhex a); cbn [length]; [|lia].
  destruct (Buffer.unhex b); cbn [length]; [|lia].
  cbn [String.length] in Hn.
  specialize (IH (String.length s) ltac:(lia) s ltac:(lia)). lia.
Qed.

Lemma substring_length_bound (n : nat) (s : string) :
  (String.length (substring 0 n s) <= String.length s)%nat.
Proof.
  revert s. induction n as [|n IH]; intros [|c s]; cbn [substring String.length]; try lia.
  specialize (IH s). lia.
Qed.

Lemma substring_append (a b : string) :
  substring 0 (String.length a) (a ++ b) = a.
Proof.
  induction a as [|c a IH].
  - cbn [String.length]. destruct b; reflexivity.
  - rewrite append_String. cbn [String.length substring]. now rewrite IH.
Qed.

(** X19.  The key of [src/server.js] is the first 64 hexadecimal digits of
    its text and nothing more.  A text of fewer than 64 characters gives
    fewer than 32 bytes, and then every [encrypt] throws on the length of
    the key and every [decrypt] throws: on the length of the nonce, which
    is looked at first, when the text before the first colon does not
    decode to sixteen bytes, and on the length of the key otherwise.  What
    follows the 64 digits of a key is never read. *)
Theorem key_is_the_first_64_digits
    (KEY extra : string) (l : list byte)
    (Hshort : (String.length KEY < 64)%nat)
    (Hlong : length l = 32%nat) :
  (forall (text : string) (g : entropy),
      fst (Mongo.encrypt KEY text g) = Throw ERR_CRYPTO_INVALID_KEYLEN)
  /\ (forall text : string,
        Mongo.decrypt KEY text
        = Throw (if Nat.eqb (length (Buffer.from_hex (nth 0 (JS.split ":" text) ""))) 16
                 then ERR_CRYPTO_INVALID_KEYLEN
                 else ERR_CRYPTO_INVALID_IV))
  /\ Mongo.key_bytes (Buffer.toString_hex l ++ extra) = l
  /\ (forall (text : string) (g : entropy),
        Mongo.encrypt (Buffer.toString_hex l ++ extra) text g
        = Mongo.encrypt (Buffer.toString_hex l) text g).
Proof.
  assert (Hk : Nat.eqb (length (Mongo.key_bytes KEY)) 32 = false).
  { apply Nat.eqb_neq. unfold Mongo.key_bytes, JS.slice0.
    pose proof (from_hex_length_bound _ (substring 0 64 KEY) (Nat.le_refl _)).
    pose proof (substring_length_bound 64 KEY). lia. }
  assert (Hb : forall extra', Mongo.key_bytes (Buffer.toString_hex l ++ extra') = l).
  { intros extra'. unfold Mongo.key_bytes, JS.slice0.
    replace 64%nat with (String.length (Buffer.toString_hex l))
      by (rewrite toString_hex_length; lia).
    now rewrite substring_append, from_hex_toString_hex. }
  split; [|split; [|split]].
  - intros text g. unfold Mongo.encrypt. cbn [randomBytes fst].
    unfold Crypto.cipher_aes_256_cbc, Crypto.check_key_iv. now rewrite Hk.
  - intros text. unfold Mongo.decrypt, Crypto.decipher_aes_256_cbc, Crypto.check_key_iv.
    destruct (Nat.eqb (length (Buffer.from_hex (nth 0 (JS.split ":" text) ""))) 16);
      [now rewrite Hk | reflexivity].
  - apply Hb.
  - intros text g.
    assert (Hb0 : Mongo.key_bytes (Buffer.toString_hex l) = l).
    { unfold Mongo.key_bytes. rewrite slice0_all by (rewrite toString_hex_length; lia).
      apply from_hex_toString_hex. }
    unfold Mongo.encrypt. now rewrite Hb, Hb0.
Qed.

End MongoKey.

(* ===================================================================== *)
(** * Beyond the specification: the earlier in-memory service *)
(* ===================================================================== *)

Section LegacyRequests.

Local Open Scope Z_scope.
Local Open Scope string_scope.

Variable speakeasy : Speakeasy.
Variable totp_without_secret : result string.
Variable KEY : string.

Lemma Legacy_get_Own_inv (m : gmap string Legacy.Account) (k : string)
    (account : Legacy.Account) :
  Legacy.get m k = Legacy.Own account -> m !! k = Some account.
Proof.
  unfold Legacy.get. destruct (m !! k); [now intros [= ->]|].
  destruct (existsb _ _); discriminate.
Qed.

Lemma or_num_nonzero (o : option Z) (d : Z) : d <> 0 -> JS.or_num o d <> 0.
Proof.
  intros Hd. unfold JS.or_num. destruct o as [z|]; [|exact Hd].
  destruct (Z.eqb_spec z 0); [exact Hd | assumption].
Qed.

Lemma or_str_nonempty (o : option string) (d : string) : d <> "" -> JS.or_str o d <> "".
Proof.
  intros Hd. unfold JS.or_str, JS.truthy. destruct o as [a|]; [|exact Hd].
  destruct (String.eqb_spec a ""); [exact Hd | assumption].
Qed.

(** A creation stores one well-formed account or nothing. *)
Lemma Legacy_POST_stores (now : Z) (req : Legacy.new_account) (s : Legacy.state) :
  (exists account : Legacy.Account,
      Legacy.accounts (snd (Legacy.POST_api_accounts speakeasy KEY now req s))
      = <[JS.default (Legacy.r_key req) "" := account]> (Legacy.accounts s)
      /\ Legacy.well_formed KEY account)
  \/ Legacy.accounts (snd (Legacy.POST_api_accounts speakeasy KEY now req s))
     = Legacy.accounts s.
Proof.
  unfold Legacy.POST_api_accounts.
  destruct (JS.falsy_str (Legacy.r_key req)) eqn:Fk; cbn [orb]; [now right|].
  destruct (JS.falsy_str (Legacy.r_secret req)); [now right|].
  destruct (Legacy.get (Legacy.accounts s) _); [now right | now right |].
  destruct (totp speakeasy _ now); [|now right].
  assert (Hkey : JS.default (Legacy.r_key req) "" <> "").
  { apply falsy_str_inv in Fk as (k & -> & Hk). exact Hk. }
  assert (W : forall (stored : string) (b : bool) (plain : string),
             (if b then Legacy.decrypt KEY stored else Ok stored) = Ok plain ->
             Legacy.well_formed KEY
               {| Legacy.name := JS.or_str (Legacy.r_name req)
                                           (JS.default (Legacy.r_key req) "");
                  Legacy.secret := stored; Legacy.encrypted := b;
                  Legacy.digits := JS.or_num (Legacy.r_digits req) 6;
                  Legacy.period := JS.or_num (Legacy.r_period req) 30;
                  Legacy.addedAt := now |}).
  { intros stored b plain H. unfold Legacy.well_formed.
    cbn [Legacy.digits Legacy.period Legacy.name Legacy.encrypted Legacy.secret].
    split; [apply or_num_nonzero; lia|]. split; [apply or_num_nonzero; lia|].
    split; [now apply or_str_nonempty | eauto]. }
  destruct (JS.or_bool (Legacy.r_encrypt req) false).
  - destruct (Legacy.encrypt KEY _ (Legacy.random s)) as [[stored|e] g] eqn:Enc;
      [|now right].
    left. eexists. split; [reflexivity|].
    apply (W stored true (JS.default (Legacy.r_secret req) "")).
    apply (Mongo_decrypt_encrypt _ _ _ (Legacy.random s)).
    unfold Legacy.encrypt in Enc. now rewrite Enc.
  - left. eexists. split; [reflexivity|].
    now apply (W (JS.default (Legacy.r_secret req) "") false
                 (JS.default (Legacy.r_secret req) "")).
Qed.

(** X20.  What a creation request can do in the earlier service: it stores
    one account, under the key of the request, or it stores nothing.  The
    account stored reads back the secret of the request, which the library
    accepted, and none of the defaults [|| 6], [|| 30] and [|| key] of the
    routes apply to it.  A secret the library refuses is answered 400, a
    key that is taken, or that names a member of [Object.prototype], 409. *)
Theorem earlier_service_creates_all_or_nothing
    (now : Z) (req : Legacy.new_account) (s : Legacy.state) :
  let '(res, s') := Legacy.POST_api_accounts speakeasy KEY now req s in
  let key := JS.default (Legacy.r_key req) "" in
  let secret := JS.default (Legacy.r_secret req) "" in
  (status res = 201
   /\ Legacy.get (Legacy.accounts s) key = Legacy.Undefined
   /\ is_Ok (totp speakeasy {| o_secret := secret; o_algorithm := Some "sha1";
                               o_digits := None; o_step := None;
                               o_window := None |} now) = true
   /\ exists account : Legacy.Account,
        Legacy.accounts s' = <[key := account]> (Legacy.accounts s)
        /\ Legacy.well_formed KEY account
        /\ (if Legacy.encrypted account
            then Legacy.decrypt KEY (Legacy.secret account)
            else Ok (Legacy.secret account)) = Ok secret)
  \/ (In (status res) [400; 409; 500]
      /\ Legacy.accounts s' = Legacy.accounts s
      /\ (Legacy.get (Legacy.accounts s) key <> Legacy.Undefined ->
          status res <> 201 /\ s' = s)).
Proof.
  unfold Legacy.POST_api_accounts.
  destruct (JS.falsy_str (Legacy.r_key req)) eqn:Fk; cbn [orb].
  { right. cbn. repeat split; auto; discriminate. }
  destruct (JS.falsy_str (Legacy.r_secret req)) eqn:Fs.
  { right. cbn. repeat split; auto; discriminate. }
  destruct (Legacy.get (Legacy.accounts s) (JS.default (Legacy.r_key req) "")) eqn:Hg.
  1, 2: right; cbn; repeat split; auto; discriminate.
  destruct (totp speakeasy _ now) eqn:Hv.
  2: { right. cbn. repeat split; auto; intros; contradiction. }
  assert (Hkey : JS.default (Legacy.r_key req) "" <> "").
  { apply falsy_str_inv in Fk as (k & -> & Hk). exact Hk. }
  destruct (JS.or_bool (Legacy.r_encrypt req) false) eqn:E.
  - destruct (Legacy.encrypt KEY _ (Legacy.random s)) as [[stored|e] g] eqn:Enc.
    2: { right. cbn. repeat split; auto; intros; contradiction. }
    left. cbn [status json]. split; [reflexivity|]. split; [reflexivity|].
    split; [reflexivity|]. eexists. split; [reflexivity|].
    assert (Hd : Legacy.decrypt KEY stored = Ok (JS.default (Legacy.r_secret req) "")).
    { apply (Mongo_decrypt_encrypt _ _ _ (Legacy.random s)).
      unfold Legacy.encrypt in Enc. now rewrite Enc. }
    unfold Legacy.well_formed.
    cbn [Legacy.digits Legacy.period Legacy.name Legacy.encrypted Legacy.secret].
    repeat split; try (apply or_num_nonzero; lia); try (now apply or_str_nonempty);
      eauto.
  - left. cbn [status json]. split; [reflexivity|]. split; [reflexivity|].
    split; [reflexivity|]. eexists. split; [reflexivity|].
    unfold Legacy.well_formed.
    cbn [Legacy.digits Legacy.period Legacy.name Legacy.encrypted Legacy.secret].
    repeat split; try (apply or_num_nonzero; lia); try (now apply or_str_nonempty);
      eauto.
Qed.

Lemma Legacy_handle_well_formed (r : Legacy.request) (s : Legacy.state) :
  (forall k account, Legacy.accounts s !! k = Some account ->
                     Legacy.well_formed KEY account) ->
  forall k account,
    Legacy.accounts (snd (Legacy.handle speakeasy totp_without_secret KEY r s)) !! k
    = Some account ->
    Legacy.well_formed KEY account.
Proof.
  intros C.
  destruct r as [now key | now | now body | | key | now]; cbn [Legacy.handle].
  - unfold Legacy.GET_api_code.
    destruct (Legacy.get (Legacy.accounts s) key); [| |exact C].
    + destruct (Legacy.token_of speakeasy KEY now account); exact C.
    + destruct totp_without_secret; exact C.
  - exact C.
  - destruct (Legacy_POST_stores now body s) as [(account & -> & W) | ->]; [|exact C].
    intros k a H.
    destruct (decide (JS.default (Legacy.r_key body) "" = k)) as [<- | Hne].
    + rewrite lookup_insert_eq in H. now injection H as <-.
    + rewrite lookup_insert_ne in H by exact Hne. now apply (C k).
  - exact C.
  - unfold Legacy.DELETE_api_accounts.
    destruct (Legacy.get (Legacy.accounts s) key); [| |exact C];
      cbn [snd Legacy.accounts]; intros k a H;
      apply lookup_delete_Some in H as [_ H]; now apply (C k).
  - exact C.
Qed.

(** X21.  Through the routes, the store of the earlier service holds
    accounts with a digit count, a period and a name that are set, and a
    secret the code routes can read.  The defaults [|| 6] and [|| 30] of
    the code routes never apply to a stored account: the library is called
    with the stored digits and period, and with the recovered secret. *)
Theorem earlier_service_defaults_never_apply
    (rs : list Legacy.request) (g : entropy) (now : Z) (k : string)
    (account : Legacy.Account)
    (Hstored : Legacy.accounts
                 (Legacy.serve speakeasy totp_without_secret KEY rs (Legacy.started g))
               !! k = Some account) :
  Legacy.well_formed KEY account
  /\ exists plain : string,
       (if Legacy.encrypted account
        then Legacy.decrypt KEY (Legacy.secret account)
        else Ok (Legacy.secret account)) = Ok plain
       /\ Legacy.token_of speakeasy KEY now account
          = totp speakeasy {| o_secret := plain; o_algorithm := Some "sha1";
                              o_digits := Some (Legacy.digits account);
                              o_step := Some (Legacy.period account);
                              o_window := Some 0 |} now.
Proof.
  assert (W : Legacy.well_formed KEY account).
  { revert k account Hstored. induction rs as [|r rs IH] using rev_ind.
    - intros k account H. cbn in H. now rewrite lookup_empty in H.
    - unfold Legacy.serve. rewrite fold_left_app. cbn [fold_left].
      apply Legacy_handle_well_formed. exact IH. }
  split; [exact W|].
  destruct W as (Hd & Hp & _ & plain & Hs). exists plain. split; [exact Hs|].
  unfold Legacy.token_of. rewrite Hs. cbn [bind].
  now rewrite (or_num_Some _ _ Hd), (or_num_Some _ _ Hp).
Qed.

(** X22.  [DELETE /api/accounts/:key] of the earlier service answers 404
    for a key that is not there and changes nothing.  For a name of
    [Object.prototype] it answers 200 and deletes nothing.  For an account
    it removes that account and no other; a second deletion is then
    answered 404, unless the key is such a name. *)
Theorem earlier_service_delete (key : string) (s : Legacy.state) :
  let '(res, s') := Legacy.DELETE_api_accounts key s in
  match Legacy.get (Legacy.accounts s) key with
  | Legacy.Undefined => status res = 404 /\ s' = s
  | Legacy.Inherited => status res = 200 /\ s' = s
  | Legacy.Own _ =>
      status res = 200
      /\ Legacy.accounts s' !! key = None
      /\ (forall k : string, k <> key ->
                             Legacy.accounts s' !! k = Legacy.accounts s !! k)
      /\ status (fst (Legacy.DELETE_api_accounts key s'))
         = (if existsb (String.eqb key) Fixed.Object_prototype then 200 else 404)
  end.
Proof.
  unfold Legacy.DELETE_api_accounts.
  destruct (Legacy.get (Legacy.accounts s) key) eqn:Hg.
  - split; [reflexivity|]. cbn [Legacy.accounts].
    split; [apply lookup_delete_eq|].
    split; [intros k Hk; now apply lookup_delete_ne|].
    unfold Legacy.get. rewrite lookup_delete_eq.
    destruct (existsb (String.eqb key) Fixed.Object_prototype); reflexivity.
  - split; [reflexivity|].
    unfold Legacy.get in Hg. destruct (Legacy.accounts s !! key) eqn:L; [discriminate|].
    rewrite delete_id by exact L. now destruct s.
  - split; reflexivity.
Qed.

End LegacyRequests.

(* ===================================================================== *)
(** * Beyond the specification: listings, QR codes and provisioning URIs *)
(* ===================================================================== *)

Section Listings.

Local Open Scope Z_scope.
Local Open Scope string_scope.

(** X23.  No listing shows a secret.  [GET /api/accounts] of each of the
    three services answers 200 and leaves the state as it was; it lists one
    entry for each account, counts them in [total], and no entry has a
    member named [secret] or [counter]. *)
Theorem listings_show_no_secret
    (fixed : Fixed.state) (mongo : Mongo.state) (legacy : Legacy.state) :
  let listing (res : response) (n : nat) :=
    status res = 200
    /\ exists entries : list JS.json,
         field "accounts" (body res) = Some (JS.JArr entries)
         /\ field "total" (body res) = Some (JS.JNum (Z.of_nat (length entries)))
         /\ length entries = n
         /\ forall e : JS.json,
              In e entries ->
              field "secret" e = None /\ field "counter" e = None
              /\ exists k : string, field "key" e = Some (JS.JStr k) in
  (listing (fst (FixedAPI.GET_api_accounts fixed))
           (length (map_to_list (Fixed.accounts fixed)))
   /\ snd (FixedAPI.GET_api_accounts fixed) = fixed)
  /\ (listing (fst (MongoAPI.GET_api_accounts mongo))
              (length (map_to_list (Mongo.db mongo)))
      /\ snd (MongoAPI.GET_api_accounts mongo) = mongo)
  /\ (listing (fst (Legacy.GET_api_accounts legacy))
              (length (map_to_list (Legacy.accounts legacy)))
      /\ snd (Legacy.GET_api_accounts legacy) = legacy).
Proof.
  cbv zeta. split; [|split].
  - split; [|reflexivity]. split; [reflexivity|].
    eexists. split; [reflexivity|]. cbn [fst FixedAPI.GET_api_accounts].
    split; [cbn; now rewrite length_map|]. split; [now rewrite length_map|].
    intros e He. apply in_map_iff in He as ([k v] & <- & _).
    split; [reflexivity|]. split; [reflexivity|]. now exists k.
  - split; [|reflexivity]. split; [reflexivity|].
    eexists. split; [reflexivity|]. cbn [fst MongoAPI.GET_api_accounts].
    split; [reflexivity|]. split; [now rewrite length_map|].
    intros e He. apply in_map_iff in He as ([k v] & <- & _).
    split; [reflexivity|]. split; [reflexivity|]. now exists (Mongo.key v).
  - split; [|reflexivity]. split; [reflexivity|].
    eexists. split; [reflexivity|]. cbn [fst Legacy.GET_api_accounts].
    split; [reflexivity|]. split; [now rewrite length_map|].
    intros e He. apply in_map_iff in He as ([k v] & <- & _).
    split; [reflexivity|]. split; [reflexivity|]. now exists k.
Qed.

End Listings.

Section QRCodes.

Local Open Scope Z_scope.
Local Open Scope string_scope.

Context {number : Type} (Number : OTPAuth.primitive -> number).
Variable scan : string -> result (option string).

Lemma parseOTPAuth_inv (url : string) (r : OTPAuth.parsed) :
  OTPAuth.parseOTPAuth Number url = Ok r ->
  JS.startsWith "otpauth://" url = true
  /\ OTPAuth.secret r <> ""
  /\ OTPAuth.otpAuthUrl r = url
  /\ exists u : URL.t,
       URL.parse url = Ok u
       /\ let params := URL.URLSearchParams (URL.search u) in
          OTPAuth.type r = JS.toLowerCase (URL.host u)
          /\ OTPAuth.algorithm r
             = JS.toLowerCase (JS.or_str (URL.get params "algorithm") "SHA1")
          /\ OTPAuth.digits r = Number (OTPAuth.get_or params "digits" (OTPAuth.PNum 6))
          /\ OTPAuth.period r = Number (OTPAuth.get_or params "period" (OTPAuth.PNum 30))
          /\ OTPAuth.counter r
             = (if JS.falsy_str (URL.get params "counter") then None
                else URL.get params "counter").
Proof.
  unfold OTPAuth.parseOTPAuth.
  destruct (JS.startsWith "otpauth://" url); cbn [negb]; [|discriminate].
  destruct (URL.parse url) as [u|e]; cbn [bind]; [|discriminate].
  destruct (URL.decodeURIComponent _) as [label|e]; cbn [bind]; [|discriminate].
  destruct (JS.falsy_str (URL.get _ "secret")) eqn:Fs; [discriminate|].
  intros [= <-]. cbn. split; [reflexivity|].
  apply falsy_str_inv in Fs as (sec & -> & Hsec). split; [exact Hsec|].
  split; [reflexivity|]. exists u. split; [reflexivity|].
  repeat split.
  destruct (URL.get (URL.URLSearchParams (URL.search u)) "counter") as [c|];
    [|reflexivity].
  cbn [JS.falsy_str]. destruct (JS.truthy c); reflexivity.
Qed.

(** X24.  What [POST /api/extract-secret] answers.  Without an image that
    starts with [data:image] it answers 400 and does not look at the image.
    An image the scan finds no QR code in is answered 422.  Every other
    failure, a QR code that is not a provisioning URI included, is answered
    500 with the message of the exception.  A success carries what
    [parseOTPAuth] made of the text of the QR code, the secret in the clear
    and the text itself among it. *)
Theorem extract_secret_answers (image : option string) :
  match Extract.POST_api_extract_secret Number scan image with
  | Extract.Extracted fields =>
      exists img data : string,
        image = Some img /\ JS.startsWith "data:image" img = true
        /\ scan img = Ok (Some data)
        /\ OTPAuth.parseOTPAuth Number data = Ok fields
        /\ JS.startsWith "otpauth://" data = true
        /\ OTPAuth.secret fields <> ""
        /\ OTPAuth.otpAuthUrl fields = data
  | Extract.Refused st message =>
      (st = 400 /\ message = "Invalid or missing base64 image"
       /\ (JS.falsy_str image = true
           \/ JS.startsWith "data:image" (JS.default image "") = false))
      \/ (exists img : string,
            image = Some img /\ JS.startsWith "data:image" img = true
            /\ ((st = 422 /\ message = "No QR code found" /\ scan img = Ok None)
                \/ (st = 500
                    /\ exists e : exn,
                         message = exn_message e
                         /\ (scan img = Throw e
                             \/ exists data : string,
                                  scan img = Ok (Some data)
                                  /\ OTPAuth.parseOTPAuth Number data = Throw e
                                  /\ (JS.startsWith "otpauth://" data = false ->
                                      e = Invalid_OTP_Auth_URL)))))
  end.
Proof.
  unfold Extract.POST_api_extract_secret.
  destruct (JS.falsy_str image) eqn:Fi; cbn [orb].
  { left. auto. }
  destruct (JS.startsWith "data:image" (JS.default image "")) eqn:Hs; cbn [negb].
  2: { left. auto. }
  apply falsy_str_inv in Fi as (img & -> & _). cbn [JS.default] in *.
  destruct (scan img) as [[data|]|e] eqn:Sc; cbn [bind].
  - destruct (OTPAuth.parseOTPAuth Number data) as [fields|e] eqn:P; cbn [bind].
    + destruct (parseOTPAuth_inv data fields P) as (H1 & H2 & H3 & _).
      exists img, data. repeat split; auto.
    + right. exists img. split; [reflexivity|]. split; [exact Hs|]. right.
      split; [reflexivity|]. exists e. split; [reflexivity|]. right.
      exists data. split; [exact Sc|]. split; [exact P|].
      intros Hd. revert P. unfold OTPAuth.parseOTPAuth. rewrite Hd. cbn [negb].
      now intros [= <-].
  - right. exists img. split; [reflexivity|]. split; [exact Hs|]. left. auto.
  - right. exists img. split; [reflexivity|]. split; [exact Hs|]. right.
    split; [reflexivity|]. exists e. split; [reflexivity|]. now left.
Qed.

(** X25.  What [parseOTPAuth] makes of the parameters the specification
    leaves out.  The type is the host in lower case; the algorithm is in
    lower case, and ["sha1"] when the parameter is missing or empty; the
    digits and the period are [Number] of the parameter, and of 6 and 30
    when it is missing or empty; the counter is the text of the parameter,
    and [null] when it is missing or empty; the URL is handed back. *)
Theorem parseOTPAuth_defaults (url : string) (r : OTPAuth.parsed)
    (Hparsed : OTPAuth.parseOTPAuth Number url = Ok r) :
  exists u : URL.t,
    URL.parse url = Ok u
    /\ OTPAuth.otpAuthUrl r = url
    /\ OTPAuth.type r = JS.toLowerCase (URL.host u)
    /\ JS.toLowerCase (OTPAuth.algorithm r) = OTPAuth.algorithm r
    /\ forall name : string,
         let given := URL.get (URL.URLSearchParams (URL.search u)) name in
         (JS.falsy_str given = true ->
          (name = "algorithm" -> OTPAuth.algorithm r = "sha1")
          /\ (name = "digits" -> OTPAuth.digits r = Number (OTPAuth.PNum 6))
          /\ (name = "period" -> OTPAuth.period r = Number (OTPAuth.PNum 30))
          /\ (name = "counter" -> OTPAuth.counter r = None))
         /\ (forall v : string,
                given = Some v -> v <> "" ->
                (name = "algorithm" -> OTPAuth.algorithm r = JS.toLowerCase v)
                /\ (name = "digits" -> OTPAuth.digits r = Number (OTPAuth.PStr v))
                /\ (name = "period" -> OTPAuth.period r = Number (OTPAuth.PStr v))
                /\ (name = "counter" -> OTPAuth.counter r = Some v)).
Proof.
  destruct (parseOTPAuth_inv url r Hparsed) as (_ & _ & Hu & u & Hp & Ht & Ha & Hd & Hpe & Hc).
  exists u. split; [exact Hp|]. split; [exact Hu|]. split; [exact Ht|].
  split; [rewrite Ha; apply toLowerCase_idempotent|].
  intros name given. subst given. split.
  - intros F.
    repeat split; intros ->.
    + rewrite Ha. unfold JS.or_str.
      destruct (URL.get _ "algorithm") as [a|]; [|reflexivity].
      cbn [JS.falsy_str] in F. apply negb_true_iff in F. now rewrite F.
    + rewrite Hd. unfold OTPAuth.get_or.
      destruct (URL.get _ "digits") as [a|]; [|reflexivity].
      cbn [JS.falsy_str] in F. apply negb_true_iff in F. now rewrite F.
    + rewrite Hpe. unfold OTPAuth.get_or.
      destruct (URL.get _ "period") as [a|]; [|reflexivity].
      cbn [JS.falsy_str] in F. apply negb_true_iff in F. now rewrite F.
    + rewrite Hc. now rewrite F.
  - intros v Hv Hne.
    assert (T : JS.truthy v = true).
    { unfold JS.truthy. destruct (String.eqb_spec v ""); [contradiction | reflexivity]. }
    repeat split; intros ->.
    + rewrite Ha, Hv. unfold JS.or_str. now rewrite T.
    + rewrite Hd. unfold OTPAuth.get_or. now rewrite Hv, T.
    + rewrite Hpe. unfold OTPAuth.get_or. now rewrite Hv, T.
    + rewrite Hc, Hv. cbn [JS.falsy_str]. now rewrite T.
Qed.

End QRCodes.

(* ===================================================================== *)
(** * Beyond the specification: rounding the clock, and unchecked
      parameters *)
(* ===================================================================== *)

Section Rounding.

Local Open Scope Z_scope.
Local Open Scope string_scope.

Lemma remaining_at_step_end (period now : Z) :
  0 < period -> 0 <= now ->
  period * 1000 - 500 <= now mod (period * 1000) ->
  time_remaining period (JS.round_div_1000 now) = period
  /\ time_remaining period (JS.floor_div_1000 now) = 1.
Proof.
  intros Hp Hn Hr.
  pose proof (Z.mod_pos_bound now (period * 1000) ltac:(lia)) as Hb.
  pose proof (Z.div_mod now (period * 1000) ltac:(lia)) as Hd.
  set (q := now / (period * 1000)) in *. set (r := now mod (period * 1000)) in *.
  assert (Hq : 0 <= q) by (apply Z.div_pos; lia).
  assert (Eround : JS.round_div_1000 now = (q + 1) * period).
  { unfold JS.round_div_1000. symmetry.
    apply (Z.div_unique (now + 500) 1000 _ (r + 500 - period * 1000)); lia. }
  assert (Efloor : JS.floor_div_1000 now = q * period + (period - 1)).
  { unfold JS.floor_div_1000. symmetry.
    apply (Z.div_unique now 1000 _ (r - (period - 1) * 1000)); lia. }
  unfold time_remaining, JS.rem. rewrite Eround, Efloor.
  rewrite !Z.rem_mod_nonneg by nia.
  rewrite Z.mod_mul by lia.
  rewrite Z.add_comm, Z.mod_add by lia.
  rewrite Z.mod_small by lia. lia.
Qed.

(** X26.  [src/server.js] takes the second of the clock with [Math.round].
    In the last half second of a step the second is already that of the
    next step: the code route, and [generateCode] of the model, report a
    full period as the time remaining and an expiry a full period ahead,
    where the count of whole seconds, which [src/server-backup.js] takes
    with [Math.floor], leaves one. *)
Theorem remaining_time_is_a_period_at_the_end_of_a_step
    (speakeasy : Speakeasy) (KEY : string) (now : Z) (doc : Mongo.Account)
    (token : string) (remaining : Z)
    (Hperiod : 0 < Mongo.period doc)
    (Hnow : 0 <= now)
    (Hend : Mongo.period doc * 1000 - 500 <= now mod (Mongo.period doc * 1000))
    (Hissued : Mongo.issue speakeasy KEY now (JS.round_div_1000 now) doc
               = Ok (token, remaining)) :
  remaining = Mongo.period doc
  /\ time_remaining (Mongo.period doc) (JS.floor_div_1000 now) = 1
  /\ MongoAPI.generateCode_method speakeasy KEY now doc
     = Ok (token, Mongo.period doc, now + Mongo.period doc * 1000).
Proof.
  destruct (remaining_at_step_end _ _ Hperiod Hnow Hend) as [Er Ef].
  assert (E : remaining = Mongo.period doc).
  { revert Hissued. unfold Mongo.issue, bind.
    destruct (if Mongo.encrypted doc then _ else _); [|discriminate].
    destruct (totp speakeasy _ now); [|discriminate].
    intros [= _ <-]. exact Er. }
  split; [exact E|]. split; [exact Ef|]. subst remaining.
  revert Hissued.
  unfold MongoAPI.generateCode_method, Mongo.issue, Mongo.decrypt, Mongo.key_bytes, bind.
  fold (time_remaining (Mongo.period doc) (JS.round_div_1000 now)).
  destruct (Mongo.encrypted doc).
  - destruct (Crypto.decipher_aes_256_cbc _ _ _); [|discriminate].
    destruct (totp speakeasy _ now); [|discriminate].
    intros [= -> _]. now rewrite Er.
  - destruct (totp speakeasy _ now); [|discriminate].
    intros [= -> _]. now rewrite Er.
Qed.

End Rounding.

Section Parameters.

Local Open Scope Z_scope.
Local Open Scope string_scope.

Variable speakeasy : Speakeasy.
Variable env : option string.

(** X27.  The in-memory service of [src/server-backup.js] checks neither
    the digits, nor the period, nor the type of a creation request.  Two
    requests with the same key, secret, [encrypt] flag and algorithm (a
    string, or none) get the same answer, and the digits, the period and
    the type are stored as they come: a count of zero digits, a negative
    period or an unknown type are all accepted.  (The algorithm is not free:
    the route calls [toLowerCase] on it, which a value that is no string
    does not have.) *)
Theorem creation_checks_no_parameter
    (now : Z) (req req' : Fixed.new_account) (s : Fixed.state)
    (Hkey : Fixed.r_key req' = Fixed.r_key req)
    (Hsecret : Fixed.r_secret req' = Fixed.r_secret req)
    (Hencrypt : Fixed.r_encrypt req' = Fixed.r_encrypt req)
    (Halgorithm : Fixed.r_algorithm req' = Fixed.r_algorithm req) :
  fst (Fixed.POST_api_accounts speakeasy env now req' s)
  = fst (Fixed.POST_api_accounts speakeasy env now req s)
  /\ (status (fst (Fixed.POST_api_accounts speakeasy env now req s)) = 201 ->
      exists account : Fixed.Account,
        Fixed.accounts (snd (Fixed.POST_api_accounts speakeasy env now req' s))
        !! JS.default (Fixed.r_key req) "" = Some account
        /\ Fixed.digits account = JS.default (Fixed.r_digits req') 6
        /\ Fixed.period account = JS.default (Fixed.r_period req') 30
        /\ Fixed.type account = JS.default (Fixed.r_type req') "totp").
Proof.
  assert (E : fst (Fixed.POST_api_accounts speakeasy env now req' s)
              = fst (Fixed.POST_api_accounts speakeasy env now req s)).
  { clear Halgorithm.
    unfold Fixed.POST_api_accounts. rewrite Hkey, Hsecret, Hencrypt.
    destruct (JS.falsy_str (Fixed.r_key req) || JS.falsy_str (Fixed.r_secret req))%bool;
      [reflexivity|].
    destruct (Fixed.get (Fixed.accounts s) _); try reflexivity.
    destruct (totp speakeasy _ now); [|reflexivity].
    destruct (if JS.default (Fixed.r_encrypt req) true then _ else _) as [[stored|e] g];
      reflexivity. }
  split; [exact E|]. intros H. rewrite <- E in H.
  destruct (Fixed_POST_created speakeasy env now req' s H) as (stored & Hs & _).
  rewrite Hs, Hkey, lookup_insert_eq. eexists. split; [reflexivity|].
  repeat split.
Qed.

End Parameters.

(* ===================================================================== *)
(** * The statements beyond the specification, at concrete requests *)
(* ===================================================================== *)

(** A secret typed in lower case, in groups of four. *)
Lemma normalizeBase32_normal_form_witness :
  ascii_only (Fixed.normalizeBase32 "jbsw y3dp ehpk 3pxp") = true
  /\ Fixed.normalizeBase32 (Fixed.normalizeBase32 "jbsw y3dp ehpk 3pxp")
     = Fixed.normalizeBase32 "jbsw y3dp ehpk 3pxp"
  /\ (forall c : ascii,
        JS.includes c (Fixed.normalizeBase32 "jbsw y3dp ehpk 3pxp") = true ->
        JS.is_space c = false /\ JS.upper c = c)
  /\ (forall t : string,
        ascii_only t = true ->
        ascii_only ("jbsw y3dp ehpk 3pxp" ++ t) = true
        /\ Fixed.normalizeBase32 ("jbsw y3dp ehpk 3pxp" ++ t)
           = Fixed.normalizeBase32 "jbsw y3dp ehpk 3pxp" ++ Fixed.normalizeBase32 t).
Proof.
  apply (normalizeBase32_normal_form "jbsw y3dp ehpk 3pxp"). reflexivity.
Defined.

(** The sample envelope with a version tag, or a remark, behind it still
    decrypts to the secret. *)
Lemma decrypt_ignores_trailing_text_witness :
  Fixed.decrypt (Fixed.ENCRYPTION_KEY None) (Sample.envelope ++ ":v2")
  = Ok "JBSWY3DPEHPK3PXP"
  /\ Mongo.decrypt Sample.hex_key (Sample.envelope ++ " (copy)")
     = Ok "JBSWY3DPEHPK3PXP".
Proof.
  split.
  - refine (proj1 (decrypt_ignores_trailing_text
                     (Fixed.ENCRYPTION_KEY None) Sample.hex_key "JBSWY3DPEHPK3PXP"
                     ":v2" Sample.counting _) Sample.envelope _);
      vm_compute; reflexivity.
  - refine (proj2 (decrypt_ignores_trailing_text
                     (Fixed.ENCRYPTION_KEY None) Sample.hex_key "JBSWY3DPEHPK3PXP"
                     " (copy)" Sample.counting _) Sample.envelope _);
      vm_compute; reflexivity.
Defined.

(** A secret of sixteen characters fills two blocks: the envelope has 97
    characters. *)
Lemma envelope_format_witness :
  exists ct : list byte,
    fst (Mongo.encrypt Sample.hex_key "JBSWY3DPEHPK3PXP" Sample.counting)
    = Ok (Buffer.toString_hex (fst (randomBytes 16 Sample.counting)) ++ ":"
          ++ Buffer.toString_hex ct)
    /\ length ct = 32%nat
    /\ String.length (Buffer.toString_hex (fst (randomBytes 16 Sample.counting)) ++ ":"
                      ++ Buffer.toString_hex ct) = 97%nat.
Proof.
  destruct (proj2 (envelope_format Sample.hex_key None "JBSWY3DPEHPK3PXP"
                     Sample.counting ltac:(vm_compute; reflexivity)))
    as (ct & H1 & H2 & _ & H3).
  exists ct. split; [exact H1|]. split; [exact H2 | exact H3].
Defined.

(** Three codes for the counter-based sample account. *)
Lemma issuance_touches_the_counter_only_witness :
  FixedAPI.same_settings Sample.hotp_account Cases.after_traffic
  /\ (Fixed.type Sample.hotp_account = "hotp" ->
      Fixed.counter_value Cases.after_traffic
      = Fixed.counter_value Sample.hotp_account + Z.of_nat 3
      /\ (3%nat <> 0%nat ->
          Fixed.counter Cases.after_traffic
          = Some (Fixed.counter_value Sample.hotp_account + Z.of_nat 3)))
  /\ (Fixed.type Sample.hotp_account <> "hotp" ->
      Cases.after_traffic = Sample.hotp_account).
Proof.
  apply (issuance_touches_the_counter_only Sample.speakeasy None 3 0
           Sample.hotp_account Cases.after_traffic).
  - vm_compute. discriminate.
  - vm_compute. discriminate.
  - vm_compute. reflexivity.
Defined.

(** The account a creation request leaves in the store is read back. *)
Lemma stored_secrets_stay_recoverable_witness :
  exists clean : string,
    FixedAPI.plaintext None Cases.enrolled = Ok clean
    /\ Fixed.normalizeBase32 clean = clean
    /\ Fixed.generateOTP Sample.speakeasy None 30000 Cases.enrolled
       = FixedAPI.issue_with Sample.speakeasy clean 30000 Cases.enrolled.
Proof.
  apply (stored_secrets_stay_recoverable Sample.speakeasy None
           [FixedAPI.PostAccount 0 Cases.enrol] Sample.counting 30000 "vpn"
           Cases.enrolled).
  vm_compute. reflexivity.
Defined.

(** The account ["vpn"] outlives the deletion of its neighbour. *)
Lemma account_persists_until_deleted_witness :
  exists account' : Fixed.Account,
    Fixed.accounts (FixedAPI.serve Sample.speakeasy None Cases.traffic Sample.memory)
    !! "vpn" = Some account'
    /\ FixedAPI.same_settings Sample.hotp_account account'
    /\ Fixed.counter_value Sample.hotp_account <= Fixed.counter_value account'.
Proof.
  apply (account_persists_until_deleted Sample.speakeasy None Cases.traffic
           Sample.memory "vpn" Sample.hotp_account).
  - vm_compute. reflexivity.
  - repeat constructor; discriminate.
Defined.

(** The request [Cases.enrol] is answered 201, and a code for the account
    follows. *)
Lemma created_account_is_issued_from_the_validated_secret_witness :
  let s' := snd (Fixed.POST_api_accounts Sample.speakeasy None 0 Cases.enrol
                   (FixedAPI.started Sample.counting)) in
  let key := JS.default (Fixed.r_key Cases.enrol) "" in
  let clean := Fixed.normalizeBase32 (JS.default (Fixed.r_secret Cases.enrol) "") in
  exists account : Fixed.Account,
    Fixed.accounts s' !! key = Some account
    /\ Fixed.counter account = None
    /\ is_Ok (Fixed.validation Sample.speakeasy 0 Cases.enrol) = true
    /\ Fixed.generateOTP Sample.speakeasy None 30000 account
       = FixedAPI.issue_with Sample.speakeasy clean 30000 account
    /\ status (fst (Fixed.GET_api_code Sample.speakeasy None 30000 key s'))
       = (if is_Ok (FixedAPI.issue_with Sample.speakeasy clean 30000 account)
          then 200 else 500).
Proof.
  apply (created_account_is_issued_from_the_validated_secret Sample.speakeasy None
           0 30000 Cases.enrol (FixedAPI.started Sample.counting)).
  vm_compute. reflexivity.
Defined.

(** No account is called [constructor]. *)
Lemma prototype_names_are_never_accounts_witness :
  let s := FixedAPI.serve Sample.speakeasy None [FixedAPI.PostAccount 0 Cases.squatter]
             (FixedAPI.started Sample.counting) in
  Fixed.accounts s !! "constructor" = None
  /\ Fixed.GET_api_code Sample.speakeasy None 0 "constructor" s
     = (json 500 (JS.JObj [("error", JS.JStr "OTP generation failed")]), s)
  /\ snd (Fixed.POST_api_accounts Sample.speakeasy None 0 Cases.squatter s) = s
  /\ status (fst (Fixed.POST_api_accounts Sample.speakeasy None 0 Cases.squatter s))
     = (if JS.falsy_str (Fixed.r_secret Cases.squatter) then 400 else 409).
Proof.
  apply (prototype_names_are_never_accounts Sample.speakeasy None
           [FixedAPI.PostAccount 0 Cases.squatter] Sample.counting 0 "constructor"
           Cases.squatter).
  - vm_compute. left. reflexivity.
  - reflexivity.
Defined.

(** The debug route shows the secret of [Cases.enrol]. *)
Lemma debug_discloses_the_secret_witness :
  let s' := snd (Fixed.POST_api_accounts Sample.speakeasy None 0 Cases.enrol
                   (FixedAPI.started Sample.counting)) in
  let key := JS.default (Fixed.r_key Cases.enrol) "" in
  let clean := Fixed.normalizeBase32 (JS.default (Fixed.r_secret Cases.enrol) "") in
  let answer := fst (Fixed.GET_api_debug Sample.speakeasy None 30000 key s') in
  exists account : Fixed.Account,
    Fixed.accounts s' !! key = Some account
    /\ match FixedAPI.issue_with Sample.speakeasy clean 30000 account with
       | Ok (r, _) =>
           status answer = 200
           /\ field "normalizedSecret" (body answer) = Some (JS.JStr clean)
           /\ field "otp" (body answer) = Some (JS.JObj (Fixed.otp_fields r))
       | Throw _ => answer = express_error
       end.
Proof.
  apply (debug_discloses_the_secret Sample.speakeasy None 0 30000 Cases.enrol
           (FixedAPI.started Sample.counting)).
  vm_compute. reflexivity.
Defined.

(** A text that is not base32 replaces the secret of the sample document. *)
Lemma update_stores_the_secret_unchecked_witness :
  let req :=
    {| Mongo.r_key := None; Mongo.r_name := None; Mongo.r_secret := Some "not base32!";
       Mongo.r_digits := None; Mongo.r_period := None; Mongo.r_algorithm := None;
       Mongo.r_type := None; Mongo.r_counter := None; Mongo.r_encrypt := None |} in
  let doc :=
    {| Mongo.key := Mongo.key Sample.mongo_totp_account;
       Mongo.name := Mongo.name Sample.mongo_totp_account;
       Mongo.secret := "not base32!"; Mongo.encrypted := false;
       Mongo.digits := Mongo.digits Sample.mongo_totp_account;
       Mongo.period := Mongo.period Sample.mongo_totp_account;
       Mongo.algorithm := Mongo.algorithm Sample.mongo_totp_account;
       Mongo.type := Mongo.type Sample.mongo_totp_account;
       Mongo.counter := Mongo.counter Sample.mongo_totp_account |} in
  status (fst (Mongo.PUT_api_accounts Sample.hex_key "mail" req Sample.collection)) = 200
  /\ snd (Mongo.PUT_api_accounts Sample.hex_key "mail" req Sample.collection)
     = {| Mongo.db := <[Mongo.key Sample.mongo_totp_account := doc]>
                        (Mongo.db Sample.collection);
          Mongo.random := Mongo.random Sample.collection |}.
Proof.
  apply (update_stores_the_secret_unchecked Sample.hex_key "mail" "not base32!"
           Sample.collection Sample.mongo_totp_account).
  - vm_compute. reflexivity.
  - vm_compute. reflexivity.
  - discriminate.
Defined.

(** The document [Sample.mongo_again] creates is found and issued. *)
Lemma created_document_is_issued_from_the_request_witness :
  let s' := snd (Mongo.POST_api_accounts Sample.speakeasy Sample.hex_key 0
                   Sample.mongo_again Sample.empty_collection) in
  let key := JS.default (Mongo.r_key Sample.mongo_again) "" in
  exists doc : Mongo.Account,
    Mongo.findByKey (Mongo.db s') key = Some doc
    /\ Mongo.key doc = JS.trim key
    /\ Mongo.name doc = JS.trim (JS.or_str (Mongo.r_name Sample.mongo_again) key)
    /\ Mongo.counter doc = JS.or_num (Mongo.r_counter Sample.mongo_again) 0
    /\ Mongo.validate doc = true
    /\ (let library :=
          totp Sample.speakeasy
               {| o_secret := JS.default (Mongo.r_secret Sample.mongo_again) "";
                  o_algorithm := Some (Mongo.algorithm doc);
                  o_digits := Some (Mongo.digits doc);
                  o_step := Some (Mongo.period doc);
                  o_window := Some 0 |} 30000 in
        status (fst (Mongo.GET_api_code Sample.speakeasy Sample.hex_key 30000 key s'))
        = (if is_Ok library then 200 else 500)).
Proof.
  apply (created_document_is_issued_from_the_request Sample.speakeasy Sample.hex_key
           0 30000 Sample.mongo_again Sample.empty_collection).
  vm_compute. reflexivity.
Defined.

(** The method and the route on the sample document, one second before the
    end of a step. *)
Lemma generateCode_agrees_with_the_route_witness :
  MongoAPI.generateCode_method Sample.speakeasy Sample.hex_key 59000
    Sample.mongo_totp_account
  = Mongo.generateCode Sample.speakeasy Sample.hex_key 59000 Sample.mongo_totp_account
  /\ fst (Mongo.GET_api_code Sample.speakeasy Sample.hex_key 59000 "mail"
            Sample.collection)
     = match MongoAPI.generateCode_method Sample.speakeasy Sample.hex_key 59000
               Sample.mongo_totp_account with
       | Ok (code, timeRemaining, expiresAt) =>
           json 200 (JS.JObj [("account",
                               JS.JStr (JS.or_str (Some (Mongo.name Sample.mongo_totp_account))
                                                  "mail"));
                              ("code", JS.JStr code);
                              ("algorithm",
                               JS.JStr (Mongo.algorithm Sample.mongo_totp_account));
                              ("timeRemaining", JS.JNum timeRemaining);
                              ("expiresAt", JS.JNum expiresAt)])
       | Throw e => Mongo.server_error "Failed to generate code" e
       end.
Proof.
  apply (generateCode_agrees_with_the_route Sample.speakeasy Sample.hex_key 59000
           "mail" Sample.collection Sample.mongo_totp_account).
  vm_compute. reflexivity.
Defined.

(** Eight hexadecimal digits are no key, and four more digits behind the
    sample key change nothing. *)
Lemma key_is_the_first_64_digits_witness :
  (forall (text : string) (g : entropy),
      fst (Mongo.encrypt "deadbeef" text g) = Throw ERR_CRYPTO_INVALID_KEYLEN)
  /\ (forall text : string,
         Mongo.decrypt "deadbeef" text
         = Throw (if Nat.eqb (length (Buffer.from_hex (nth 0 (JS.split ":" text) ""))) 16
                  then ERR_CRYPTO_INVALID_KEYLEN
                  else ERR_CRYPTO_INVALID_IV))
  /\ Mongo.key_bytes (Buffer.toString_hex (Fixed.ENCRYPTION_KEY None) ++ "ffff")
     = Fixed.ENCRYPTION_KEY None
  /\ (forall (text : string) (g : entropy),
         Mongo.encrypt (Buffer.toString_hex (Fixed.ENCRYPTION_KEY None) ++ "ffff") text g
         = Mongo.encrypt (Buffer.toString_hex (Fixed.ENCRYPTION_KEY None)) text g).
Proof.
  apply (key_is_the_first_64_digits "deadbeef" "ffff" (Fixed.ENCRYPTION_KEY None)).
  - vm_compute. lia.
  - vm_compute. reflexivity.
Defined.

(** The account of [Cases.earlier_enrol], whose zero for the digits became
    six. *)
Lemma earlier_service_defaults_never_apply_witness :
  Legacy.well_formed Sample.hex_key Cases.earlier_enrolled
  /\ exists plain : string,
       (if Legacy.encrypted Cases.earlier_enrolled
        then Legacy.decrypt Sample.hex_key (Legacy.secret Cases.earlier_enrolled)
        else Ok (Legacy.secret Cases.earlier_enrolled)) = Ok plain
       /\ Legacy.token_of Sample.speakeasy Sample.hex_key 30000 Cases.earlier_enrolled
          = totp Sample.speakeasy
                 {| o_secret := plain; o_algorithm := Some "sha1";
                    o_digits := Some (Legacy.digits Cases.earlier_enrolled);
                    o_step := Some (Legacy.period Cases.earlier_enrolled);
                    o_window := Some 0 |} 30000.
Proof.
  apply (earlier_service_defaults_never_apply Sample.speakeasy (Throw SpeakeasyError)
           Sample.hex_key [Legacy.PostAccount 0 Cases.earlier_enrol] Sample.counting
           30000 "mail" Cases.earlier_enrolled).
  vm_compute. reflexivity.
Defined.

(** The provisioning URI of the specification carries its digits and its
    period, and neither an algorithm nor a counter. *)
Lemma parseOTPAuth_defaults_witness :
  exists u : URL.t,
    URL.parse Sample.uri = Ok u
    /\ OTPAuth.otpAuthUrl Sample.uri_parsed = Sample.uri
    /\ OTPAuth.type Sample.uri_parsed = JS.toLowerCase (URL.host u)
    /\ JS.toLowerCase (OTPAuth.algorithm Sample.uri_parsed)
       = OTPAuth.algorithm Sample.uri_parsed
    /\ forall name : string,
         let given := URL.get (URL.URLSearchParams (URL.search u)) name in
         (JS.falsy_str given = true ->
          (name = "algorithm" -> OTPAuth.algorithm Sample.uri_parsed = "sha1")
          /\ (name = "digits" ->
              OTPAuth.digits Sample.uri_parsed = OTPAuth.PNum 6)
          /\ (name = "period" ->
              OTPAuth.period Sample.uri_parsed = OTPAuth.PNum 30)
          /\ (name = "counter" -> OTPAuth.counter Sample.uri_parsed = None))
         /\ (forall v : string,
                given = Some v -> v <> "" ->
                (name = "algorithm" ->
                 OTPAuth.algorithm Sample.uri_parsed = JS.toLowerCase v)
                /\ (name = "digits" ->
                    OTPAuth.digits Sample.uri_parsed = OTPAuth.PStr v)
                /\ (name = "period" ->
                    OTPAuth.period Sample.uri_parsed = OTPAuth.PStr v)
                /\ (name = "counter" -> OTPAuth.counter Sample.uri_parsed = Some v)).
Proof.
  apply (parseOTPAuth_defaults (fun p => p) Sample.uri Sample.uri_parsed).
  vm_compute. reflexivity.
Defined.

(** At 29.6 seconds a period of 30 seconds is reported as remaining. *)
Lemma remaining_time_is_a_period_at_the_end_of_a_step_witness :
  30 = Mongo.period Sample.mongo_totp_account
  /\ time_remaining (Mongo.period Sample.mongo_totp_account) (JS.floor_div_1000 29600) = 1
  /\ MongoAPI.generateCode_method Sample.speakeasy Sample.hex_key 29600
       Sample.mongo_totp_account
     = Ok ("000000", Mongo.period Sample.mongo_totp_account,
           29600 + Mongo.period Sample.mongo_totp_account * 1000).
Proof.
  apply (remaining_time_is_a_period_at_the_end_of_a_step Sample.speakeasy Sample.hex_key
           29600 Sample.mongo_totp_account "000000" 30).
  - vm_compute. reflexivity.
  - vm_compute. discriminate.
  - vm_compute. discriminate.
  - vm_compute. reflexivity.
Defined.

(** No digits, a negative period and an unknown type are stored. *)
Lemma creation_checks_no_parameter_witness :
  fst (Fixed.POST_api_accounts Sample.speakeasy None 0 Cases.careless
         (FixedAPI.started Sample.counting))
  = fst (Fixed.POST_api_accounts Sample.speakeasy None 0 Cases.enrol
           (FixedAPI.started Sample.counting))
  /\ (status (fst (Fixed.POST_api_accounts Sample.speakeasy None 0 Cases.enrol
                     (FixedAPI.started Sample.counting))) = 201 ->
      exists account : Fixed.Account,
        Fixed.accounts (snd (Fixed.POST_api_accounts Sample.speakeasy None 0
                               Cases.careless (FixedAPI.started Sample.counting)))
        !! JS.default (Fixed.r_key Cases.enrol) "" = Some account
        /\ Fixed.digits account = JS.default (Fixed.r_digits Cases.careless) 6
        /\ Fixed.period account = JS.default (Fixed.r_period Cases.careless) 30
        /\ Fixed.type account = JS.default (Fixed.r_type Cases.careless) "totp").
Proof.
  apply (creation_checks_no_parameter Sample.speakeasy None 0 Cases.enrol Cases.careless
           (FixedAPI.started Sample.counting)); reflexivity.
Defined.
